(** * AR Wizard memory manager: a shallow embedding of
      [ARWizardMemoryManager] (memory/ar-wizard-memory.ts)

    The manager is a thin layer over a namespaced key/value store.  A
    method that writes is embedded as a function that takes the store and
    returns its result together with the store it leaves behind; a method
    that only reads returns its result.  Every reading of the clock
    ([new Date()], [Date.now()]) is an explicit argument, in milliseconds
    since the epoch, so that calls at different instants can be told
    apart. *)

From Stdlib Require Import ZArith QArith List String.
From stdpp Require Import gmap strings list fin_maps.

Local Open Scope Z_scope.

(** ** Data model *)

(** [any] payloads are opaque to the manager; they are carried as blobs. *)
Definition JsAny : Type := string.

(** A [Date] is its time value, the integer [getTime()] returns. *)
Definition Date : Type := Z.

Inductive ExpertiseType : Type :=
  | sql_procedure | business_rule | schema_knowledge | billing_pattern.

Inductive ExpertiseDomain : Type :=
  | job_billing | job_costing | contract_management | change_orders
  | wip_analysis.

Inductive KnowledgeCategory : Type :=
  | cat_predictive_model | cat_billing_rule | cat_integration_pattern
  | cat_test_case.

Inductive Database : Type := kls | gbi | taft | ideal.

Inductive AnalysisType : Type :=
  | data_quality | performance | pattern_recognition | schema_analysis.

Inductive ModelType : Type :=
  | billing_prediction | cost_analysis | wip_calculation
  | model_pattern_recognition.

#[global] Instance ExpertiseType_eq_dec : EqDecision ExpertiseType.
Proof. solve_decision. Defined.
#[global] Instance ExpertiseDomain_eq_dec : EqDecision ExpertiseDomain.
Proof. solve_decision. Defined.
#[global] Instance KnowledgeCategory_eq_dec : EqDecision KnowledgeCategory.
Proof. solve_decision. Defined.
#[global] Instance Database_eq_dec : EqDecision Database.
Proof. solve_decision. Defined.
#[global] Instance AnalysisType_eq_dec : EqDecision AnalysisType.
Proof. solve_decision. Defined.
#[global] Instance ModelType_eq_dec : EqDecision ModelType.
Proof. solve_decision. Defined.

(** Fractional JavaScript numbers (scores, accuracies) are rationals;
    two of them are the same value when they are the same fraction. *)
#[global] Instance Q_eq_dec : EqDecision Q.
Proof. solve_decision. Defined.

(** [usageCount] is a JavaScript number that only ever holds integers: it
    is the integer it holds, and arithmetic on it rounds as the arithmetic
    of JavaScript numbers does ([js_round] below). *)
Record ViewpointExpertise : Type := {
  ve_id : string;
  ve_type : ExpertiseType;
  ve_domain : ExpertiseDomain;
  ve_content : JsAny;
  ve_confidence : Q;
  ve_lastUpdated : Date;
  ve_source : string;
  ve_validated : bool;
  ve_usageCount : Z
}.

Record KnowledgePerformance : Type := {
  kp_executionTime : Q;
  kp_memoryUsage : Q;
  kp_successRate : Q
}.

Record ARWizardKnowledge : Type := {
  ak_id : string;
  ak_category : KnowledgeCategory;
  ak_description : string;
  ak_implementation : JsAny;
  ak_accuracy : option Q;
  ak_performance : option KnowledgePerformance;
  ak_dependencies : list string;
  ak_createdAt : Date;
  ak_lastUsed : Date
}.

Record AnalysisMetrics : Type := {
  am_dataVolume : Q;
  am_qualityScore : Q;
  am_performanceScore : Q;
  am_completenessScore : Q
}.

Record DatabaseAnalysis : Type := {
  da_id : string;
  da_database : Database;
  da_analysisType : AnalysisType;
  da_results : JsAny;
  da_metrics : AnalysisMetrics;
  da_recommendations : list string;
  da_analyzedAt : Date;
  da_validUntil : Date
}.

Record TrainingData : Type := {
  td_source : string;
  td_size : Z;
  td_start : Date;
  td_end : Date
}.

Record ModelPerformance : Type := {
  accuracy : Q;
  precision : Q;
  recall : Q;
  f1Score : Q
}.

Record PredictiveModel : Type := {
  pm_id : string;
  pm_name : string;
  pm_type : ModelType;
  pm_algorithm : string;
  pm_features : list string;
  pm_trainingData : TrainingData;
  pm_performance : ModelPerformance;
  pm_model : JsAny;
  pm_version : string;
  pm_trainedAt : Date;
  pm_lastValidated : Date
}.

#[global] Instance AnalysisMetrics_eq_dec : EqDecision AnalysisMetrics.
Proof. solve_decision. Defined.
#[global] Instance DatabaseAnalysis_eq_dec : EqDecision DatabaseAnalysis.
Proof. solve_decision. Defined.
#[global] Instance TrainingData_eq_dec : EqDecision TrainingData.
Proof. solve_decision. Defined.
#[global] Instance ModelPerformance_eq_dec : EqDecision ModelPerformance.
Proof. solve_decision. Defined.
#[global] Instance PredictiveModel_eq_dec : EqDecision PredictiveModel.
Proof. solve_decision. Defined.

(** The wrapper [storeSharedContext] writes: [{data, timestamp, ttl}]. *)
Record SharedContextEntry : Type := {
  data : JsAny;
  timestamp : Date;
  ttl : Z
}.

(** ** The underlying store *)

(** Modelled from the spec: the class [DistributedMemorySystem]
    (memory/distributed-memory.js) is imported by the manager but is not
    part of the sources.  Section 4.1 of the specification describes it as a
    key/value store partitioned into namespaces, a table per namespace
    keyed by id, every record crossing the boundary by value.  The five
    namespaces the manager uses
    (['ar-wizard:viewpoint-expertise'], ['ar-wizard:knowledge'],
    ['ar-wizard:database-analysis'], ['ar-wizard:predictive-models'],
    ['ar-wizard:shared-context']) are the five tables of this record. *)
Record DistributedMemorySystem : Type := {
  VIEWPOINT_EXPERTISE_NS : gmap string ViewpointExpertise;
  AR_WIZARD_KNOWLEDGE_NS : gmap string ARWizardKnowledge;
  DATABASE_ANALYSIS_NS : gmap string DatabaseAnalysis;
  PREDICTIVE_MODELS_NS : gmap string PredictiveModel;
  SHARED_CONTEXT_NS : gmap string SharedContextEntry
}.

(** Modelled from the spec: what the store leaves open.  [query] returns
    the matching records in an unspecified order, so the enumeration order
    of a table is a parameter constrained only to list every entry exactly
    once; the meaning of the [$text] criterion of
    [searchViewpointExpertise] belongs to the store as well. *)
Record QueryEngine : Type := {
  enum : forall A : Type, gmap string A -> list (string * A);
  enum_perm : forall (A : Type) (t : gmap string A),
      enum A t ≡ₚ map_to_list t;
  text_search : string -> ViewpointExpertise -> bool
}.

(** The enumeration stdpp itself provides is one such engine. *)
Definition canonical_engine : QueryEngine :=
  {| enum := fun A t => map_to_list t;
     enum_perm := fun A t => reflexivity (map_to_list t);
     text_search := fun _ _ => true |}.

(** Modelled from the spec: the four primitives of section 4.1, on one
    table.  [store] overwrites, [get] returns the record or nothing,
    [delete] of an absent id is a no-op, [query] returns all records that
    match. *)
Module memory.
Section Table.
Context {A : Type}.

Definition store (t : gmap string A) (id : string) (r : A)
  : gmap string A := <[id := r]> t.

Definition get (t : gmap string A) (id : string) : option A := t !! id.

Definition delete (t : gmap string A) (id : string)
  : gmap string A := base.delete id t.

Definition query (E : QueryEngine) (t : gmap string A)
    (criteria : A -> bool) : list A :=
  List.filter criteria (snd <$> enum E A t).
End Table.
End memory.

(** Writing one table back into the store. *)
Definition with_expertise (t : gmap string ViewpointExpertise)
    (m : DistributedMemorySystem) : DistributedMemorySystem :=
  {| VIEWPOINT_EXPERTISE_NS := t;
     AR_WIZARD_KNOWLEDGE_NS := AR_WIZARD_KNOWLEDGE_NS m;
     DATABASE_ANALYSIS_NS := DATABASE_ANALYSIS_NS m;
     PREDICTIVE_MODELS_NS := PREDICTIVE_MODELS_NS m;
     SHARED_CONTEXT_NS := SHARED_CONTEXT_NS m |}.

Definition with_knowledge (t : gmap string ARWizardKnowledge)
    (m : DistributedMemorySystem) : DistributedMemorySystem :=
  {| VIEWPOINT_EXPERTISE_NS := VIEWPOINT_EXPERTISE_NS m;
     AR_WIZARD_KNOWLEDGE_NS := t;
     DATABASE_ANALYSIS_NS := DATABASE_ANALYSIS_NS m;
     PREDICTIVE_MODELS_NS := PREDICTIVE_MODELS_NS m;
     SHARED_CONTEXT_NS := SHARED_CONTEXT_NS m |}.

Definition with_analyses (t : gmap string DatabaseAnalysis)
    (m : DistributedMemorySystem) : DistributedMemorySystem :=
  {| VIEWPOINT_EXPERTISE_NS := VIEWPOINT_EXPERTISE_NS m;
     AR_WIZARD_KNOWLEDGE_NS := AR_WIZARD_KNOWLEDGE_NS m;
     DATABASE_ANALYSIS_NS := t;
     PREDICTIVE_MODELS_NS := PREDICTIVE_MODELS_NS m;
     SHARED_CONTEXT_NS := SHARED_CONTEXT_NS m |}.

Definition with_models (t : gmap string PredictiveModel)
    (m : DistributedMemorySystem) : DistributedMemorySystem :=
  {| VIEWPOINT_EXPERTISE_NS := VIEWPOINT_EXPERTISE_NS m;
     AR_WIZARD_KNOWLEDGE_NS := AR_WIZARD_KNOWLEDGE_NS m;
     DATABASE_ANALYSIS_NS := DATABASE_ANALYSIS_NS m;
     PREDICTIVE_MODELS_NS := t;
     SHARED_CONTEXT_NS := SHARED_CONTEXT_NS m |}.

Definition with_context (t : gmap string SharedContextEntry)
    (m : DistributedMemorySystem) : DistributedMemorySystem :=
  {| VIEWPOINT_EXPERTISE_NS := VIEWPOINT_EXPERTISE_NS m;
     AR_WIZARD_KNOWLEDGE_NS := AR_WIZARD_KNOWLEDGE_NS m;
     DATABASE_ANALYSIS_NS := DATABASE_ANALYSIS_NS m;
     PREDICTIVE_MODELS_NS := PREDICTIVE_MODELS_NS m;
     SHARED_CONTEXT_NS := t |}.

Definition empty_memory : DistributedMemorySystem :=
  {| VIEWPOINT_EXPERTISE_NS := ∅;
     AR_WIZARD_KNOWLEDGE_NS := ∅;
     DATABASE_ANALYSIS_NS := ∅;
     PREDICTIVE_MODELS_NS := ∅;
     SHARED_CONTEXT_NS := ∅ |}.

(** ** [Array.prototype.sort] with a comparator

    The comparator returns a number; [a] is placed after [b] exactly when
    [compareFn a b > 0], and elements that compare equal keep their
    relative order (the sort is stable).  For a consistent comparator
    every stable sort computes the same array; it is computed here by
    insertion from the right. *)
Definition is_positive (q : Q) : bool :=
  if Qlt_le_dec 0 q then true else false.

Fixpoint sort_insert {A : Type} (compareFn : A -> A -> Q) (x : A)
    (l : list A) : list A :=
  match l with
  | [] => [x]
  | y :: l' =>
      if is_positive (compareFn x y) then y :: sort_insert compareFn x l'
      else x :: l
  end.

Definition sort {A : Type} (compareFn : A -> A -> Q) (l : list A)
  : list A :=
  foldr (sort_insert compareFn) [] l.

(** ** JavaScript numbers that hold integers

    A JavaScript number is a double: it holds an integer exactly when the
    integer fits in 53 significant bits, and the result of an arithmetic
    operation is the exact result rounded to the nearest number that can
    be held, a tie going to the one with an even significand.  Up to
    [2^53] every integer can be held; beyond it the numbers that can be
    held are the multiples of [ulp z], the weight of the last of the 53
    bits. *)
Definition ulp (z : Z) : Z := 2 ^ (Z.log2 (Z.abs z) - 52).

Definition js_round (z : Z) : Z :=
  if Z.abs z <=? 2 ^ 53 then z
  else
    let u := ulp z in
    let lo := z / u * u in
    let rest := z - lo in
    if 2 * rest <? u then lo
    else if u <? 2 * rest then lo + u
    else if Z.even (z / u) then lo else lo + u.

(** ** The manager *)

(** Arguments of the [store...] methods: the record without the fields the
    manager fills in ([Omit<..., 'id' | ...>]). *)
Record ExpertiseInput : Type := {
  ei_type : ExpertiseType;
  ei_domain : ExpertiseDomain;
  ei_content : JsAny;
  ei_confidence : Q;
  ei_source : string;
  ei_validated : bool
}.

Record KnowledgeInput : Type := {
  ki_category : KnowledgeCategory;
  ki_description : string;
  ki_implementation : JsAny;
  ki_accuracy : option Q;
  ki_performance : option KnowledgePerformance;
  ki_dependencies : list string
}.

Record AnalysisInput : Type := {
  ai_database : Database;
  ai_analysisType : AnalysisType;
  ai_results : JsAny;
  ai_metrics : AnalysisMetrics;
  ai_recommendations : list string;
  ai_validUntil : Date
}.

Record ModelInput : Type := {
  mi_name : string;
  mi_type : ModelType;
  mi_algorithm : string;
  mi_features : list string;
  mi_trainingData : TrainingData;
  mi_performance : ModelPerformance;
  mi_model : JsAny;
  mi_version : string
}.

(** A field of the object handed to [importKnowledgeBase]: the property
    can be missing, [null], or an array. *)
Inductive JsArrayField (A : Type) : Type :=
  | js_undefined
  | js_null
  | js_array (items : list A).
Arguments js_undefined {A}.
Arguments js_null {A}.
Arguments js_array {A} items.

(** [field || []] *)
Definition or_empty {A : Type} (f : JsArrayField A) : list A :=
  match f with
  | js_undefined | js_null => []
  | js_array items => items
  end.

Record KnowledgeBase : Type := {
  viewpointExpertise : JsArrayField ViewpointExpertise;
  arWizardKnowledge : JsArrayField ARWizardKnowledge;
  databaseAnalyses : JsArrayField DatabaseAnalysis;
  predictiveModels : JsArrayField PredictiveModel
}.

(** What [exportKnowledgeBase] returns. *)
Record KnowledgeBaseExport : Type := {
  export_data : KnowledgeBase;
  exportedAt : Date
}.

(** [expertise.usageCount++] *)
Definition increment_usage (e : ViewpointExpertise) : ViewpointExpertise :=
  {| ve_id := ve_id e;
     ve_type := ve_type e;
     ve_domain := ve_domain e;
     ve_content := ve_content e;
     ve_confidence := ve_confidence e;
     ve_lastUpdated := ve_lastUpdated e;
     ve_source := ve_source e;
     ve_validated := ve_validated e;
     ve_usageCount := js_round (ve_usageCount e + 1) |}.

(** [item.lastUsed = new Date()] *)
Definition touch (now : Date) (k : ARWizardKnowledge) : ARWizardKnowledge :=
  {| ak_id := ak_id k;
     ak_category := ak_category k;
     ak_description := ak_description k;
     ak_implementation := ak_implementation k;
     ak_accuracy := ak_accuracy k;
     ak_performance := ak_performance k;
     ak_dependencies := ak_dependencies k;
     ak_createdAt := ak_createdAt k;
     ak_lastUsed := now |}.

(** [model.performance = performance; model.lastValidated = new Date()] *)
Definition revalidate (perf : ModelPerformance) (now : Date)
    (p : PredictiveModel) : PredictiveModel :=
  {| pm_id := pm_id p;
     pm_name := pm_name p;
     pm_type := pm_type p;
     pm_algorithm := pm_algorithm p;
     pm_features := pm_features p;
     pm_trainingData := pm_trainingData p;
     pm_performance := perf;
     pm_model := pm_model p;
     pm_version := pm_version p;
     pm_trainedAt := pm_trainedAt p;
     pm_lastValidated := now |}.

Section Manager.
Context (E : QueryEngine).

(** *** Viewpoint expertise *)

(** [generateId] (utils/helpers.js) is not part of the sources: the id
    it returns is the argument [id] of each [store...] method. *)
Definition storeViewpointExpertise (id : string) (now : Date)
    (expertise : ExpertiseInput) (m : DistributedMemorySystem)
  : string * DistributedMemorySystem :=
  let expertiseRecord :=
    {| ve_id := id;
       ve_type := ei_type expertise;
       ve_domain := ei_domain expertise;
       ve_content := ei_content expertise;
       ve_confidence := ei_confidence expertise;
       ve_lastUpdated := now;
       ve_source := ei_source expertise;
       ve_validated := ei_validated expertise;
       ve_usageCount := 0 |} in
  (id, with_expertise
         (memory.store (VIEWPOINT_EXPERTISE_NS m) id expertiseRecord) m).

(** [{ domain, ...(type && { type }) }] *)
Definition expertise_criteria (domain : ExpertiseDomain)
    (type : option ExpertiseType) (e : ViewpointExpertise) : bool :=
  bool_decide (ve_domain e = domain)
  && match type with
     | Some ty => bool_decide (ve_type e = ty)
     | None => true
     end.

(** [for (const x of xs) { <update x>; await memory.store(ns, x.id, x) }]:
    the elements of the array are updated in place and each one is
    written back under its own id; [i] counts the iterations. *)
Fixpoint update_each {A : Type} (id_of : A -> string)
    (update : nat -> A -> A) (i : nat) (xs : list A)
    (t : gmap string A) : list A * gmap string A :=
  match xs with
  | [] => ([], t)
  | x :: rest =>
      let x' := update i x in
      let t' := memory.store t (id_of x') x' in
      let '(rest', t'') := update_each id_of update (S i) rest t' in
      (x' :: rest', t'')
  end.

Definition getViewpointExpertise (domain : ExpertiseDomain)
    (type : option ExpertiseType) (m : DistributedMemorySystem)
  : list ViewpointExpertise * DistributedMemorySystem :=
  let allExpertise :=
    memory.query E (VIEWPOINT_EXPERTISE_NS m)
      (expertise_criteria domain type) in
  let '(allExpertise', t) :=
    update_each ve_id (fun _ => increment_usage) 0%nat allExpertise
      (VIEWPOINT_EXPERTISE_NS m) in
  (allExpertise', with_expertise t m).

Definition searchViewpointExpertise (query : string)
    (domain : option ExpertiseDomain) (m : DistributedMemorySystem)
  : list ViewpointExpertise :=
  memory.query E (VIEWPOINT_EXPERTISE_NS m)
    (fun e =>
       text_search E query e
       && match domain with
          | Some d => bool_decide (ve_domain e = d)
          | None => true
          end).

(** *** AR Wizard knowledge *)

(** [createdAt] and [lastUsed] come from two readings of the clock. *)
Definition storeARWizardKnowledge (id : string) (now now' : Date)
    (knowledge : KnowledgeInput) (m : DistributedMemorySystem)
  : string * DistributedMemorySystem :=
  let knowledgeRecord :=
    {| ak_id := id;
       ak_category := ki_category knowledge;
       ak_description := ki_description knowledge;
       ak_implementation := ki_implementation knowledge;
       ak_accuracy := ki_accuracy knowledge;
       ak_performance := ki_performance knowledge;
       ak_dependencies := ki_dependencies knowledge;
       ak_createdAt := now;
       ak_lastUsed := now' |} in
  (id, with_knowledge
         (memory.store (AR_WIZARD_KNOWLEDGE_NS m) id knowledgeRecord) m).

(** The clock is read once per item: [clock i] is the reading of
    iteration [i]. *)
Definition getARWizardKnowledge (category : KnowledgeCategory)
    (clock : nat -> Date) (m : DistributedMemorySystem)
  : list ARWizardKnowledge * DistributedMemorySystem :=
  let knowledge :=
    memory.query E (AR_WIZARD_KNOWLEDGE_NS m)
      (fun k => bool_decide (ak_category k = category)) in
  let '(knowledge', t) :=
    update_each ak_id (fun i => touch (clock i)) 0%nat knowledge
      (AR_WIZARD_KNOWLEDGE_NS m) in
  (knowledge', with_knowledge t m).

(** *** Database analyses *)

Definition storeDatabaseAnalysis (id : string) (now : Date)
    (analysis : AnalysisInput) (m : DistributedMemorySystem)
  : string * DistributedMemorySystem :=
  let analysisRecord :=
    {| da_id := id;
       da_database := ai_database analysis;
       da_analysisType := ai_analysisType analysis;
       da_results := ai_results analysis;
       da_metrics := ai_metrics analysis;
       da_recommendations := ai_recommendations analysis;
       da_analyzedAt := now;
       da_validUntil := ai_validUntil analysis |} in
  (id, with_analyses
         (memory.store (DATABASE_ANALYSIS_NS m) id analysisRecord) m).

(** [{ database }], plus [analysisType] when it is given *)
Definition analysis_criteria (database : Database)
    (analysisType : option AnalysisType) (a : DatabaseAnalysis) : bool :=
  bool_decide (da_database a = database)
  && match analysisType with
     | Some ty => bool_decide (da_analysisType a = ty)
     | None => true
     end.

Definition getDatabaseAnalysis (database : Database)
    (analysisType : option AnalysisType) (now : Date)
    (m : DistributedMemorySystem) : list DatabaseAnalysis :=
  let analyses :=
    memory.query E (DATABASE_ANALYSIS_NS m)
      (analysis_criteria database analysisType) in
  List.filter (fun analysis => now <? da_validUntil analysis) analyses.

Definition getLatestDatabaseAnalysis (database : Database)
    (analysisType : AnalysisType) (now : Date)
    (m : DistributedMemorySystem) : option DatabaseAnalysis :=
  let analyses := getDatabaseAnalysis database (Some analysisType) now m in
  if (length analyses =? 0)%nat then None
  else
    head (sort
            (fun a b => inject_Z (da_analyzedAt b - da_analyzedAt a))
            analyses).

(** *** Predictive models *)

Definition storePredictiveModel (id : string) (now now' : Date)
    (model : ModelInput) (m : DistributedMemorySystem)
  : string * DistributedMemorySystem :=
  let modelRecord :=
    {| pm_id := id;
       pm_name := mi_name model;
       pm_type := mi_type model;
       pm_algorithm := mi_algorithm model;
       pm_features := mi_features model;
       pm_trainingData := mi_trainingData model;
       pm_performance := mi_performance model;
       pm_model := mi_model model;
       pm_version := mi_version model;
       pm_trainedAt := now;
       pm_lastValidated := now' |} in
  (id, with_models
         (memory.store (PREDICTIVE_MODELS_NS m) id modelRecord) m).

(** [if (name)]: an empty name is falsy and adds no criterion. *)
Definition model_criteria (type : ModelType) (name : option string)
    (p : PredictiveModel) : bool :=
  bool_decide (pm_type p = type)
  && match name with
     | Some n =>
         if bool_decide (n = EmptyString) then true
         else bool_decide (pm_name p = n)
     | None => true
     end.

Definition getPredictiveModel (type : ModelType) (name : option string)
    (m : DistributedMemorySystem) : list PredictiveModel :=
  memory.query E (PREDICTIVE_MODELS_NS m) (model_criteria type name).

Definition getBestPredictiveModel (type : ModelType)
    (m : DistributedMemorySystem) : option PredictiveModel :=
  let models := getPredictiveModel type None m in
  if (length models =? 0)%nat then None
  else
    head (sort
            (fun a b =>
               accuracy (pm_performance b) - accuracy (pm_performance a))%Q
            models).

Definition updateModelPerformance (modelId : string)
    (perf : ModelPerformance) (now : Date)
    (m : DistributedMemorySystem) : DistributedMemorySystem :=
  match memory.get (PREDICTIVE_MODELS_NS m) modelId with
  | Some model =>
      with_models
        (memory.store (PREDICTIVE_MODELS_NS m) modelId
           (revalidate perf now model)) m
  | None => m
  end.

(** *** Shared context *)

(** [ttl || 3600000]: the default replaces every falsy [ttl], that is
    an omitted one and also [0]. *)
Definition ttl_or_default (ttl : option Z) : Z :=
  match ttl with
  | Some t => if t =? 0 then 3600000 else t
  | None => 3600000
  end.

Definition storeSharedContext (key : string) (context : JsAny)
    (ttl : option Z) (now : Date) (m : DistributedMemorySystem)
  : DistributedMemorySystem :=
  with_context
    (memory.store (SHARED_CONTEXT_NS m) key
       {| data := context; timestamp := now;
          ttl := ttl_or_default ttl |}) m.

Definition getSharedContext (key : string) (now : Date)
    (m : DistributedMemorySystem)
  : option JsAny * DistributedMemorySystem :=
  match memory.get (SHARED_CONTEXT_NS m) key with
  | None => (None, m)
  | Some contextRecord =>
      let recordTime := timestamp contextRecord in
      if ttl contextRecord <? now - recordTime then
        (None,
         with_context (memory.delete (SHARED_CONTEXT_NS m) key) m)
      else (Some (data contextRecord), m)
  end.

(** *** Knowledge integration, export and import *)

Definition integrateExistingExpertSystems (m : DistributedMemorySystem)
  : DistributedMemorySystem := m.

Definition exportKnowledgeBase (now : Date) (m : DistributedMemorySystem)
  : KnowledgeBaseExport :=
  {| export_data :=
       {| viewpointExpertise :=
            js_array (memory.query E (VIEWPOINT_EXPERTISE_NS m)
                        (fun _ => true));
          arWizardKnowledge :=
            js_array (memory.query E (AR_WIZARD_KNOWLEDGE_NS m)
                        (fun _ => true));
          databaseAnalyses :=
            js_array (memory.query E (DATABASE_ANALYSIS_NS m)
                        (fun _ => true));
          predictiveModels :=
            js_array (memory.query E (PREDICTIVE_MODELS_NS m)
                        (fun _ => true)) |};
     exportedAt := now |}.

(** [for (const x of xs) { await memory.store(ns, x.id, x) }] *)
Definition store_each {A : Type} (id_of : A -> string) (xs : list A)
    (t : gmap string A) : gmap string A :=
  foldl (fun t x => memory.store t (id_of x) x) t xs.

Definition importKnowledgeBase (snapshot : KnowledgeBase)
    (m : DistributedMemorySystem) : DistributedMemorySystem :=
  let m1 :=
    with_expertise
      (store_each ve_id (or_empty (viewpointExpertise snapshot))
         (VIEWPOINT_EXPERTISE_NS m)) m in
  let m2 :=
    with_knowledge
      (store_each ak_id (or_empty (arWizardKnowledge snapshot))
         (AR_WIZARD_KNOWLEDGE_NS m1)) m1 in
  let m3 :=
    with_analyses
      (store_each da_id (or_empty (databaseAnalyses snapshot))
         (DATABASE_ANALYSIS_NS m2)) m2 in
  with_models
    (store_each pm_id (or_empty (predictiveModels snapshot))
       (PREDICTIVE_MODELS_NS m3)) m3.

(** *** Cleanup and maintenance *)

(** The body of the loop of [cleanupExpiredAnalyses]. *)
Definition delete_if_expired (now : Date)
    (t : gmap string DatabaseAnalysis) (analysis : DatabaseAnalysis)
  : gmap string DatabaseAnalysis :=
  if da_validUntil analysis <=? now
  then memory.delete t (da_id analysis)
  else t.

Definition cleanupExpiredAnalyses (now : Date)
    (m : DistributedMemorySystem) : DistributedMemorySystem :=
  let allAnalyses :=
    memory.query E (DATABASE_ANALYSIS_NS m) (fun _ => true) in
  with_analyses
    (foldl (delete_if_expired now) (DATABASE_ANALYSIS_NS m) allAnalyses)
    m.

(** Only counts the candidates (the count is logged); nothing is moved. *)
Definition archiveOldKnowledge (now : Date) (m : DistributedMemorySystem)
  : nat :=
  let thirtyDaysAgo := now - 30 * 24 * 60 * 60 * 1000 in
  let oldKnowledge :=
    memory.query E (AR_WIZARD_KNOWLEDGE_NS m)
      (fun k => ak_lastUsed k <? thirtyDaysAgo) in
  length oldKnowledge.

Definition optimizeMemoryUsage (m : DistributedMemorySystem)
  : DistributedMemorySystem := m.

Definition performMaintenance (now now' : Date)
    (m : DistributedMemorySystem) : DistributedMemorySystem :=
  let m1 := cleanupExpiredAnalyses now m in
  let _ := archiveOldKnowledge now' m1 in
  optimizeMemoryUsage m1.

(** *** The public interface as a whole *)

Inductive Call : Type :=
  | call_storeViewpointExpertise (id : string) (now : Date)
      (expertise : ExpertiseInput)
  | call_getViewpointExpertise (domain : ExpertiseDomain)
      (type : option ExpertiseType)
  | call_searchViewpointExpertise (query : string)
      (domain : option ExpertiseDomain)
  | call_storeARWizardKnowledge (id : string) (now now' : Date)
      (knowledge : KnowledgeInput)
  | call_getARWizardKnowledge (category : KnowledgeCategory)
      (clock : nat -> Date)
  | call_storeDatabaseAnalysis (id : string) (now : Date)
      (analysis : AnalysisInput)
  | call_getDatabaseAnalysis (database : Database)
      (analysisType : option AnalysisType) (now : Date)
  | call_getLatestDatabaseAnalysis (database : Database)
      (analysisType : AnalysisType) (now : Date)
  | call_storePredictiveModel (id : string) (now now' : Date)
      (model : ModelInput)
  | call_getPredictiveModel (type : ModelType) (name : option string)
  | call_getBestPredictiveModel (type : ModelType)
  | call_updateModelPerformance (modelId : string)
      (perf : ModelPerformance) (now : Date)
  | call_storeSharedContext (key : string) (context : JsAny)
      (ttl : option Z) (now : Date)
  | call_getSharedContext (key : string) (now : Date)
  | call_integrateExistingExpertSystems
  | call_exportKnowledgeBase (now : Date)
  | call_importKnowledgeBase (snapshot : KnowledgeBase)
  | call_performMaintenance (now now' : Date).

(** The store a call leaves behind. *)
Definition run (c : Call) (m : DistributedMemorySystem)
  : DistributedMemorySystem :=
  match c with
  | call_storeViewpointExpertise id now expertise =>
      snd (storeViewpointExpertise id now expertise m)
  | call_getViewpointExpertise domain type =>
      snd (getViewpointExpertise domain type m)
  | call_searchViewpointExpertise _ _ => m
  | call_storeARWizardKnowledge id now now' knowledge =>
      snd (storeARWizardKnowledge id now now' knowledge m)
  | call_getARWizardKnowledge category clock =>
      snd (getARWizardKnowledge category clock m)
  | call_storeDatabaseAnalysis id now analysis =>
      snd (storeDatabaseAnalysis id now analysis m)
  | call_getDatabaseAnalysis _ _ _ => m
  | call_getLatestDatabaseAnalysis _ _ _ => m
  | call_storePredictiveModel id now now' model =>
      snd (storePredictiveModel id now now' model m)
  | call_getPredictiveModel _ _ => m
  | call_getBestPredictiveModel _ => m
  | call_updateModelPerformance modelId perf now =>
      updateModelPerformance modelId perf now m
  | call_storeSharedContext key context ttl now =>
      storeSharedContext key context ttl now m
  | call_getSharedContext key now => snd (getSharedContext key now m)
  | call_integrateExistingExpertSystems =>
      integrateExistingExpertSystems m
  | call_exportKnowledgeBase _ => m
  | call_importKnowledgeBase snapshot => importKnowledgeBase snapshot m
  | call_performMaintenance now now' => performMaintenance now now' m
  end.

End Manager.

(** ** Calls in progress

    Every method of the manager is an [async] function: it runs alone up
    to an [await] and, while it waits for the store, other calls can run.
    A call in progress is what is left of it: the store operation it
    awaits, and the rest of the call, which can depend on what the
    operation returns, a function of the store the operation finds.  An
    operation of the store happens at once. *)
Inductive Thread : Type :=
  | finished
  | await (operation : DistributedMemorySystem -> DistributedMemorySystem)
      (rest : DistributedMemorySystem -> Thread).

(** [await memory.query(...)], [await memory.get(...)]: the store stays as
    it is and the call goes on with what it has read. *)
Definition await_read (rest : DistributedMemorySystem -> Thread) : Thread :=
  await (fun m => m) rest.

(** [await memory.store(...)], [await memory.delete(...)] *)
Definition await_write
    (operation : DistributedMemorySystem -> DistributedMemorySystem)
    (rest : Thread) : Thread :=
  await operation (fun _ => rest).

(** [for (const x of xs) { await <operation on x> }], then the rest of
    the call; [i] counts the iterations. *)
Fixpoint await_each {A : Type}
    (operation : nat -> A -> DistributedMemorySystem
                 -> DistributedMemorySystem)
    (i : nat) (xs : list A) (rest : Thread) : Thread :=
  match xs with
  | [] => rest
  | x :: xs' =>
      await_write (operation i x) (await_each operation (S i) xs' rest)
  end.

(** [memory.store(NS, x.id, x)] on each primary namespace. *)
Definition store_expertise (x : ViewpointExpertise)
    (m : DistributedMemorySystem) : DistributedMemorySystem :=
  with_expertise (memory.store (VIEWPOINT_EXPERTISE_NS m) (ve_id x) x) m.

Definition store_knowledge (x : ARWizardKnowledge)
    (m : DistributedMemorySystem) : DistributedMemorySystem :=
  with_knowledge (memory.store (AR_WIZARD_KNOWLEDGE_NS m) (ak_id x) x) m.

Definition store_analysis (x : DatabaseAnalysis)
    (m : DistributedMemorySystem) : DistributedMemorySystem :=
  with_analyses (memory.store (DATABASE_ANALYSIS_NS m) (da_id x) x) m.

Definition store_model (x : PredictiveModel)
    (m : DistributedMemorySystem) : DistributedMemorySystem :=
  with_models (memory.store (PREDICTIVE_MODELS_NS m) (pm_id x) x) m.

(** The loop of [cleanupExpiredAnalyses]: an analysis that is still valid
    costs no [await]. *)
Fixpoint delete_expired (now : Date) (allAnalyses : list DatabaseAnalysis)
    (rest : Thread) : Thread :=
  match allAnalyses with
  | [] => rest
  | analysis :: others =>
      if da_validUntil analysis <=? now then
        await_write
          (fun m =>
             with_analyses
               (memory.delete (DATABASE_ANALYSIS_NS m) (da_id analysis)) m)
          (delete_expired now others rest)
      else delete_expired now others rest
  end.

Section Threads.
Context (E : QueryEngine).

(** The copies [getViewpointExpertise] got from its query, still to be
    incremented and written back. *)
Definition write_back_usage (i : nat)
    (allExpertise : list ViewpointExpertise) : Thread :=
  await_each (fun _ expertise => store_expertise (increment_usage expertise))
    i allExpertise finished.

Definition getViewpointExpertise_thread (domain : ExpertiseDomain)
    (type : option ExpertiseType) : Thread :=
  await_read
    (fun m =>
       write_back_usage 0%nat
         (memory.query E (VIEWPOINT_EXPERTISE_NS m)
            (expertise_criteria domain type))).

Definition getARWizardKnowledge_thread (category : KnowledgeCategory)
    (clock : nat -> Date) : Thread :=
  await_read
    (fun m =>
       await_each (fun i item => store_knowledge (touch (clock i) item))
         0%nat
         (memory.query E (AR_WIZARD_KNOWLEDGE_NS m)
            (fun k => bool_decide (ak_category k = category)))
         finished).

Definition updateModelPerformance_thread (modelId : string)
    (perf : ModelPerformance) (now : Date) : Thread :=
  await_read
    (fun m =>
       match memory.get (PREDICTIVE_MODELS_NS m) modelId with
       | Some model =>
           await_write
             (fun m' =>
                with_models
                  (memory.store (PREDICTIVE_MODELS_NS m') modelId
                     (revalidate perf now model)) m')
             finished
       | None => finished
       end).

Definition getSharedContext_thread (key : string) (now : Date) : Thread :=
  await_read
    (fun m =>
       match memory.get (SHARED_CONTEXT_NS m) key with
       | None => finished
       | Some contextRecord =>
           if ttl contextRecord <? now - timestamp contextRecord then
             await_write
               (fun m' =>
                  with_context (memory.delete (SHARED_CONTEXT_NS m') key) m')
               finished
           else finished
       end).

Definition importKnowledgeBase_thread (snapshot : KnowledgeBase) : Thread :=
  await_each (fun _ => store_expertise) 0%nat
    (or_empty (viewpointExpertise snapshot))
    (await_each (fun _ => store_knowledge) 0%nat
       (or_empty (arWizardKnowledge snapshot))
       (await_each (fun _ => store_analysis) 0%nat
          (or_empty (databaseAnalyses snapshot))
          (await_each (fun _ => store_model) 0%nat
             (or_empty (predictiveModels snapshot)) finished))).

Definition cleanupExpiredAnalyses_thread (now : Date) (rest : Thread)
  : Thread :=
  await_read
    (fun m =>
       delete_expired now
         (memory.query E (DATABASE_ANALYSIS_NS m) (fun _ => true)) rest).

(** The sweep, then the query of [archiveOldKnowledge]. *)
Definition performMaintenance_thread (now now' : Date) : Thread :=
  cleanupExpiredAnalyses_thread now (await_read (fun _ => finished)).

(** A call that has just been made.  A method with a single store
    operation awaits that operation; a method that only queries awaits
    its query (four of them for [exportKnowledgeBase]). *)
Definition thread_of (c : Call) : Thread :=
  match c with
  | call_storeViewpointExpertise _ _ _
  | call_storeARWizardKnowledge _ _ _ _
  | call_storeDatabaseAnalysis _ _ _
  | call_storePredictiveModel _ _ _ _
  | call_storeSharedContext _ _ _ _ => await_write (run E c) finished
  | call_getViewpointExpertise domain type =>
      getViewpointExpertise_thread domain type
  | call_getARWizardKnowledge category clock =>
      getARWizardKnowledge_thread category clock
  | call_searchViewpointExpertise _ _
  | call_getDatabaseAnalysis _ _ _
  | call_getLatestDatabaseAnalysis _ _ _
  | call_getPredictiveModel _ _
  | call_getBestPredictiveModel _ => await_read (fun _ => finished)
  | call_updateModelPerformance modelId perf now =>
      updateModelPerformance_thread modelId perf now
  | call_getSharedContext key now => getSharedContext_thread key now
  | call_integrateExistingExpertSystems => finished
  | call_exportKnowledgeBase _ =>
      await_read
        (fun _ =>
           await_read
             (fun _ => await_read (fun _ => await_read (fun _ => finished))))
  | call_importKnowledgeBase snapshot => importKnowledgeBase_thread snapshot
  | call_performMaintenance now now' => performMaintenance_thread now now'
  end.

(** A call that runs to its end with no other call in between. *)
Fixpoint complete (t : Thread) (m : DistributedMemorySystem)
  : DistributedMemorySystem :=
  match t with
  | finished => m
  | await operation rest => complete (rest m) (operation m)
  end.

(** Calls that overlap: [start c] makes call [c], [resume i] lets the
    [i]-th call made perform the operation it awaits and run up to its
    next [await].  Resuming a call that has finished, or one that was
    never made, does nothing. *)
Inductive Event : Type :=
  | start (c : Call)
  | resume (i : nat).

Record Execution : Type := {
  stored : DistributedMemorySystem;
  calls : list (Call * Thread)
}.

Definition step (s : Execution) (ev : Event) : Execution :=
  match ev with
  | start c =>
      {| stored := stored s; calls := calls s ++ [(c, thread_of c)] |}
  | resume i =>
      match calls s !! i with
      | Some (c, await operation rest) =>
          {| stored := operation (stored s);
             calls := <[i := (c, rest (stored s))]> (calls s) |}
      | _ => s
      end
  end.

Definition execute (events : list Event) (s : Execution) : Execution :=
  foldl step s events.

(** A [getViewpointExpertise] that has been made and has not finished. *)
Definition reading (task : Call * Thread) : bool :=
  match task with
  | (call_getViewpointExpertise _ _, await _ _) => true
  | _ => false
  end.

(** No [getViewpointExpertise] is made while another one is under way. *)
Fixpoint reads_apart (events : list Event) (s : Execution) : bool :=
  match events with
  | [] => true
  | ev :: events' =>
      match ev with
      | start (call_getViewpointExpertise _ _) =>
          forallb (fun task => negb (reading task)) (calls s)
      | _ => true
      end
      && reads_apart events' (step s ev)
  end.

End Threads.

(** The calls made in the course of an execution. *)
Definition started (events : list Event) : list Call :=
  omap (fun ev => match ev with start c => Some c | resume _ => None end)
    events.

(** ** Reference definitions used to state the properties *)

(** The default the specification words give: [ttl], or [3600000] when it
    is omitted ([ttl ?? 3600000]). *)
Definition spec_ttl (ttl : option Z) : Z :=
  match ttl with
  | Some t => t
  | None => 3600000
  end.

(** A table is keyed by id when every record sits under its own id.  The
    manager only ever writes a record of the four primary namespaces under
    that record's [id], so every store it builds is well keyed. *)
Definition keyed_by_id {A : Type} (id_of : A -> string)
    (t : gmap string A) : Prop :=
  map_Forall (fun k r => id_of r = k) t.

Definition well_keyed (m : DistributedMemorySystem) : Prop :=
  keyed_by_id ve_id (VIEWPOINT_EXPERTISE_NS m)
  /\ keyed_by_id ak_id (AR_WIZARD_KNOWLEDGE_NS m)
  /\ keyed_by_id da_id (DATABASE_ANALYSIS_NS m)
  /\ keyed_by_id pm_id (PREDICTIVE_MODELS_NS m).

(** An integer a JavaScript number holds exactly. *)
Definition js_exact (z : Z) : Prop := js_round z = z.

(** [n] increments in a row starting from count [c] are all exact: the
    counts stay within [-2^53 .. 2^53]. *)
Definition increments_exact (n : nat) (c : Z) : Prop :=
  - 2 ^ 53 <= c /\ c + Z.of_nat n <= 2 ^ 53.

(** Two expertise records that differ at most in their [usageCount]. *)
Definition same_but_usageCount (e e' : ViewpointExpertise) : Prop :=
  ve_id e' = ve_id e
  /\ ve_type e' = ve_type e
  /\ ve_domain e' = ve_domain e
  /\ ve_content e' = ve_content e
  /\ ve_confidence e' = ve_confidence e
  /\ ve_lastUpdated e' = ve_lastUpdated e
  /\ ve_source e' = ve_source e
  /\ ve_validated e' = ve_validated e.

(** Every usage count the store holds is a JavaScript number. *)
Definition usage_counts_exact (m : DistributedMemorySystem) : Prop :=
  map_Forall (fun _ e => js_exact (ve_usageCount e))
    (VIEWPOINT_EXPERTISE_NS m).

(** The usage counts a call brings in are JavaScript numbers. *)
Definition usage_counts_typed (c : Call) : Prop :=
  match c with
  | call_importKnowledgeBase snapshot =>
      Forall (fun e => js_exact (ve_usageCount e))
        (or_empty (viewpointExpertise snapshot))
  | _ => True
  end.

(** The sum of the usage counts persisted in the expertise namespace. *)
Definition total_usage (m : DistributedMemorySystem) : Z :=
  foldr Z.add 0
    (ve_usageCount ∘ snd <$> map_to_list (VIEWPOINT_EXPERTISE_NS m)).

(** What a call may overwrite in the expertise namespace: the id a
    [storeViewpointExpertise] was handed by [generateId], and the ids of
    the expertise records of an imported snapshot. *)
Definition overwrites_expertise (c : Call) (k : string) : Prop :=
  match c with
  | call_storeViewpointExpertise id _ _ => id = k
  | call_importKnowledgeBase snapshot =>
      k ∈ ve_id <$> or_empty (viewpointExpertise snapshot)
  | _ => False
  end.

(** A call in progress that keeps every record under its own id, on the
    well-keyed stores it finds. *)
Fixpoint keeps_well_keyed (t : Thread) : Prop :=
  match t with
  | finished => True
  | await operation rest =>
      (forall m, well_keyed m -> well_keyed (operation m))
      /\ forall m, well_keyed m -> keeps_well_keyed (rest m)
  end.

(** *** Overlapping calls and one expertise id

    What the proof that a usage count never goes down keeps track of. *)

(** The expertise namespace in good order: every record under its own
    id, every count a JavaScript number. *)
Definition expertise_in_order (m : DistributedMemorySystem) : Prop :=
  keyed_by_id ve_id (VIEWPOINT_EXPERTISE_NS m) /\ usage_counts_exact m.

(** A call in progress that will never write expertise id [k] and keeps
    the expertise namespace in good order, whatever store it finds. *)
Fixpoint leaves_alone (k : string) (t : Thread) : Prop :=
  match t with
  | finished => True
  | await operation rest =>
      (forall m,
         VIEWPOINT_EXPERTISE_NS (operation m) !! k
         = VIEWPOINT_EXPERTISE_NS m !! k
         /\ (expertise_in_order m -> expertise_in_order (operation m)))
      /\ forall m, leaves_alone k (rest m)
  end.

(** The copies a [getViewpointExpertise] still has to write back are up
    to date for id [k]: no two of them share an id, and a copy with id
    [k] is the record stored under [k]. *)
Definition up_to_date (k : string) (m : DistributedMemorySystem)
    (copies : list ViewpointExpertise) : Prop :=
  NoDup (ve_id <$> copies)
  /\ forall x, x ∈ copies -> ve_id x = k ->
               VIEWPOINT_EXPERTISE_NS m !! k = Some x.

(** A call in progress is in order for id [k]: a
    [getViewpointExpertise] has not made its query yet or holds copies
    that are up to date, and any other call leaves [k] alone. *)
Definition task_in_order (E : QueryEngine) (k : string)
    (m : DistributedMemorySystem) (task : Call * Thread) : Prop :=
  match task.1 with
  | call_getViewpointExpertise domain type =>
      task.2 = getViewpointExpertise_thread E domain type
      \/ exists i copies,
           task.2 = write_back_usage i copies /\ up_to_date k m copies
  | _ => leaves_alone k task.2
  end.

(** The state of an execution in which the count stored for [k] is at
    least [c0] and stays so. *)
Definition in_order_for (E : QueryEngine) (k : string) (c0 : Z)
    (s : Execution) : Prop :=
  expertise_in_order (stored s)
  /\ (exists e,
        VIEWPOINT_EXPERTISE_NS (stored s) !! k = Some e
        /\ c0 <= ve_usageCount e)
  /\ Forall (task_in_order E k (stored s)) (calls s)
  /\ forall i j ti tj,
       calls s !! i = Some ti -> calls s !! j = Some tj ->
       reading ti = true -> reading tj = true -> i = j.

(** The property "this call does not lower any persisted usage count". *)
Definition usage_preserved (E : QueryEngine) (c : Call)
    (m : DistributedMemorySystem) : Prop :=
  forall k e,
    VIEWPOINT_EXPERTISE_NS m !! k = Some e ->
    exists e',
      VIEWPOINT_EXPERTISE_NS (run E c m) !! k = Some e'
      /\ ve_usageCount e <= ve_usageCount e'.

(** An analysis is expired at [now] when [validUntil <= now]. *)
Definition expired (now : Date) (a : DatabaseAnalysis) : bool :=
  da_validUntil a <=? now.

(** A sequence of calls, one after the other. *)
Definition run_all (E : QueryEngine) (calls : list Call)
    (m : DistributedMemorySystem) : DistributedMemorySystem :=
  foldl (fun m c => run E c m) m calls.

(** The last element of a list that satisfies a test. *)
Definition find_last {A : Type} (p : A -> bool) (l : list A) : option A :=
  List.find p (rev l).

(** Table [t'] is table [t] merged with the records [xs]: a key that is
    the id of no record of [xs] holds what it held in [t]; a key that is
    the id of some record of [xs] holds a record of [xs] with that id (the
    last one, should several share the id). *)
Definition merge_of {A : Type} (id_of : A -> string) (xs : list A)
    (t t' : gmap string A) : Prop :=
  (forall k, k ∉ id_of <$> xs -> t' !! k = t !! k)
  /\ (forall k, k ∈ id_of <$> xs ->
        exists x,
          x ∈ xs /\ id_of x = k /\ t' !! k = Some x
          /\ find_last (fun y => bool_decide (id_of y = k)) xs = Some x)
  /\ (NoDup (id_of <$> xs) -> forall x, x ∈ xs -> t' !! id_of x = Some x).

(** A snapshot field that is missing or [null]. *)
Definition is_absent {A : Type} (f : JsArrayField A) : Prop :=
  f = js_undefined \/ f = js_null.

(** The snapshot with every missing or [null] array replaced by [[]]. *)
Definition with_empty_arrays (snapshot : KnowledgeBase) : KnowledgeBase :=
  {| viewpointExpertise := js_array (or_empty (viewpointExpertise snapshot));
     arWizardKnowledge := js_array (or_empty (arWizardKnowledge snapshot));
     databaseAnalyses := js_array (or_empty (databaseAnalyses snapshot));
     predictiveModels := js_array (or_empty (predictiveModels snapshot)) |}.


(** ** Sample records *)

Module Examples.
Definition expertise (id : string) (count : Z) : ViewpointExpertise :=
  {| ve_id := id;
     ve_type := sql_procedure;
     ve_domain := job_billing;
     ve_content := "select";
     ve_confidence := 9 # 10;
     ve_lastUpdated := 0;
     ve_source := "manual";
     ve_validated := true;
     ve_usageCount := count |}.

Definition analysis (id : string) (analyzedAt validUntil : Date)
  : DatabaseAnalysis :=
  {| da_id := id;
     da_database := kls;
     da_analysisType := data_quality;
     da_results := "results";
     da_metrics :=
       {| am_dataVolume := 1000; am_qualityScore := 1 # 2;
          am_performanceScore := 1 # 2; am_completenessScore := 1 # 2 |};
     da_recommendations := [];
     da_analyzedAt := analyzedAt;
     da_validUntil := validUntil |}.

Definition model (id : string) (acc : Q) : PredictiveModel :=
  {| pm_id := id;
     pm_name := "billing";
     pm_type := billing_prediction;
     pm_algorithm := "regression";
     pm_features := [];
     pm_trainingData :=
       {| td_source := "kls"; td_size := 100; td_start := 0;
          td_end := 10 |};
     pm_performance :=
       {| accuracy := acc; precision := acc; recall := acc;
          f1Score := acc |};
     pm_model := "weights";
     pm_version := "1";
     pm_trainedAt := 0;
     pm_lastValidated := 0 |}.

(** Two expertise records, used five and zero times. *)
Definition expertise_store : DistributedMemorySystem :=
  with_expertise
    (<["e1" := expertise "e1" 5]> (<["e2" := expertise "e2" 0]> ∅))
    empty_memory.

(** A snapshot that carries only a fresh copy of record [e1]. *)
Definition fresh_snapshot : KnowledgeBase :=
  {| viewpointExpertise := js_array [expertise "e1" 0];
     arWizardKnowledge := js_undefined;
     databaseAnalyses := js_null;
     predictiveModels := js_undefined |}.

(** That store with no call in progress. *)
Definition expertise_at_rest : Execution :=
  {| stored := expertise_store; calls := [] |}.

(** One expertise record whose count has reached [2^53]. *)
Definition saturated_store : DistributedMemorySystem :=
  with_expertise (<["e1" := expertise "e1" (2 ^ 53)]> ∅) empty_memory.

(** Reading the job-billing expertise of that store: what the call
    returns, and the store it leaves. *)
Definition saturated_read
  : list ViewpointExpertise * DistributedMemorySystem :=
  getViewpointExpertise canonical_engine job_billing None saturated_store.

(** A read of the job-billing expertise that overlaps with the import of
    [fresh_snapshot]: the read makes its query and writes one copy back,
    the import stores its record, the read writes its other copy back;
    then a maintenance run and a second read, one after the other. *)
Definition overlapping_import_before : list Event :=
  [start (call_getViewpointExpertise job_billing None);
   resume 0;
   start (call_importKnowledgeBase fresh_snapshot);
   resume 0;
   resume 1].

Definition overlapping_import_after : list Event :=
  [resume 0;
   start (call_performMaintenance 100 100);
   start (call_getViewpointExpertise job_billing (Some sql_procedure));
   resume 2;
   resume 3; resume 3; resume 3;
   resume 2; resume 2].

(** Three reads of the job-billing expertise: the first makes its query,
    the two others run to their end, and only then does the first write
    its copies back. *)
Definition overlapping_reads_before : list Event :=
  [start (call_getViewpointExpertise job_billing None);
   resume 0;
   start (call_getViewpointExpertise job_billing None);
   resume 1; resume 1; resume 1;
   start (call_getViewpointExpertise job_billing None);
   resume 2; resume 2; resume 2].

Definition overlapping_reads_after : list Event :=
  [resume 0; resume 0].

(** An analysis valid until 50 and one valid until 200. *)
Definition analysis_store : DistributedMemorySystem :=
  with_analyses
    (<["a1" := analysis "a1" 0 50]> (<["a2" := analysis "a2" 10 200]> ∅))
    empty_memory.

(** Models A (accuracy 0.80) and B (accuracy 0.92) of the same type. *)
Definition model_A : PredictiveModel := model "A" (80 # 100).
Definition model_B : PredictiveModel := model "B" (92 # 100).

Definition model_store : DistributedMemorySystem :=
  with_models (<["A" := model_A]> (<["B" := model_B]> ∅)) empty_memory.

(** The two expertise records and the two analyses together. *)
Definition mixed_store : DistributedMemorySystem :=
  with_expertise (VIEWPOINT_EXPERTISE_NS expertise_store) analysis_store.
End Examples.

(** ** Further reference definitions *)

(** Reading the same shared-context key at each instant of a list, one
    read after the other; the result is that of the last read. *)
Definition getSharedContext_each (key : string) (times : list Date)
    (m : DistributedMemorySystem)
  : option JsAny * DistributedMemorySystem :=
  foldl (fun acc now => getSharedContext key now acc.2) (None, m) times.

(** The three namespaces no method ever passes to [memory.delete]. *)
Definition holds_expertise (m : DistributedMemorySystem) (k : string)
  : Prop := is_Some (VIEWPOINT_EXPERTISE_NS m !! k).
Definition holds_knowledge (m : DistributedMemorySystem) (k : string)
  : Prop := is_Some (AR_WIZARD_KNOWLEDGE_NS m !! k).
Definition holds_model (m : DistributedMemorySystem) (k : string)
  : Prop := is_Some (PREDICTIVE_MODELS_NS m !! k).

(** The store with its shared-context namespace emptied. *)
Definition without_context (m : DistributedMemorySystem)
  : DistributedMemorySystem := with_context ∅ m.

(** The record [storeDatabaseAnalysis] builds from its argument. *)
Definition analysis_record (id : string) (now : Date)
    (analysis : AnalysisInput) : DatabaseAnalysis :=
  {| da_id := id;
     da_database := ai_database analysis;
     da_analysisType := ai_analysisType analysis;
     da_results := ai_results analysis;
     da_metrics := ai_metrics analysis;
     da_recommendations := ai_recommendations analysis;
     da_analyzedAt := now;
     da_validUntil := ai_validUntil analysis |}.

(** The record [storeViewpointExpertise] builds from its argument. *)
Definition expertise_record (id : string) (now : Date)
    (expertise : ExpertiseInput) : ViewpointExpertise :=
  {| ve_id := id;
     ve_type := ei_type expertise;
     ve_domain := ei_domain expertise;
     ve_content := ei_content expertise;
     ve_confidence := ei_confidence expertise;
     ve_lastUpdated := now;
     ve_source := ei_source expertise;
     ve_validated := ei_validated expertise;
     ve_usageCount := 0 |}.

(** Two knowledge records that differ at most in their [lastUsed]. *)
Definition same_but_lastUsed (r r' : ARWizardKnowledge) : Prop :=
  ak_id r' = ak_id r
  /\ ak_category r' = ak_category r
  /\ ak_description r' = ak_description r
  /\ ak_implementation r' = ak_implementation r
  /\ ak_accuracy r' = ak_accuracy r
  /\ ak_performance r' = ak_performance r
  /\ ak_dependencies r' = ak_dependencies r
  /\ ak_createdAt r' = ak_createdAt r.

Module Samples.
Definition knowledge (id : string) (category : KnowledgeCategory)
    (lastUsed : Date) : ARWizardKnowledge :=
  {| ak_id := id;
     ak_category := category;
     ak_description := "note";
     ak_implementation := "code";
     ak_accuracy := None;
     ak_performance := None;
     ak_dependencies := [];
     ak_createdAt := 0;
     ak_lastUsed := lastUsed |}.

(** A test case and a billing rule, both last used at time 0. *)
Definition knowledge_store : DistributedMemorySystem :=
  with_knowledge
    (<["k1" := knowledge "k1" cat_test_case 0]>
       (<["k2" := knowledge "k2" cat_billing_rule 0]> ∅))
    empty_memory.

Definition analysis_input (validUntil : Date) : AnalysisInput :=
  {| ai_database := gbi;
     ai_analysisType := schema_analysis;
     ai_results := "tables";
     ai_metrics :=
       {| am_dataVolume := 0; am_qualityScore := 9 # 10;
          am_performanceScore := 8 # 10; am_completenessScore := 95 # 100 |};
     ai_recommendations := [];
     ai_validUntil := validUntil |}.

Definition expertise_input : ExpertiseInput :=
  {| ei_type := billing_pattern;
     ei_domain := wip_analysis;
     ei_content := "pattern";
     ei_confidence := 7 # 10;
     ei_source := "import";
     ei_validated := false |}.

Definition better_performance : ModelPerformance :=
  {| accuracy := 97 # 100; precision := 9 # 10; recall := 9 # 10;
     f1Score := 9 # 10 |}.
End Samples.

(** * The integration framework
      ([ARWizardIntegrationFramework], integration/ar-wizard-integration.ts) *)

(** ** A JavaScript [Map] with string keys

    A [Map] remembers the order in which keys were first set:
    [set] on a key that is present replaces the value where it stands,
    [set] on a new key appends the entry. *)
Module JsMap.
Section JsMap.
Context {V : Type}.

Fixpoint set (k : string) (v : V) (entries : list (string * V))
  : list (string * V) :=
  match entries with
  | [] => [(k, v)]
  | (k', v') :: rest =>
      if String.eqb k' k then (k, v) :: rest
      else (k', v') :: set k v rest
  end.

Fixpoint get (k : string) (entries : list (string * V)) : option V :=
  match entries with
  | [] => None
  | (k', v') :: rest => if String.eqb k' k then Some v' else get k rest
  end.

Definition clear (entries : list (string * V)) : list (string * V) := [].
End JsMap.
End JsMap.

Module Integration.

Inductive Permission : Type := perm_read | perm_write | perm_execute.

Record ViewpointDatabaseConfig : Type := {
  vdc_name : string;
  vdc_connectionString : string;
  vdc_type : Database;
  vdc_permissions : list Permission;
  vdc_timeout : Z;
  vdc_poolSize : Z
}.

Record ExpertSystemConfig : Type := {
  esc_name : string;
  esc_endpoint : string;
  esc_apiKey : string;
  esc_capabilities : list string;
  esc_timeout : Z;
  esc_retryAttempts : Z
}.

(** The connection and client objects the framework keeps. *)
Record DatabaseConnection : Type := {
  dc_name : string;
  dc_type : Database;
  dc_connectionString : string;
  dc_connected : bool;
  dc_connectedAt : Date
}.

Record ExpertSystemClient : Type := {
  ec_name : string;
  ec_endpoint : string;
  ec_capabilities : list string;
  ec_connected : bool;
  ec_connectedAt : Date
}.

(** The two private maps of the framework; the memory manager it also
    holds is the store threaded through the calls that use it. *)
Record Framework : Type := {
  databaseConnections : list (string * DatabaseConnection);
  expertSystemClients : list (string * ExpertSystemClient)
}.

Definition new_framework : Framework :=
  {| databaseConnections := []; expertSystemClients := [] |}.

Record PredictedBill : Type := {
  pb_jobId : string;
  pb_contractId : string;
  pb_billingPeriod : Date;
  pb_lineItems : list JsAny;
  pb_totalAmount : Q;
  pb_confidence : Q;
  pb_generatedAt : Date
}.

(** The payloads the methods put in [IntegrationResult.data]. *)
Inductive IntegrationData : Type :=
  | query_result (rows : list JsAny) (rowCount : Z) (fields : list JsAny)
  | schema_description
      (tables views procedures functions relationships indexes : list JsAny)
  | expert_answer (answer : string) (confidence : Q) (sources : list JsAny)
      (reasoning : string)
  | bill_prediction (bill : PredictedBill).

Record IntegrationResult : Type := {
  success : bool;
  result_data : option IntegrationData;
  error : option string;
  executionTime : Z;
  source : string
}.

(** A call that either returns or throws [new Error(message)]. *)
Inductive Outcome (A : Type) : Type :=
  | returned (value : A)
  | thrown (message : string).
Arguments returned {A} value.
Arguments thrown {A} message.

(** A [Date] argument can be an invalid date; the dates the code makes
    with [new Date()] never are. *)
Inductive DateArgument : Type :=
  | valid_date (time : Date)
  | invalid_date.

Definition connectToViewpointDatabase (config : ViewpointDatabaseConfig)
    (now : Date) (fw : Framework) : Framework :=
  let connection :=
    {| dc_name := vdc_name config;
       dc_type := vdc_type config;
       dc_connectionString := vdc_connectionString config;
       dc_connected := true;
       dc_connectedAt := now |} in
  {| databaseConnections :=
       JsMap.set (vdc_name config) connection (databaseConnections fw);
     expertSystemClients := expertSystemClients fw |}.

(** [startTime] and [endTime] are the two readings of [Date.now()]. *)
Definition executeViewpointQuery (database query : string)
    (startTime endTime : Date) (fw : Framework) : IntegrationResult :=
  match JsMap.get database (databaseConnections fw) with
  | None =>
      {| success := false;
         result_data := None;
         error := Some ("Database connection not found: " ++ database)%string;
         executionTime := endTime - startTime;
         source := database |}
  | Some connection =>
      {| success := true;
         result_data := Some (query_result [] 0 []);
         error := None;
         executionTime := endTime - startTime;
         source := database |}
  end.




Definition connectToExpertSystem (config : ExpertSystemConfig) (now : Date)
    (fw : Framework) : Framework :=
  let client :=
    {| ec_name := esc_name config;
       ec_endpoint := esc_endpoint config;
       ec_capabilities := esc_capabilities config;
       ec_connected := true;
       ec_connectedAt := now |} in
  {| databaseConnections := databaseConnections fw;
     expertSystemClients :=
       JsMap.set (esc_name config) client (expertSystemClients fw) |}.

Definition queryExpertSystem (systemName query : string)
    (startTime endTime : Date) (fw : Framework) : IntegrationResult :=
  match JsMap.get systemName (expertSystemClients fw) with
  | None =>
      {| success := false;
         result_data := None;
         error := Some ("Expert system not connected: " ++ systemName)%string;
         executionTime := endTime - startTime;
         source := systemName |}
  | Some client =>
      {| success := true;
         result_data :=
           Some (expert_answer "Expert system response placeholder"
                   (9 # 10) [] "Placeholder reasoning");
         error := None;
         executionTime := endTime - startTime;
         source := systemName |}
  end.

Definition getExpertSystemCapabilities (systemName : string)
    (fw : Framework) : Outcome (list string) :=
  match JsMap.get systemName (expertSystemClients fw) with
  | None => thrown ("Expert system not connected: " ++ systemName)%string
  | Some client => returned (ec_capabilities client)
  end.

Section PredictiveBill.
(** [Date.prototype.toISOString] on a valid date, and the message of the
    [RangeError] it throws on an invalid one, are left to the runtime. *)
Context (toISOString : Date -> string) (invalid_time_message : string).
Context (E : QueryEngine).

(** [predictiveModel?.performance.accuracy || 0.85] *)
Definition confidence_of (predictiveModel : option PredictiveModel) : Q :=
  match predictiveModel with
  | Some model =>
      if Qeq_bool (accuracy (pm_performance model)) 0 then 85 # 100
      else accuracy (pm_performance model)
  | None => 85 # 100
  end.

(** [clock i] is the [i]-th reading of the clock during the call. *)
Definition generatePredictiveBill (jobId contractId : string)
    (billingPeriod : DateArgument) (clock : nat -> Date)
    (fw : Framework) (m : DistributedMemorySystem) : IntegrationResult :=
  let startTime := clock 0%nat in
  let historicalData :=
    executeViewpointQuery "kls"
      ("SELECT * FROM JBIN WHERE Job = '" ++ jobId
       ++ "' AND Contract = '" ++ contractId ++ "'")%string
      (clock 1%nat) (clock 2%nat) fw in
  match billingPeriod with
  | invalid_date =>
      {| success := false;
         result_data := None;
         error := Some invalid_time_message;
         executionTime := clock 3%nat - startTime;
         source := "ar-wizard-predictive-engine" |}
  | valid_date period =>
      let costData :=
        executeViewpointQuery "kls"
          ("SELECT * FROM JCCD WHERE Job = '" ++ jobId
           ++ "' AND Mth <= '" ++ toISOString period ++ "'")%string
          (clock 3%nat) (clock 4%nat) fw in
      let contractData :=
        executeViewpointQuery "kls"
          ("SELECT * FROM JCCI WHERE Contract = '" ++ contractId ++ "'")%string
          (clock 5%nat) (clock 6%nat) fw in
      let predictiveModel := getBestPredictiveModel E billing_prediction m in
      let predictedBill :=
        {| pb_jobId := jobId;
           pb_contractId := contractId;
           pb_billingPeriod := period;
           pb_lineItems := [];
           pb_totalAmount := 0;
           pb_confidence := confidence_of predictiveModel;
           pb_generatedAt := clock 7%nat |} in
      {| success := true;
         result_data := Some (bill_prediction predictedBill);
         error := None;
         executionTime := clock 8%nat - startTime;
         source := "ar-wizard-predictive-engine" |}
  end.
End PredictiveBill.

Record DatabaseStatus : Type := {
  ds_name : string;
  ds_type : Database;
  ds_connected : bool;
  ds_connectedAt : Date
}.

Record ExpertSystemStatus : Type := {
  es_name : string;
  es_endpoint : string;
  es_capabilities : list string;
  es_connected : bool;
  es_connectedAt : Date
}.

Record ConnectionStatus : Type := {
  databases : list DatabaseStatus;
  expertSystems : list ExpertSystemStatus
}.

Definition getConnectionStatus (fw : Framework) : ConnectionStatus :=
  {| databases :=
       (fun '(name, conn) =>
          {| ds_name := name;
             ds_type := dc_type conn;
             ds_connected := dc_connected conn;
             ds_connectedAt := dc_connectedAt conn |})
         <$> databaseConnections fw;
     expertSystems :=
       (fun '(name, client) =>
          {| es_name := name;
             es_endpoint := ec_endpoint client;
             es_capabilities := ec_capabilities client;
             es_connected := ec_connected client;
             es_connectedAt := ec_connectedAt client |})
         <$> expertSystemClients fw |}.

Definition disconnect (fw : Framework) : Framework :=
  {| databaseConnections := JsMap.clear (databaseConnections fw);
     expertSystemClients := JsMap.clear (expertSystemClients fw) |}.

(** The loops of the platform that connect every configured system, one
    after the other ([connectToDatabases], [connectToExpertSystems] in
    ar-wizard-platform.ts); [clock i] is the reading of iteration [i]. *)
Fixpoint connectToDatabases (configs : list ViewpointDatabaseConfig)
    (i : nat) (clock : nat -> Date) (fw : Framework) : Framework :=
  match configs with
  | [] => fw
  | dbConfig :: rest =>
      connectToDatabases rest (S i) clock
        (connectToViewpointDatabase dbConfig (clock i) fw)
  end.

Fixpoint connectToExpertSystems (configs : list ExpertSystemConfig)
    (i : nat) (clock : nat -> Date) (fw : Framework) : Framework :=
  match configs with
  | [] => fw
  | expertConfig :: rest =>
      connectToExpertSystems rest (S i) clock
        (connectToExpertSystem expertConfig (clock i) fw)
  end.

End Integration.

(** * The platform ([ARWizardPlatform], ar-wizard-platform.ts) *)

Module Platform.

Inductive Environment : Type := env_development | env_staging | env_production.

Inductive Status : Type :=
  | st_initializing | st_running | st_paused | st_stopped | st_error.

#[global] Instance Status_eq_dec : EqDecision Status.
Proof. solve_decision. Defined.

Record Monitoring : Type := {
  enabled : bool;
  metricsInterval : Z;
  healthCheckInterval : Z
}.

Record PlatformConfig : Type := {
  swarm : JsAny;
  config_databases : list Integration.ViewpointDatabaseConfig;
  config_expertSystems : list Integration.ExpertSystemConfig;
  platform_name : string;
  platform_version : string;
  environment : Environment;
  logLevel : string;
  monitoring : Monitoring
}.

(** What the platform emits, in the order of emission. *)
Inductive Event : Type :=
  | platform_initialized
  | platform_error (message : string)
  | platform_shutdown
  | platform_paused
  | platform_resumed
  | workflow_started_development (objectiveId description : string)
  | workflow_started_testing (objectiveIds : list string)
      (description : string) (databases : list Database)
  | workflow_started_deployment (objectiveId description : string)
      (env : Environment).

(** The platform object.  The two timer fields hold the interval the
    timer was armed with; [emitted] is the log of emitted events, latest
    last; the integration framework and the store of the memory manager
    are the states of these two components. *)
Record ARWizardPlatform : Type := {
  config : PlatformConfig;
  status : Status;
  startTime : option Date;
  healthCheckTimer : option Z;
  metricsTimer : option Z;
  integrationFramework : Integration.Framework;
  distributedMemory : DistributedMemorySystem;
  emitted : list Event
}.

Definition with_status (s : Status) (p : ARWizardPlatform)
  : ARWizardPlatform :=
  {| config := config p; status := s; startTime := startTime p;
     healthCheckTimer := healthCheckTimer p; metricsTimer := metricsTimer p;
     integrationFramework := integrationFramework p;
     distributedMemory := distributedMemory p; emitted := emitted p |}.

Definition with_startTime (t : Date) (p : ARWizardPlatform)
  : ARWizardPlatform :=
  {| config := config p; status := status p; startTime := Some t;
     healthCheckTimer := healthCheckTimer p; metricsTimer := metricsTimer p;
     integrationFramework := integrationFramework p;
     distributedMemory := distributedMemory p; emitted := emitted p |}.

Definition with_timers (health metrics : option Z) (p : ARWizardPlatform)
  : ARWizardPlatform :=
  {| config := config p; status := status p; startTime := startTime p;
     healthCheckTimer := health; metricsTimer := metrics;
     integrationFramework := integrationFramework p;
     distributedMemory := distributedMemory p; emitted := emitted p |}.

Definition with_framework (fw : Integration.Framework)
    (p : ARWizardPlatform) : ARWizardPlatform :=
  {| config := config p; status := status p; startTime := startTime p;
     healthCheckTimer := healthCheckTimer p; metricsTimer := metricsTimer p;
     integrationFramework := fw;
     distributedMemory := distributedMemory p; emitted := emitted p |}.

Definition with_memory (m : DistributedMemorySystem)
    (p : ARWizardPlatform) : ARWizardPlatform :=
  {| config := config p; status := status p; startTime := startTime p;
     healthCheckTimer := healthCheckTimer p; metricsTimer := metricsTimer p;
     integrationFramework := integrationFramework p;
     distributedMemory := m; emitted := emitted p |}.

Definition emit (e : Event) (p : ARWizardPlatform) : ARWizardPlatform :=
  {| config := config p; status := status p; startTime := startTime p;
     healthCheckTimer := healthCheckTimer p; metricsTimer := metricsTimer p;
     integrationFramework := integrationFramework p;
     distributedMemory := distributedMemory p;
     emitted := emitted p ++ [e] |}.

(** The constructor: a fresh framework around the given store. *)
Definition new_platform (cfg : PlatformConfig)
    (m : DistributedMemorySystem) : ARWizardPlatform :=
  {| config := cfg; status := st_initializing; startTime := None;
     healthCheckTimer := None; metricsTimer := None;
     integrationFramework := Integration.new_framework;
     distributedMemory := m; emitted := [] |}.

Definition startMonitoring (p : ARWizardPlatform) : ARWizardPlatform :=
  if enabled (monitoring (config p)) then
    with_timers (Some (healthCheckInterval (monitoring (config p))))
      (Some (metricsInterval (monitoring (config p)))) p
  else p.

Definition stopMonitoring (p : ARWizardPlatform) : ARWizardPlatform :=
  with_timers None None p.

(** The methods of [SwarmCoordinator] and [DistributedMemorySystem] the
    platform awaits are not part of the sources: what each of these calls
    does (returns, or throws) is an argument of the method that makes it;
    [memoryInitialize] returns the store as [initialize()] leaves it.
    [clock i] is the reading of the clock for the [i]-th connection.  The
    events the coordinator emits meanwhile, which the platform forwards,
    are not part of the log. *)
Definition initialize
    (memoryInitialize : Integration.Outcome DistributedMemorySystem)
    (swarmInitialize : Integration.Outcome unit)
    (now : Date) (clock : nat -> Date) (p : ARWizardPlatform)
  : ARWizardPlatform * Integration.Outcome unit :=
  let p1 := with_startTime now (with_status st_initializing p) in
  match memoryInitialize with
  | Integration.thrown message =>
      (emit (platform_error message) (with_status st_error p1),
       Integration.thrown message)
  | Integration.returned initialized =>
      let p2 :=
        with_memory (integrateExistingExpertSystems initialized) p1 in
      let p3 :=
        with_framework
          (Integration.connectToDatabases (config_databases (config p2))
             0%nat clock (integrationFramework p2)) p2 in
      let p4 :=
        with_framework
          (Integration.connectToExpertSystems
             (config_expertSystems (config p3))
             (length (config_databases (config p3))) clock
             (integrationFramework p3)) p3 in
      match swarmInitialize with
      | Integration.thrown message =>
          (emit (platform_error message) (with_status st_error p4),
           Integration.thrown message)
      | Integration.returned _ =>
          let p5 := startMonitoring p4 in
          (emit platform_initialized (with_status st_running p5),
           Integration.returned tt)
      end
  end.

Definition shutdown (E : QueryEngine)
    (swarmShutdown : Integration.Outcome unit) (now now' : Date)
    (p : ARWizardPlatform)
  : ARWizardPlatform * Integration.Outcome unit :=
  let p1 := stopMonitoring (with_status st_stopped p) in
  match swarmShutdown with
  | Integration.thrown message => (p1, Integration.thrown message)
  | Integration.returned _ =>
      let p2 :=
        with_framework (Integration.disconnect (integrationFramework p1))
          p1 in
      let p3 :=
        with_memory (performMaintenance E now now' (distributedMemory p2))
          p2 in
      (emit platform_shutdown p3, Integration.returned tt)
  end.

Definition pause (swarmPause : Integration.Outcome unit)
    (p : ARWizardPlatform)
  : ARWizardPlatform * Integration.Outcome unit :=
  if bool_decide (status p <> st_running) then (p, Integration.returned tt)
  else
    let p1 := with_status st_paused p in
    match swarmPause with
    | Integration.thrown message => (p1, Integration.thrown message)
    | Integration.returned _ =>
        (emit platform_paused p1, Integration.returned tt)
    end.

Definition resume (swarmResume : Integration.Outcome unit)
    (p : ARWizardPlatform)
  : ARWizardPlatform * Integration.Outcome unit :=
  if bool_decide (status p <> st_paused) then (p, Integration.returned tt)
  else
    let p1 := with_status st_running p in
    match swarmResume with
    | Integration.thrown message => (p1, Integration.thrown message)
    | Integration.returned _ =>
        (emit platform_resumed p1, Integration.returned tt)
    end.

(** [workflow] is what the coordinator's workflow method does. *)
Definition developARWizardComponent (description : string)
    (workflow : Integration.Outcome string) (p : ARWizardPlatform)
  : ARWizardPlatform * Integration.Outcome string :=
  if bool_decide (status p <> st_running) then
    (p, Integration.thrown "Platform is not running")
  else
    match workflow with
    | Integration.returned objectiveId =>
        (emit (workflow_started_development objectiveId description) p,
         Integration.returned objectiveId)
    | Integration.thrown message => (p, Integration.thrown message)
    end.

Definition testARWizardComponent (description : string)
    (databases : list Database)
    (workflow : Integration.Outcome (list string)) (p : ARWizardPlatform)
  : ARWizardPlatform * Integration.Outcome (list string) :=
  if bool_decide (status p <> st_running) then
    (p, Integration.thrown "Platform is not running")
  else
    match workflow with
    | Integration.returned objectiveIds =>
        (emit (workflow_started_testing objectiveIds description databases)
           p,
         Integration.returned objectiveIds)
    | Integration.thrown message => (p, Integration.thrown message)
    end.

Definition deployARWizardComponent (description : string)
    (env : Environment) (workflow : Integration.Outcome string)
    (p : ARWizardPlatform)
  : ARWizardPlatform * Integration.Outcome string :=
  if bool_decide (status p <> st_running) then
    (p, Integration.thrown "Platform is not running")
  else
    match workflow with
    | Integration.returned objectiveId =>
        (emit (workflow_started_deployment objectiveId description env) p,
         Integration.returned objectiveId)
    | Integration.thrown message => (p, Integration.thrown message)
    end.

Definition isRunning (p : ARWizardPlatform) : bool :=
  bool_decide (status p = st_running).

Definition getUptime (now : Date) (p : ARWizardPlatform) : Z :=
  match startTime p with
  | None => 0
  | Some t => now - t
  end.

(** The part of [PlatformStatus] that [identifyCriticalIssues] reads. *)
Record IntegrationEntry : Type := {
  ie_name : string;
  ie_connected : bool
}.

Record PlatformStatus : Type := {
  ps_status : Status;
  ps_swarm_status : string;
  ps_databases : list IntegrationEntry;
  ps_expertSystems : list IntegrationEntry;
  ps_uptime : Z;
  ps_lastHealthCheck : Date
}.

Definition identifyCriticalIssues (st : PlatformStatus) : list string :=
  let issues := [] in
  let disconnectedDbs :=
    List.filter (fun db => negb (ie_connected db)) (ps_databases st) in
  let issues :=
    if (0 <? length disconnectedDbs)%nat then
      issues ++ [("Disconnected databases: "
                  ++ String.concat ", " (ie_name <$> disconnectedDbs))%string]
    else issues in
  let disconnectedExperts :=
    List.filter (fun es => negb (ie_connected es)) (ps_expertSystems st) in
  let issues :=
    if (0 <? length disconnectedExperts)%nat then
      issues
      ++ [("Disconnected expert systems: "
           ++ String.concat ", " (ie_name <$> disconnectedExperts))%string]
    else issues in
  if bool_decide (ps_swarm_status st = "failed"
                  \/ ps_swarm_status st = "error") then
    issues ++ ["Swarm coordinator in error state"]
  else issues.

(** The calls that neither [initialize] nor [shutdown] the platform. *)
Inductive Request : Type :=
  | request_pause (swarmPause : Integration.Outcome unit)
  | request_resume (swarmResume : Integration.Outcome unit)
  | request_develop (description : string)
      (workflow : Integration.Outcome string)
  | request_test (description : string) (databases : list Database)
      (workflow : Integration.Outcome (list string))
  | request_deploy (description : string) (env : Environment)
      (workflow : Integration.Outcome string).

(** The platform a request leaves behind. *)
Definition serve (r : Request) (p : ARWizardPlatform) : ARWizardPlatform :=
  match r with
  | request_pause o => (pause o p).1
  | request_resume o => (resume o p).1
  | request_develop d w => (developARWizardComponent d w p).1
  | request_test d dbs w => (testARWizardComponent d dbs w p).1
  | request_deploy d e w => (deployARWizardComponent d e w p).1
  end.

Definition serve_all (requests : list Request) (p : ARWizardPlatform)
  : ARWizardPlatform :=
  foldl (fun p r => serve r p) p requests.

End Platform.

(** * The swarm coordinator
      ([ARWizardSwarmCoordinator], swarm/ar-wizard-coordinator.ts)

    Its configuration is assembled and updated with object spreads, so
    configurations are plain JavaScript objects: finite maps from property
    names to values. *)

Module Coordinator.

#[local] Set Warnings "-register-all".

Inductive JsValue : Type :=
  | JUndefined
  | JNull
  | JBool (b : bool)
  | JNumber (q : Q)
  | JString (s : string)
  | JArray (items : list JsValue)
  | JObject (properties : gmap string JsValue).

(** [...source] inside an object literal: every own property of [source]
    is set on the object built so far. *)
Definition spread (source acc : gmap string JsValue)
  : gmap string JsValue := source ∪ acc.

(** The own properties a value contributes when spread; [undefined],
    [null], booleans and numbers contribute none.  (Strings and arrays
    would contribute their indices; a configuration holds none where an
    object is expected.) *)
Definition properties_of (v : JsValue) : gmap string JsValue :=
  match v with
  | JObject properties => properties
  | _ => ∅
  end.

(** [object.key] *)
Definition property (key : string) (object : gmap string JsValue)
  : JsValue :=
  match object !! key with
  | Some v => v
  | None => JUndefined
  end.

Definition default_viewpointDatabases : JsValue :=
  JObject
    (<["ideal" := JString
         "Server=ideal-server;Database=Viewpoint_Ideal;Integrated Security=true"]>
       (<["taft" := JString
            "Server=taft-server;Database=Viewpoint_Taft;Integrated Security=true"]>
          (<["gbi" := JString
               "Server=gbi-server;Database=Viewpoint_GBI;Integrated Security=true"]>
             (<["kls" := JString
                  "Server=kls-server;Database=Viewpoint_KLS;Integrated Security=true"]>
                ∅)))).

Definition default_expertSystems : JsValue :=
  JObject
    (<["expertLifecycle" := JString "http://localhost:8003/api/experts"]>
       (<["asc606" := JString "http://localhost:8002/api/asc606"]>
          (<["jcRevenue" := JString "http://localhost:8001/api/jc-revenue"]>
             (<["viewpointSQL" :=
                  JString "http://localhost:8000/api/viewpoint-sql"]> ∅)))).

Definition default_arWizardSettings : gmap string JsValue :=
  <["wipCalculationThreshold" := JNumber (85 # 100)]>
    (<["maxBillComplexity" := JNumber 100]>
       (<["billingCycleReduction" := JNumber (7 # 10)]>
          (<["predictionAccuracyTarget" := JNumber (95 # 100)]> ∅))).

(** The four memory properties the literal lists before [...config.memory]. *)
Definition default_memory : gmap string JsValue :=
  <["distributed" := JBool true]>
    (<["persistent" := JBool true]>
       (<["partitions" :=
            JArray [JString "development"; JString "testing";
                    JString "deployment"; JString "knowledge"]]>
          (<["namespace" := JString "ar-wizard"]> ∅))).

(** The object literal of the constructor, property by property in the
    order of the source (innermost first). *)
Definition defaultARWizardConfig (config : gmap string JsValue)
  : gmap string JsValue :=
  spread config
    (<["memory" :=
         JObject (spread (properties_of (property "memory" config))
                    default_memory)]>
       (<["arWizardSettings" := JObject default_arWizardSettings]>
          (<["expertSystems" := default_expertSystems]>
             (<["viewpointDatabases" := default_viewpointDatabases]>
                (<["maxTasks" := JNumber 50]>
                   (<["maxAgents" := JNumber 8]>
                      (<["strategy" := JString "development"]>
                         (<["mode" := JString "parallel"]>
                            (<["version" := JString "1.0.0"]>
                               (<["description" :=
                                    JString
                                      "Specialized swarm for AR Wizard Job Billing Automation development"]>
                                  (<["name" :=
                                       JString "AR Wizard Development Swarm"]>
                                     (spread config ∅)))))))))))).

(** [getARWizardConfig]: a shallow copy. *)
Definition getARWizardConfig (arWizardConfig : gmap string JsValue)
  : gmap string JsValue := spread arWizardConfig ∅.

Definition updateARWizardSettings (settings : gmap string JsValue)
    (arWizardConfig : gmap string JsValue) : gmap string JsValue :=
  <["arWizardSettings" :=
      JObject
        (spread settings
           (spread
              (properties_of (property "arWizardSettings" arWizardConfig))
              ∅))]> arWizardConfig.

(** The defaults that apply when the caller gives no configuration. *)
Definition builtin_config : gmap string JsValue := defaultARWizardConfig ∅.

End Coordinator.

(** ** Sample configurations *)

Module Configs.
Definition kls_config : Integration.ViewpointDatabaseConfig :=
  {| Integration.vdc_name := "Viewpoint_KLS";
     Integration.vdc_connectionString := "Server=localhost";
     Integration.vdc_type := kls;
     Integration.vdc_permissions :=
       [Integration.perm_read; Integration.perm_write];
     Integration.vdc_timeout := 30000;
     Integration.vdc_poolSize := 10 |}.

Definition gbi_config : Integration.ViewpointDatabaseConfig :=
  {| Integration.vdc_name := "Viewpoint_GBI";
     Integration.vdc_connectionString := "Server=localhost";
     Integration.vdc_type := gbi;
     Integration.vdc_permissions := [Integration.perm_read];
     Integration.vdc_timeout := 30000;
     Integration.vdc_poolSize := 10 |}.

Definition sql_expert : Integration.ExpertSystemConfig :=
  {| Integration.esc_name := "Viewpoint SQL Expert";
     Integration.esc_endpoint := "http://localhost:8000/api/viewpoint-sql";
     Integration.esc_apiKey := "key";
     Integration.esc_capabilities := ["sql-generation"; "schema-analysis"];
     Integration.esc_timeout := 30000;
     Integration.esc_retryAttempts := 3 |}.

Definition platform_config : Platform.PlatformConfig :=
  {| Platform.swarm := "swarm";
     Platform.config_databases := [kls_config; gbi_config];
     Platform.config_expertSystems := [sql_expert];
     Platform.platform_name := "AR Wizard Platform";
     Platform.platform_version := "1.0.0";
     Platform.environment := Platform.env_development;
     Platform.logLevel := "info";
     Platform.monitoring :=
       {| Platform.enabled := true;
          Platform.metricsInterval := 30000;
          Platform.healthCheckInterval := 60000 |} |}.

Definition wall_clock (i : nat) : Date := 1000 + Z.of_nat i.

(** A running platform with the two databases and the expert system of
    [platform_config] connected, around the two sample analyses. *)
Definition connected_platform : Platform.ARWizardPlatform :=
  Platform.with_status Platform.st_running
    (Platform.with_framework
       (Integration.connectToExpertSystems [sql_expert] 2 wall_clock
          (Integration.connectToDatabases [kls_config; gbi_config] 0
             wall_clock Integration.new_framework))
       (Platform.new_platform platform_config Examples.analysis_store)).

(** A caller configuration that names the swarm and gives a memory
    object with a namespace only. *)
Definition custom_swarm_config : gmap string Coordinator.JsValue :=
  <["memory" :=
      Coordinator.JObject
        (<["namespace" := Coordinator.JString "custom"]> ∅)]>
    (<["name" := Coordinator.JString "My Swarm"]> ∅).
End Configs.
(** ** Lemmas on the store primitives *)

Section StoreFacts.
Context (E : QueryEngine) {A : Type}.
Implicit Types (t : gmap string A) (p : A -> bool).

Lemma elem_of_enum t k r : (k, r) ∈ enum E A t <-> t !! k = Some r.
Proof. rewrite (enum_perm E A t). apply elem_of_map_to_list. Qed.

Lemma elem_of_query t p r :
  r ∈ memory.query E t p <-> (exists k, t !! k = Some r) /\ p r = true.
Proof.
  unfold memory.query.
  rewrite list_elem_of_In, filter_In, <- list_elem_of_In, list_elem_of_fmap.
  split.
  - intros [[[k r'] [-> Hin]] Hp]. split; [|done].
    exists k. by apply elem_of_enum.
  - intros [[k Hk] Hp]. split; [|done].
    exists (k, r). split; [done|]. by apply elem_of_enum.
Qed.

Lemma query_nil t p :
  memory.query E t p = [] <-> forall k r, t !! k = Some r -> p r = false.
Proof.
  split.
  - intros Hnil k r Hk. destruct (p r) eqn:Hp; [|done].
    assert (r ∈ memory.query E t p) as Hin
      by (apply elem_of_query; eauto).
    rewrite Hnil in Hin. by apply elem_of_nil in Hin.
  - intros Hall. destruct (memory.query E t p) as [|r l] eqn:Hq; [done|].
    assert (r ∈ memory.query E t p) as Hin by (rewrite Hq; left).
    apply elem_of_query in Hin as [[k Hk] Hp].
    rewrite (Hall k r Hk) in Hp. discriminate.
Qed.

Lemma filter_length_perm p (l l' : list A) :
  l ≡ₚ l' -> length (List.filter p l) = length (List.filter p l').
Proof.
  induction 1 as [|x l l' _ IH|x y l|l l' l'' _ IH1 _ IH2]; simpl.
  - done.
  - destruct (p x); simpl; by rewrite IH.
  - by destruct (p x), (p y).
  - by rewrite IH1.
Qed.

Lemma query_length t p :
  length (memory.query E t p)
  = length (List.filter p (snd <$> map_to_list t)).
Proof.
  unfold memory.query. apply filter_length_perm.
  by rewrite (enum_perm E A t).
Qed.
End StoreFacts.

(** ** Shared context *)

Lemma getSharedContext_present key now m r :
  SHARED_CONTEXT_NS m !! key = Some r ->
  getSharedContext key now m
  = if decide (ttl r < now - timestamp r)
    then (None, with_context (delete key (SHARED_CONTEXT_NS m)) m)
    else (Some (data r), m).
Proof.
  intros Hr. unfold getSharedContext, memory.get, memory.delete.
  rewrite Hr. simpl.
  destruct (Z.ltb_spec (ttl r) (now - timestamp r)); case_decide; done || lia.
Qed.

Lemma getSharedContext_absent key now m :
  SHARED_CONTEXT_NS m !! key = None -> getSharedContext key now m = (None, m).
Proof. intros Hr. unfold getSharedContext, memory.get. by rewrite Hr. Qed.

(** C1, as amended.  [storeSharedContext key context ttl] stores the
    wrapper [{data, timestamp: now, ttl}] whose [ttl] is the given one when
    it is supplied and not [0], and [3600000] otherwise.  A later
    [getSharedContext] on any store finds nothing when the key is absent;
    when the key holds a wrapper it compares [now - timestamp] with the
    stored [ttl]: if the difference exceeds it, the entry is deleted from
    the shared-context namespace and the call returns nothing, otherwise
    the call returns the stored data and leaves the store as it was.  In
    particular a context stored with [ttl = 1000] is returned up to 1000ms
    later, and 1001ms later the call returns nothing and the raw entry is
    gone. *)
Theorem shared_context_ttl_contract
    (key : string) (context : JsAny) (ttl0 : option Z) (now : Date)
    (m : DistributedMemorySystem) :
  let kept :=
    match ttl0 with
    | Some t => if decide (t = 0) then 3600000 else t
    | None => 3600000
    end in
  let m1 := storeSharedContext key context ttl0 now m in
  SHARED_CONTEXT_NS m1 !! key
  = Some {| data := context; timestamp := now; ttl := kept |}
  /\ (forall m' key' now',
        SHARED_CONTEXT_NS m' !! key' = None ->
        getSharedContext key' now' m' = (None, m'))
  /\ (forall m' key' now' r,
        SHARED_CONTEXT_NS m' !! key' = Some r ->
        (ttl r < now' - timestamp r ->
         fst (getSharedContext key' now' m') = None
         /\ SHARED_CONTEXT_NS (snd (getSharedContext key' now' m')) !! key'
            = None
         /\ snd (getSharedContext key' now' m')
            = with_context (delete key' (SHARED_CONTEXT_NS m')) m')
        /\ (now' - timestamp r <= ttl r ->
            getSharedContext key' now' m' = (Some (data r), m')))
  /\ (ttl0 = Some 1000 ->
      getSharedContext key (now + 1000) m1 = (Some context, m1)
      /\ fst (getSharedContext key (now + 1001) m1) = None
      /\ SHARED_CONTEXT_NS (snd (getSharedContext key (now + 1001) m1)) !! key
         = None).
Proof.
  intros kept m1.
  assert (SHARED_CONTEXT_NS m1 !! key
          = Some {| data := context; timestamp := now; ttl := kept |}) as Hput.
  { subst m1 kept. unfold storeSharedContext, memory.store. simpl.
    rewrite lookup_insert_eq. do 2 f_equal. unfold ttl_or_default.
    destruct ttl0 as [t|]; [|done].
    destruct (Z.eqb_spec t 0); case_decide; done. }
  split; [exact Hput|].
  split; [intros; by apply getSharedContext_absent|].
  split.
  - intros m' key' now' r Hr.
    rewrite (getSharedContext_present _ _ _ _ Hr).
    split.
    + intros Hlt. rewrite decide_True by done. simpl.
      by rewrite lookup_delete_eq.
    + intros Hle. rewrite decide_False by lia. done.
  - intros ->. subst kept. cbv zeta in Hput.
    rewrite decide_False in Hput by lia.
    rewrite !(getSharedContext_present _ _ m1 _ Hput). simpl.
    rewrite decide_False by lia. rewrite decide_True by lia. simpl.
    by rewrite lookup_delete_eq.
Qed.

(** The 1000ms / 1001ms scenario, run on an empty store. *)
Lemma shared_context_ttl_contract_witness :
  Some 1000 = Some 1000
  /\ fst (getSharedContext "k" 1001
            (storeSharedContext "k" "blob" (Some 1000) 0 empty_memory))
     = None
  /\ SHARED_CONTEXT_NS
       (snd (getSharedContext "k" 1001
               (storeSharedContext "k" "blob" (Some 1000) 0 empty_memory)))
     !! "k" = None.
Proof.
  split; [reflexivity|].
  exact (proj2
           (proj2 (proj2 (proj2
              (shared_context_ttl_contract "k" "blob" (Some 1000) 0
                 empty_memory))) eq_refl)).
Defined.

(** C1 as first stated fails for [ttl = 0]: the claim has the wrapper
    carry the given [ttl], the source stores the default instead, and the
    context is still returned one millisecond later. *)
Lemma shared_context_ttl_zero_counterexample :
  let m1 := storeSharedContext "k" "blob" (Some 0) 0 empty_memory in
  SHARED_CONTEXT_NS m1 !! "k"
  <> Some {| data := "blob"; timestamp := 0; ttl := spec_ttl (Some 0) |}
  /\ SHARED_CONTEXT_NS m1 !! "k"
     = Some {| data := "blob"; timestamp := 0; ttl := 3600000 |}
  /\ getSharedContext "k" 1 m1 = (Some "blob", m1).
Proof.
  intros m1.
  assert (SHARED_CONTEXT_NS m1 !! "k"
          = Some {| data := "blob"; timestamp := 0; ttl := 3600000 |}) as H.
  { subst m1. unfold storeSharedContext, memory.store. simpl.
    by rewrite lookup_insert_eq. }
  split; [|split].
  - rewrite H. intros [= ?].
  - exact H.
  - rewrite (getSharedContext_present _ _ m1 _ H).
    case_decide; [simpl in *; lia | done].
Qed.

(** ** Database analyses: freshness and the maintenance sweep *)

Section Analyses.
Context (E : QueryEngine).
Implicit Types (t : gmap string DatabaseAnalysis) (a r : DatabaseAnalysis).

(** What a run of the loop of [cleanupExpiredAnalyses] leaves under a
    key: nothing when the key is the id of an expired record of the
    list, the former content otherwise. *)
Lemma lookup_delete_if_expired now (l : list DatabaseAnalysis) t k :
  foldl (delete_if_expired now) t l !! k
  = if decide (k ∈ da_id <$> List.filter (expired now) l)
    then None else t !! k.
Proof.
  revert t. induction l as [|a l IH]; intros t.
  - cbn [foldl List.filter fmap list_fmap].
    rewrite decide_False; [done|]. apply not_elem_of_nil.
  - cbn [foldl List.filter]. rewrite IH.
    unfold delete_if_expired, memory.delete.
    fold (expired now a). destruct (expired now a) eqn:Ha; [|done].
    rewrite fmap_cons.
    destruct (decide (k ∈ da_id <$> List.filter (expired now) l))
      as [Hin|Hnin].
    + rewrite decide_True; [done|]. by right.
    + destruct (decide (k = da_id a)) as [->|Hne].
      * rewrite decide_True by left. apply lookup_delete_eq.
      * rewrite decide_False.
        -- by apply lookup_delete_ne.
        -- rewrite elem_of_cons. by intros [?|?].
Qed.

Lemma elem_of_expired_ids now t k :
  k ∈ da_id <$> List.filter (expired now)
                  (memory.query E t (fun _ => true))
  <-> exists k' a, t !! k' = Some a /\ da_validUntil a <= now /\ da_id a = k.
Proof.
  rewrite list_elem_of_fmap. split.
  - intros [a [-> Hin]].
    apply list_elem_of_In, filter_In in Hin as [Hin Hexp].
    apply list_elem_of_In, elem_of_query in Hin as [[k' Hk'] _].
    exists k', a. split; [done|]. split; [|done].
    by apply Z.leb_le.
  - intros (k' & a & Hk' & Hexp & <-). exists a. split; [done|].
    apply list_elem_of_In, filter_In. split.
    + apply list_elem_of_In, elem_of_query. eauto.
    + by apply Z.leb_le.
Qed.

Lemma lookup_cleanupExpiredAnalyses now m k :
  DATABASE_ANALYSIS_NS (cleanupExpiredAnalyses E now m) !! k
  = if decide (k ∈ da_id <$> List.filter (expired now)
                     (memory.query E (DATABASE_ANALYSIS_NS m)
                        (fun _ => true)))
    then None else DATABASE_ANALYSIS_NS m !! k.
Proof.
  unfold cleanupExpiredAnalyses. simpl. apply lookup_delete_if_expired.
Qed.

Lemma elem_of_getDatabaseAnalysis database analysisType now m r :
  r ∈ getDatabaseAnalysis E database analysisType now m
  <-> (exists k, DATABASE_ANALYSIS_NS m !! k = Some r)
      /\ analysis_criteria database analysisType r = true
      /\ now < da_validUntil r.
Proof.
  unfold getDatabaseAnalysis.
  rewrite list_elem_of_In, filter_In, <- list_elem_of_In, elem_of_query.
  rewrite Z.ltb_lt. tauto.
Qed.

(** The sweep keeps exactly the live entries of a well-keyed table. *)
Lemma cleanupExpiredAnalyses_keyed now m :
  keyed_by_id da_id (DATABASE_ANALYSIS_NS m) ->
  DATABASE_ANALYSIS_NS (cleanupExpiredAnalyses E now m)
  = filter (fun kr => now < da_validUntil kr.2) (DATABASE_ANALYSIS_NS m).
Proof.
  intros Hkeyed. apply map_eq. intros k.
  rewrite lookup_cleanupExpiredAnalyses, map_lookup_filter.
  destruct (decide (k ∈ _)) as [Hin|Hnin].
  - apply elem_of_expired_ids in Hin as (k' & a & Hk' & Hexp & Hid).
    pose proof (Hkeyed _ _ Hk') as Hkey. simpl in Hkey.
    assert (k' = k) as -> by congruence.
    rewrite Hk'. simpl. by rewrite option_guard_False by (simpl; lia).
  - destruct (DATABASE_ANALYSIS_NS m !! k) as [a|] eqn:Hk; [|done].
    simpl. rewrite option_guard_True; [done|]. simpl.
    destruct (Z.lt_ge_cases now (da_validUntil a)) as [|Hge]; [done|].
    exfalso. apply Hnin, elem_of_expired_ids.
    exists k, a. split; [done|]. split; [lia|]. by apply (Hkeyed _ _ Hk).
Qed.

Lemma cleanupExpiredAnalyses_twice now m :
  cleanupExpiredAnalyses E now (cleanupExpiredAnalyses E now m)
  = cleanupExpiredAnalyses E now m.
Proof.
  assert (DATABASE_ANALYSIS_NS
            (cleanupExpiredAnalyses E now (cleanupExpiredAnalyses E now m))
          = DATABASE_ANALYSIS_NS (cleanupExpiredAnalyses E now m)) as Ht.
  { apply map_eq. intros k.
    rewrite (lookup_cleanupExpiredAnalyses now (cleanupExpiredAnalyses _ _ _)).
    destruct (decide (k ∈ _)) as [Hin|Hnin]; [|done].
    apply elem_of_expired_ids in Hin as (k' & a & Hk' & Hexp & Hid).
    rewrite lookup_cleanupExpiredAnalyses in Hk'.
    destruct (decide (k' ∈ _)) as [|_]; [done|].
    rewrite lookup_cleanupExpiredAnalyses, decide_True; [done|].
    apply elem_of_expired_ids. eauto. }
  transitivity
    (with_analyses
       (DATABASE_ANALYSIS_NS
          (cleanupExpiredAnalyses E now (cleanupExpiredAnalyses E now m)))
       (cleanupExpiredAnalyses E now m)); [done|].
  by rewrite Ht.
Qed.
End Analyses.

(** C2.  For every database tag and optional analysis kind,
    [getDatabaseAnalysis] returns exactly the stored records that match
    the query and have [validUntil > now], so it never returns a record
    with [validUntil <= now].  After one run of [cleanupExpiredAnalyses]
    no record that sits under its own id has [validUntil <= now]; on a
    store in which every analysis sits under its own id (the only stores
    the manager builds) the analysis namespace then holds exactly the
    entries that had [validUntil > now], so no record with
    [validUntil <= now] remains anywhere in it. *)
Theorem analysis_freshness
    (E : QueryEngine) (now : Date) (m : DistributedMemorySystem) :
  (forall database analysisType r,
     r ∈ getDatabaseAnalysis E database analysisType now m
     <-> (exists k, DATABASE_ANALYSIS_NS m !! k = Some r)
         /\ analysis_criteria database analysisType r = true
         /\ now < da_validUntil r)
  /\ (forall database analysisType r,
        r ∈ getDatabaseAnalysis E database analysisType now m ->
        ~ da_validUntil r <= now)
  /\ (forall k r,
        DATABASE_ANALYSIS_NS (cleanupExpiredAnalyses E now m) !! k = Some r ->
        da_id r = k ->
        ~ da_validUntil r <= now)
  /\ (keyed_by_id da_id (DATABASE_ANALYSIS_NS m) ->
      DATABASE_ANALYSIS_NS (cleanupExpiredAnalyses E now m)
      = filter (fun kr => now < da_validUntil kr.2) (DATABASE_ANALYSIS_NS m)
      /\ forall k r,
           DATABASE_ANALYSIS_NS (cleanupExpiredAnalyses E now m) !! k
           = Some r ->
           ~ da_validUntil r <= now).
Proof.
  split; [intros; apply elem_of_getDatabaseAnalysis|].
  split; [|split].
  - intros database analysisType r Hr.
    apply elem_of_getDatabaseAnalysis in Hr. lia.
  - intros k r Hr Hid Hexp.
    rewrite lookup_cleanupExpiredAnalyses in Hr.
    destruct (decide (k ∈ _)) as [|Hnin]; [done|].
    apply Hnin, elem_of_expired_ids. by exists k, r.
  - intros Hkeyed. split; [by apply cleanupExpiredAnalyses_keyed|].
    intros k r. rewrite cleanupExpiredAnalyses_keyed by done.
    rewrite map_lookup_filter_Some. simpl. lia.
Qed.

(** C9.  For every store and fixed current time, running
    [cleanupExpiredAnalyses] twice in a row leaves exactly the store one
    run leaves; once it has run, running it again any number of times
    (none, one, many) leaves that same store. *)
Theorem sweep_idempotent
    (E : QueryEngine) (now : Date) (m : DistributedMemorySystem) :
  cleanupExpiredAnalyses E now (cleanupExpiredAnalyses E now m)
  = cleanupExpiredAnalyses E now m
  /\ forall n : nat,
       Nat.iter n (cleanupExpiredAnalyses E now)
         (cleanupExpiredAnalyses E now m)
       = cleanupExpiredAnalyses E now m.
Proof.
  split; [apply cleanupExpiredAnalyses_twice|].
  induction n as [|n IH]; [done|].
  simpl. rewrite IH. apply cleanupExpiredAnalyses_twice.
Qed.

(** ** Sorting with a comparator *)

Lemma is_positive_spec (q : Q) : is_positive q = true <-> (0 < q)%Q.
Proof.
  unfold is_positive. destruct (Qlt_le_dec 0 q) as [Hlt|Hle].
  - tauto.
  - split; [discriminate|]. intros Hlt.
    exfalso. exact (Qlt_not_le _ _ Hlt Hle).
Qed.

Section SortFacts.
Context {A : Type} (compareFn : A -> A -> Q).

Lemma sort_insert_perm x (l : list A) : sort_insert compareFn x l ≡ₚ x :: l.
Proof.
  induction l as [|y l IH]; simpl; [done|].
  destruct (is_positive (compareFn x y)); [|done].
  rewrite IH. apply Permutation_swap.
Qed.

Lemma sort_perm (l : list A) : sort compareFn l ≡ₚ l.
Proof.
  induction l as [|x l IH]; simpl; [done|].
  fold (sort compareFn l). by rewrite sort_insert_perm, IH.
Qed.

Lemma sort_length (l : list A) : length (sort compareFn l) = length l.
Proof. by rewrite sort_perm. Qed.

(** The comparator orders by a numeric key, largest first: it is
    positive exactly when its second argument has the larger key. *)
Context (key : A -> Q).
Hypothesis compareFn_key :
  forall a b, is_positive (compareFn a b) = true <-> (key a < key b)%Q.

Lemma head_sort_insert x (l : list A) h :
  head l = Some h ->
  head (sort_insert compareFn x l)
  = Some (if is_positive (compareFn x h) then h else x).
Proof.
  destruct l as [|y l]; simpl; [done|]. intros [= ->].
  by destruct (is_positive (compareFn x h)).
Qed.

Lemma head_sort_max (l : list A) h :
  head (sort compareFn l) = Some h ->
  h ∈ l /\ forall y, y ∈ l -> (key y <= key h)%Q.
Proof.
  revert h. induction l as [|x l IH]; intros h; simpl; [done|].
  fold (sort compareFn l).
  destruct (head (sort compareFn l)) as [h'|] eqn:Hh'.
  - rewrite (head_sort_insert _ _ _ Hh').
    destruct (IH h' eq_refl) as [Hin Hmax].
    destruct (is_positive (compareFn x h')) eqn:Hpos; intros [= <-].
    + split; [by right|]. intros y [->|Hy]%elem_of_cons; [|by apply Hmax].
      apply Qlt_le_weak. by apply compareFn_key.
    + assert (key h' <= key x)%Q as Hle.
      { apply Qnot_lt_le. intros Hlt%compareFn_key. congruence. }
      split; [by left|].
      intros y [->|Hy]%elem_of_cons; [apply Qle_refl|].
      eapply Qle_trans; [by apply Hmax|done].
  - destruct (sort compareFn l) as [|? ?] eqn:Hs; [|done].
    assert (l = []) as ->.
    { apply Permutation_nil_r. by rewrite <- Hs, sort_perm. }
    simpl. intros [= <-]. split; [by left|].
    intros y [->|Hy]%elem_of_cons; [apply Qle_refl|].
    by apply elem_of_nil in Hy.
Qed.

Lemma head_sort_is_Some (l : list A) :
  l <> [] -> is_Some (head (sort compareFn l)).
Proof.
  intros Hl. destruct (sort compareFn l) as [|h s] eqn:Hs; [|by eexists].
  exfalso. apply Hl, Permutation_nil_r. by rewrite <- Hs, sort_perm.
Qed.
End SortFacts.

(** ** Best model and latest analysis *)

Lemma length_eqb_0 {A : Type} (l : list A) :
  (length l =? 0)%nat = true <-> l = [].
Proof. rewrite Nat.eqb_eq. by destruct l. Qed.

Lemma accuracy_compare_key (a b : PredictiveModel) :
  is_positive
    (accuracy (pm_performance b) - accuracy (pm_performance a))%Q = true
  <-> (accuracy (pm_performance a) < accuracy (pm_performance b))%Q.
Proof. rewrite is_positive_spec. symmetry. apply Qlt_minus_iff. Qed.

Lemma analyzedAt_compare_key (a b : DatabaseAnalysis) :
  is_positive (inject_Z (da_analyzedAt b - da_analyzedAt a)) = true
  <-> (inject_Z (da_analyzedAt a) < inject_Z (da_analyzedAt b))%Q.
Proof.
  rewrite is_positive_spec. change 0%Q with (inject_Z 0).
  rewrite <- !Zlt_Qlt. lia.
Qed.

Lemma model_criteria_type type (p : PredictiveModel) :
  model_criteria type None p = true <-> pm_type p = type.
Proof.
  unfold model_criteria. rewrite andb_true_r. apply bool_decide_eq_true.
Qed.

(** C4.  For every model type, [getBestPredictiveModel] returns nothing
    exactly when no model of that type is stored; otherwise it returns a
    stored model of that type whose [performance.accuracy] is at least
    that of every stored model of that type.  Hence a stored model whose
    accuracy is strictly above that of all other stored models of its type
    (0.92 against 0.80, say) is the one returned. *)
Theorem best_model_selection
    (E : QueryEngine) (type : ModelType) (m : DistributedMemorySystem) :
  (getBestPredictiveModel E type m = None
   <-> forall k p, PREDICTIVE_MODELS_NS m !! k = Some p -> pm_type p <> type)
  /\ (forall best,
        getBestPredictiveModel E type m = Some best ->
        (exists k, PREDICTIVE_MODELS_NS m !! k = Some best)
        /\ pm_type best = type
        /\ forall k p,
             PREDICTIVE_MODELS_NS m !! k = Some p -> pm_type p = type ->
             (accuracy (pm_performance p)
              <= accuracy (pm_performance best))%Q)
  /\ (forall k best,
        PREDICTIVE_MODELS_NS m !! k = Some best -> pm_type best = type ->
        (forall k' p,
           PREDICTIVE_MODELS_NS m !! k' = Some p -> pm_type p = type ->
           p <> best ->
           (accuracy (pm_performance p)
            < accuracy (pm_performance best))%Q) ->
        getBestPredictiveModel E type m = Some best).
Proof.
  assert (forall best,
            getBestPredictiveModel E type m = Some best ->
            (exists k, PREDICTIVE_MODELS_NS m !! k = Some best)
            /\ pm_type best = type
            /\ forall k p,
                 PREDICTIVE_MODELS_NS m !! k = Some p -> pm_type p = type ->
                 (accuracy (pm_performance p)
                  <= accuracy (pm_performance best))%Q) as Hsome.
  { intros best. unfold getBestPredictiveModel, getPredictiveModel.
    destruct (length _ =? 0)%nat; [done|]. intros Hhead.
    apply (head_sort_max _ (fun p => accuracy (pm_performance p))
             accuracy_compare_key) in Hhead as [Hin Hmax].
    apply elem_of_query in Hin as [Hk Hty%model_criteria_type].
    split; [done|]. split; [done|].
    intros k p Hp Hpty. apply Hmax, elem_of_query.
    split; [eauto|]. by apply model_criteria_type. }
  assert (getBestPredictiveModel E type m = None
          <-> forall k p,
                PREDICTIVE_MODELS_NS m !! k = Some p -> pm_type p <> type)
    as Hnone.
  { unfold getBestPredictiveModel, getPredictiveModel.
    destruct (length _ =? 0)%nat eqn:Hlen.
    - apply length_eqb_0 in Hlen. split; [intros _|done].
      intros k p Hp Hty.
      pose proof (proj1 (query_nil E _ _) Hlen k p Hp) as Hc.
      apply model_criteria_type in Hty. congruence.
    - split.
      + intros Hhead. exfalso.
        destruct (head_sort_is_Some
                    (fun a b : PredictiveModel =>
                       accuracy (pm_performance b)
                       - accuracy (pm_performance a))%Q
                    (memory.query E (PREDICTIVE_MODELS_NS m)
                       (model_criteria type None))) as [h Hh].
        * intros Hnil. apply length_eqb_0 in Hnil. congruence.
        * congruence.
      + intros Hall. exfalso.
        assert (memory.query E (PREDICTIVE_MODELS_NS m)
                  (model_criteria type None) = []) as Hnil.
        { apply query_nil. intros k p Hp.
          destruct (model_criteria type None p) eqn:Hc; [|done].
          apply model_criteria_type in Hc. by destruct (Hall k p Hp). }
        apply length_eqb_0 in Hnil. congruence. }
  split; [exact Hnone|]. split; [exact Hsome|].
  intros k best Hbest Hty Hstrict.
  destruct (getBestPredictiveModel E type m) as [b|] eqn:Hb.
  - destruct (Hsome b eq_refl) as ([kb Hkb] & Hbty & Hmax).
    f_equal. specialize (Hmax k best Hbest Hty).
    apply dec_stable. intros Hne.
    exact (Qlt_not_le _ _ (Hstrict kb b Hkb Hbty Hne) Hmax).
  - exfalso. exact (proj1 Hnone eq_refl k best Hbest Hty).
Qed.

Lemma analysis_criteria_spec database analysisType (a : DatabaseAnalysis) :
  analysis_criteria database (Some analysisType) a = true
  <-> da_database a = database /\ da_analysisType a = analysisType.
Proof.
  unfold analysis_criteria.
  by rewrite andb_true_iff, !bool_decide_eq_true.
Qed.

(** C5.  For every database tag and analysis kind,
    [getLatestDatabaseAnalysis] returns nothing exactly when the
    live-filtered query result ([getDatabaseAnalysis], the stored records
    of that database and kind with [validUntil > now]) is empty; otherwise
    it returns one of those live matching records, and its [analyzedAt] is
    at least that of every live matching record.  Hence a live matching
    record analysed strictly later than all the others is the one
    returned. *)
Theorem latest_analysis_selection
    (E : QueryEngine) (database : Database) (analysisType : AnalysisType)
    (now : Date) (m : DistributedMemorySystem) :
  let live := getDatabaseAnalysis E database (Some analysisType) now m in
  (forall a,
     a ∈ live
     <-> (exists k, DATABASE_ANALYSIS_NS m !! k = Some a)
         /\ da_database a = database
         /\ da_analysisType a = analysisType
         /\ now < da_validUntil a)
  /\ (getLatestDatabaseAnalysis E database analysisType now m = None
      <-> live = [])
  /\ (forall latest,
        getLatestDatabaseAnalysis E database analysisType now m
        = Some latest ->
        latest ∈ live
        /\ forall a, a ∈ live -> da_analyzedAt a <= da_analyzedAt latest)
  /\ (forall latest,
        latest ∈ live ->
        (forall a, a ∈ live -> a <> latest ->
                   da_analyzedAt a < da_analyzedAt latest) ->
        getLatestDatabaseAnalysis E database analysisType now m
        = Some latest).
Proof.
  intros live.
  assert (forall latest,
            getLatestDatabaseAnalysis E database analysisType now m
            = Some latest ->
            latest ∈ live
            /\ forall a, a ∈ live -> da_analyzedAt a <= da_analyzedAt latest)
    as Hsome.
  { intros latest. unfold getLatestDatabaseAnalysis. fold live.
    destruct (length live =? 0)%nat; [done|]. intros Hhead.
    apply (head_sort_max _ (fun a => inject_Z (da_analyzedAt a))
             analyzedAt_compare_key) in Hhead as [Hin Hmax].
    split; [done|]. intros a Ha. rewrite Zle_Qle. by apply Hmax. }
  assert (getLatestDatabaseAnalysis E database analysisType now m = None
          <-> live = []) as Hnone.
  { unfold getLatestDatabaseAnalysis. fold live.
    destruct (length live =? 0)%nat eqn:Hlen.
    - apply length_eqb_0 in Hlen. done.
    - split.
      + intros Hhead. exfalso.
        destruct (head_sort_is_Some
                    (fun a b : DatabaseAnalysis =>
                       inject_Z (da_analyzedAt b - da_analyzedAt a)) live)
          as [h Hh].
        * intros Hnil. apply length_eqb_0 in Hnil. congruence.
        * congruence.
      + intros Hnil. apply length_eqb_0 in Hnil. congruence. }
  split.
  { intros a. subst live. rewrite elem_of_getDatabaseAnalysis.
    rewrite analysis_criteria_spec. tauto. }
  split; [exact Hnone|]. split; [exact Hsome|].
  intros latest Hin Hstrict.
  destruct (getLatestDatabaseAnalysis E database analysisType now m)
    as [b|] eqn:Hb.
  - destruct (Hsome b eq_refl) as [Hbin Hmax].
    f_equal. specialize (Hmax latest Hin).
    apply dec_stable. intros Hne.
    specialize (Hstrict b Hbin Hne). lia.
  - exfalso. rewrite (proj1 Hnone eq_refl) in Hin.
    by apply elem_of_nil in Hin.
Qed.

(** ** Updating the performance of a model *)

(** C7.  When a model is stored under [modelId],
    [updateModelPerformance] writes back under that id the same model with
    its [performance] replaced and [lastValidated] set to [now]: every
    other field of the model, every other entry of the model namespace and
    every other namespace are unchanged.  When no model is stored under
    [modelId] the call returns normally and the store is unchanged. *)
Theorem updateModelPerformance_contract
    (modelId : string) (perf : ModelPerformance) (now : Date)
    (m : DistributedMemorySystem) :
  let m' := updateModelPerformance modelId perf now m in
  (forall model,
     PREDICTIVE_MODELS_NS m !! modelId = Some model ->
     (exists model',
        PREDICTIVE_MODELS_NS m' !! modelId = Some model'
        /\ pm_performance model' = perf
        /\ pm_lastValidated model' = now
        /\ pm_id model' = pm_id model
        /\ pm_name model' = pm_name model
        /\ pm_type model' = pm_type model
        /\ pm_algorithm model' = pm_algorithm model
        /\ pm_features model' = pm_features model
        /\ pm_trainingData model' = pm_trainingData model
        /\ pm_model model' = pm_model model
        /\ pm_version model' = pm_version model
        /\ pm_trainedAt model' = pm_trainedAt model)
     /\ (forall k, k <> modelId ->
                   PREDICTIVE_MODELS_NS m' !! k = PREDICTIVE_MODELS_NS m !! k)
     /\ VIEWPOINT_EXPERTISE_NS m' = VIEWPOINT_EXPERTISE_NS m
     /\ AR_WIZARD_KNOWLEDGE_NS m' = AR_WIZARD_KNOWLEDGE_NS m
     /\ DATABASE_ANALYSIS_NS m' = DATABASE_ANALYSIS_NS m
     /\ SHARED_CONTEXT_NS m' = SHARED_CONTEXT_NS m)
  /\ (PREDICTIVE_MODELS_NS m !! modelId = None -> m' = m).
Proof.
  intros m'. subst m'. unfold updateModelPerformance, memory.get, memory.store.
  split.
  - intros model ->. simpl. split.
    + exists (revalidate perf now model). rewrite lookup_insert_eq.
      repeat split.
    + split; [|done]. intros k Hk. by rewrite lookup_insert_ne.
  - by intros ->.
Qed.

(** ** Import *)

Section ImportFacts.
Context {A : Type} (id_of : A -> string).
Implicit Types (xs : list A) (t : gmap string A).

Lemma find_last_snoc (p : A -> bool) xs x :
  find_last p (xs ++ [x]) = if p x then Some x else find_last p xs.
Proof. unfold find_last. by rewrite rev_unit. Qed.

Lemma find_last_Some (p : A -> bool) xs x :
  find_last p xs = Some x -> x ∈ xs /\ p x = true.
Proof.
  unfold find_last. intros [Hin Hp]%find_some. split; [|done].
  by apply list_elem_of_In, in_rev.
Qed.

Lemma find_last_None (p : A -> bool) xs x :
  find_last p xs = None -> x ∈ xs -> p x = false.
Proof.
  unfold find_last. intros Hnone Hin.
  apply (find_none _ _ Hnone). rewrite <- in_rev. by apply list_elem_of_In.
Qed.

Lemma lookup_store_each xs t k :
  store_each id_of xs t !! k
  = match find_last (fun y => bool_decide (id_of y = k)) xs with
    | Some x => Some x
    | None => t !! k
    end.
Proof.
  unfold store_each, memory.store.
  induction xs as [|x xs IH] using rev_ind; [done|].
  rewrite foldl_app, find_last_snoc. simpl.
  case_bool_decide as Hx.
  - subst k. apply lookup_insert_eq.
  - by rewrite lookup_insert_ne.
Qed.

Lemma find_last_NoDup xs x :
  NoDup (id_of <$> xs) -> x ∈ xs ->
  find_last (fun y => bool_decide (id_of y = id_of x)) xs = Some x.
Proof.
  induction xs as [|z xs IH] using rev_ind.
  - intros _ Hin. by apply elem_of_nil in Hin.
  - rewrite fmap_app, find_last_snoc. simpl.
    intros [Hnd [Hdisj _]]%NoDup_app Hin.
    case_bool_decide as Hz.
    + apply elem_of_app in Hin as [Hin|Hin%list_elem_of_singleton];
        [|by subst].
      exfalso. apply (Hdisj (id_of x)).
      * by apply list_elem_of_fmap_2.
      * rewrite Hz. by left.
    + apply elem_of_app in Hin as [Hin|Hin%list_elem_of_singleton].
      * by apply IH.
      * by subst.
Qed.

Lemma store_each_merge xs t : merge_of id_of xs t (store_each id_of xs t).
Proof.
  split; [|split].
  - intros k Hk. rewrite lookup_store_each.
    destruct (find_last _ xs) as [x|] eqn:Hfind; [|done].
    apply find_last_Some in Hfind as [Hin Hid%bool_decide_eq_true].
    exfalso. apply Hk. subst k. by apply list_elem_of_fmap_2.
  - intros k [x [-> Hin]]%list_elem_of_fmap.
    rewrite lookup_store_each.
    destruct (find_last _ xs) as [y|] eqn:Hfind.
    + destruct (find_last_Some _ _ _ Hfind) as [Hy Hid%bool_decide_eq_true].
      by exists y.
    + apply (find_last_None _ _ x) in Hfind; [|done].
      by apply bool_decide_eq_false in Hfind.
  - intros Hnd x Hin. rewrite lookup_store_each.
    by rewrite find_last_NoDup.
Qed.
End ImportFacts.

(** C8.  [importKnowledgeBase] is a merge.  In each of the four
    namespaces the table after the import is the table before it merged
    with the snapshot's array for that namespace: an id that does not
    appear in the array holds exactly what it held before (the former
    record, or nothing); an id that appears in the array holds the
    snapshot's record for it, whatever was stored there before (when
    several records of the array share the id, the last of them).  The
    shared-context namespace is untouched. *)
Theorem import_is_merge
    (snapshot : KnowledgeBase) (m : DistributedMemorySystem) :
  let m' := importKnowledgeBase snapshot m in
  merge_of ve_id (or_empty (viewpointExpertise snapshot))
    (VIEWPOINT_EXPERTISE_NS m) (VIEWPOINT_EXPERTISE_NS m')
  /\ merge_of ak_id (or_empty (arWizardKnowledge snapshot))
       (AR_WIZARD_KNOWLEDGE_NS m) (AR_WIZARD_KNOWLEDGE_NS m')
  /\ merge_of da_id (or_empty (databaseAnalyses snapshot))
       (DATABASE_ANALYSIS_NS m) (DATABASE_ANALYSIS_NS m')
  /\ merge_of pm_id (or_empty (predictiveModels snapshot))
       (PREDICTIVE_MODELS_NS m) (PREDICTIVE_MODELS_NS m')
  /\ SHARED_CONTEXT_NS m' = SHARED_CONTEXT_NS m.
Proof.
  simpl. repeat split; try apply store_each_merge.
Qed.

(** C10.  [importKnowledgeBase] accepts a snapshot in which any of the
    four arrays is missing or [null].  A namespace whose array is absent
    is left exactly as it was; a namespace whose array is present is
    merged with that array, whatever the other three fields are: ids that
    do not appear in the array keep what they held, and every id that
    appears holds the snapshot's record afterwards.  The import is the
    import of the same snapshot with an empty array in place of each
    absent one, the shared contexts are untouched, and a snapshot with no
    array at all leaves the whole store unchanged. *)
Theorem import_partial_snapshot
    (snapshot : KnowledgeBase) (m : DistributedMemorySystem) :
  let m' := importKnowledgeBase snapshot m in
  m' = importKnowledgeBase (with_empty_arrays snapshot) m
  /\ (is_absent (viewpointExpertise snapshot) ->
      VIEWPOINT_EXPERTISE_NS m' = VIEWPOINT_EXPERTISE_NS m)
  /\ (is_absent (arWizardKnowledge snapshot) ->
      AR_WIZARD_KNOWLEDGE_NS m' = AR_WIZARD_KNOWLEDGE_NS m)
  /\ (is_absent (databaseAnalyses snapshot) ->
      DATABASE_ANALYSIS_NS m' = DATABASE_ANALYSIS_NS m)
  /\ (is_absent (predictiveModels snapshot) ->
      PREDICTIVE_MODELS_NS m' = PREDICTIVE_MODELS_NS m)
  /\ (forall items,
        viewpointExpertise snapshot = js_array items ->
        merge_of ve_id items
          (VIEWPOINT_EXPERTISE_NS m) (VIEWPOINT_EXPERTISE_NS m'))
  /\ (forall items,
        arWizardKnowledge snapshot = js_array items ->
        merge_of ak_id items
          (AR_WIZARD_KNOWLEDGE_NS m) (AR_WIZARD_KNOWLEDGE_NS m'))
  /\ (forall items,
        databaseAnalyses snapshot = js_array items ->
        merge_of da_id items
          (DATABASE_ANALYSIS_NS m) (DATABASE_ANALYSIS_NS m'))
  /\ (forall items,
        predictiveModels snapshot = js_array items ->
        merge_of pm_id items
          (PREDICTIVE_MODELS_NS m) (PREDICTIVE_MODELS_NS m'))
  /\ SHARED_CONTEXT_NS m' = SHARED_CONTEXT_NS m
  /\ (is_absent (viewpointExpertise snapshot) ->
      is_absent (arWizardKnowledge snapshot) ->
      is_absent (databaseAnalyses snapshot) ->
      is_absent (predictiveModels snapshot) ->
      m' = m).
Proof.
  intros m'. subst m'. unfold importKnowledgeBase, is_absent.
  destruct snapshot as [f1 f2 f3 f4]. cbn -[or_empty store_each merge_of].
  split; [done|].
  do 4 (split; [by intros [-> | ->]|]).
  do 4 (split; [intros items ->; apply store_each_merge|]).
  split; [done|].
  intros [-> | ->] [-> | ->] [-> | ->] [-> | ->]; by destruct m.
Qed.

(** ** Loops that update records and write them back *)

Section UpdateEach.
Context {A : Type} (id_of : A -> string).
Implicit Types (xs : list A) (t : gmap string A).

Lemma store_each_keyed xs t :
  keyed_by_id id_of t -> keyed_by_id id_of (store_each id_of xs t).
Proof.
  unfold store_each, memory.store.
  revert t. induction xs as [|x xs IH]; intros t Ht; simpl; [done|].
  apply IH. by apply map_Forall_insert_2.
Qed.

Lemma update_each_keyed (update : nat -> A -> A) i xs t :
  keyed_by_id id_of t ->
  keyed_by_id id_of (update_each id_of update i xs t).2.
Proof.
  revert i t. induction xs as [|x xs IH]; intros i t Ht; simpl; [done|].
  destruct (update_each id_of update (S i) xs
              (memory.store t (id_of (update i x)) (update i x)))
    as [rest' t''] eqn:Hrec.
  simpl. change t'' with (rest', t'').2. rewrite <- Hrec.
  apply IH. by apply map_Forall_insert_2.
Qed.

(** With an update that does not look at the iteration count, the loop
    maps the update over the array and writes the results in order. *)
Lemma update_each_const (f : A -> A) i xs t :
  update_each id_of (fun _ => f) i xs t
  = (f <$> xs, store_each id_of (f <$> xs) t).
Proof.
  revert i t. induction xs as [|x xs IH]; intros i t; simpl; [done|].
  by rewrite IH.
Qed.

(** Writing back updated copies of records that all came out of [t0],
    each under its own unchanged id. *)
Lemma lookup_store_each_updated (f : A -> A) xs t0 t k :
  (forall x, id_of (f x) = id_of x) ->
  (forall x, x ∈ xs -> t0 !! id_of x = Some x) ->
  store_each id_of (f <$> xs) t !! k
  = if decide (k ∈ id_of <$> xs) then f <$> t0 !! k else t !! k.
Proof.
  intros Hid. unfold store_each, memory.store.
  induction xs as [|x xs IH] using rev_ind; intros Hxs.
  - rewrite decide_False; [done|]. apply not_elem_of_nil.
  - rewrite !fmap_app, foldl_app. cbn [fmap list_fmap foldl]. rewrite Hid.
    destruct (decide (k = id_of x)) as [->|Hne].
    + rewrite lookup_insert_eq, decide_True.
      * rewrite Hxs; [done|]. apply elem_of_app. right. by left.
      * apply elem_of_app. right. by left.
    + rewrite lookup_insert_ne by done. rewrite IH.
      * destruct (decide (k ∈ id_of <$> xs)) as [Hin|Hnin].
        -- rewrite decide_True; [done|]. apply elem_of_app. by left.
        -- rewrite decide_False; [done|].
           rewrite elem_of_app, list_elem_of_singleton. by intros [?|?].
      * intros y Hy. apply Hxs, elem_of_app. by left.
Qed.

Lemma update_each_query (E : QueryEngine) (f : A -> A) (p : A -> bool) t :
  (forall x, id_of (f x) = id_of x) ->
  keyed_by_id id_of t ->
  update_each id_of (fun _ => f) 0%nat (memory.query E t p) t
  = (f <$> memory.query E t p, (fun x => if p x then f x else x) <$> t).
Proof.
  intros Hid Hkeyed. rewrite update_each_const. f_equal.
  apply map_eq. intros k.
  rewrite (lookup_store_each_updated f _ t t k Hid).
  - rewrite lookup_fmap.
    destruct (decide (k ∈ id_of <$> memory.query E t p)) as [Hin|Hnin].
    + apply list_elem_of_fmap in Hin as [x [-> Hx]].
      apply elem_of_query in Hx as [[k' Hk'] Hp].
      pose proof (Hkeyed _ _ Hk') as Hkey. simpl in Hkey. subst k'.
      rewrite Hk'. simpl. by rewrite Hp.
    + destruct (t !! k) as [x|] eqn:Hk; [|done]. simpl.
      destruct (p x) eqn:Hp; [|done].
      exfalso. apply Hnin.
      pose proof (Hkeyed _ _ Hk) as Hkey. simpl in Hkey. subst k.
      apply list_elem_of_fmap_2, elem_of_query. eauto.
  - intros x [[k' Hk'] _]%elem_of_query.
    pose proof (Hkeyed _ _ Hk') as Hkey. simpl in Hkey. by subst k'.
Qed.
End UpdateEach.

(** ** Rounding of JavaScript numbers *)

Section Rounding.

Lemma js_round_small z : Z.abs z <= 2 ^ 53 -> js_round z = z.
Proof. unfold js_round. intros H. apply Z.leb_le in H. by rewrite H. Qed.

Lemma log2_large z : 2 ^ 53 < Z.abs z -> 53 <= Z.log2 (Z.abs z).
Proof.
  intros H. change 53 with (Z.log2 (2 ^ 53)). apply Z.log2_le_mono. lia.
Qed.

Lemma ulp_large z : 2 ^ 53 < Z.abs z -> 2 <= ulp z /\ (2 | ulp z).
Proof.
  intros H%log2_large. unfold ulp.
  replace (Z.log2 (Z.abs z) - 52) with (1 + (Z.log2 (Z.abs z) - 53)) by lia.
  rewrite Z.pow_add_r by lia. change (2 ^ 1) with 2.
  assert (0 < 2 ^ (Z.log2 (Z.abs z) - 53)) by (apply Z.pow_pos_nonneg; lia).
  split; [lia|]. exists (2 ^ (Z.log2 (Z.abs z) - 53)). lia.
Qed.

(** Beyond [2^53] the result is one of the two neighbours of [z] among the
    multiples of [ulp z]. *)
Lemma js_round_large z :
  2 ^ 53 < Z.abs z ->
  js_round z = z / ulp z * ulp z \/ js_round z = z / ulp z * ulp z + ulp z.
Proof.
  intros H. unfold js_round.
  destruct (Z.leb_spec (Z.abs z) (2 ^ 53)); [lia|]. cbv zeta.
  destruct (_ <? _); [by left|].
  destruct (_ <? _); [by right|].
  destruct (Z.even _); [by left|by right].
Qed.

Lemma pow2_divide a b : 0 <= a <= b -> (2 ^ a | 2 ^ b).
Proof.
  intros H. exists (2 ^ (b - a)). rewrite <- Z.pow_add_r by lia.
  f_equal. lia.
Qed.

(** A multiple of [2^e] of magnitude at most [2^(53+e)] is held exactly. *)
Lemma js_exact_multiple e x :
  0 <= e -> Z.abs x <= 2 ^ (53 + e) -> (2 ^ e | x) -> js_round x = x.
Proof.
  intros He Hx Hdiv. unfold js_round.
  destruct (Z.leb_spec (Z.abs x) (2 ^ 53)) as [|Hbig]; [reflexivity|].
  cbv zeta.
  pose proof (log2_large x Hbig) as Hlog.
  pose proof (ulp_large x Hbig) as [Hu _].
  assert (Z.log2 (Z.abs x) <= 53 + e) as Hlog'.
  { rewrite <- (Z.log2_pow2 (53 + e)) by lia. apply Z.log2_le_mono. lia. }
  assert (ulp x | x) as Hux.
  { unfold ulp. destruct (Z_le_gt_dec (Z.log2 (Z.abs x) - 52) e) as [Hle|Hgt].
    - apply Z.divide_trans with (2 ^ e); [|assumption].
      apply pow2_divide. lia.
    - assert (Z.log2 (Z.abs x) = 53 + e) as Heq by lia.
      assert (2 ^ (53 + e) <= Z.abs x) as Hge.
      { rewrite <- Heq. apply Z.log2_spec. lia. }
      assert (Z.abs x = 2 ^ (53 + e)) as Habs by lia.
      apply Z.divide_abs_r. rewrite Heq, Habs. apply pow2_divide. lia. }
  assert (x / ulp x * ulp x = x) as Hlo.
  { apply Z.mod_divide in Hux; [|lia].
    pose proof (Z.div_mod x (ulp x)). lia. }
  rewrite Hlo. replace (x - x) with 0 by lia.
  destruct (Z.ltb_spec (2 * 0) (ulp x)); [reflexivity|lia].
Qed.

Lemma log2_bounds z :
  2 ^ 53 < Z.abs z ->
  let e := Z.log2 (Z.abs z) - 52 in
  1 <= e /\ 2 ^ (52 + e) <= Z.abs z < 2 ^ (53 + e).
Proof.
  intros H e. pose proof (log2_large z H). subst e.
  split; [lia|].
  replace (52 + (Z.log2 (Z.abs z) - 52)) with (Z.log2 (Z.abs z)) by lia.
  replace (53 + (Z.log2 (Z.abs z) - 52)) with (Z.succ (Z.log2 (Z.abs z)))
    by lia.
  apply Z.log2_spec. lia.
Qed.

(** What rounding returns is held exactly. *)
Lemma js_round_exact z : js_exact (js_round z).
Proof.
  unfold js_exact.
  destruct (Z_le_gt_dec (Z.abs z) (2 ^ 53)) as [Hsmall|Hbig].
  - rewrite !(js_round_small z) by assumption. reflexivity.
  - assert (2 ^ 53 < Z.abs z) as Hbig' by lia.
    destruct (log2_bounds z Hbig') as [He [Hlo Hhi]].
    set (e := Z.log2 (Z.abs z) - 52) in *.
    assert (ulp z = 2 ^ e) as Hu by reflexivity.
    assert (0 < 2 ^ e) as Hpos by (apply Z.pow_pos_nonneg; lia).
    assert (2 ^ (53 + e) = 2 ^ 53 * 2 ^ e) as Hsplit
      by (apply Z.pow_add_r; lia).
    assert (- 2 ^ 53 <= z / 2 ^ e <= 2 ^ 53 - 1) as Hq.
    { split.
      - apply Z.div_le_lower_bound; lia.
      - assert (z / 2 ^ e < 2 ^ 53); [|lia].
        apply Z.div_lt_upper_bound; lia. }
    assert (forall q, - 2 ^ 53 <= q <= 2 ^ 53 ->
                      js_round (q * 2 ^ e) = q * 2 ^ e) as Hgrid.
    { intros q Hq'. apply (js_exact_multiple e); [lia| |].
      - rewrite Hsplit, Z.abs_mul, (Z.abs_eq (2 ^ e)) by lia.
        apply Z.mul_le_mono_nonneg_r; lia.
      - apply Z.divide_factor_r. }
    destruct (js_round_large z Hbig') as [-> | ->]; rewrite Hu.
    + apply Hgrid. lia.
    + replace (z / 2 ^ e * 2 ^ e + 2 ^ e) with ((z / 2 ^ e + 1) * 2 ^ e) by lia.
      apply Hgrid. lia.
Qed.

Lemma js_exact_divide c : js_exact c -> 2 ^ 53 < Z.abs c -> (ulp c | c).
Proof.
  unfold js_exact. intros Hc Hbig.
  destruct (js_round_large c Hbig) as [H|H]; rewrite Hc in H.
  - rewrite H at 2. apply Z.divide_factor_r.
  - rewrite H at 2.
    replace (c / ulp c * ulp c + ulp c) with ((c / ulp c + 1) * ulp c) by lia.
    apply Z.divide_factor_r.
Qed.

(** [c + 1], rounded, is never below [c] when [c] is a JavaScript
    number. *)
Lemma js_round_succ_ge c : js_exact c -> c <= js_round (c + 1).
Proof.
  intros Hc.
  destruct (Z_le_gt_dec (Z.abs (c + 1)) (2 ^ 53)) as [Hsmall|Hbig].
  - rewrite js_round_small by assumption. lia.
  - assert (2 ^ 53 < Z.abs (c + 1)) as Hbig' by lia.
    pose proof (ulp_large (c + 1) Hbig') as [Hu _].
    assert (ulp (c + 1) | c) as [q Hq].
    { destruct (Z_le_gt_dec 0 c) as [Hpos|Hneg].
      - destruct (Z.eq_dec c (2 ^ 53)) as [->|Hne].
        + exists (2 ^ 52). reflexivity.
        + assert (2 ^ 53 < Z.abs c) as Hcbig by lia.
          pose proof (js_exact_divide c Hc Hcbig) as Hdiv.
          pose proof (ulp_large c Hcbig) as [_ Heven].
          assert (Z.log2 (Z.abs (c + 1)) = Z.log2 (Z.abs c)) as Hlog.
          { rewrite !Z.abs_eq by lia.
            destruct (Z.log2_succ_or c) as [Hs|Hs]; [|exact Hs].
            exfalso.
            destruct (Z.log2_eq_succ_is_pow2 c Hs) as [b Hb].
            assert (2 | c) as [j Hj]
              by (apply Z.divide_trans with (ulp c); assumption).
            destruct (Z_le_gt_dec b 0) as [Hb0|Hb1].
            - assert (2 ^ b <= 1); [|lia].
              destruct (Z.eq_dec b 0) as [->|]; [reflexivity|].
              rewrite Z.pow_neg_r by lia. lia.
            - assert (2 | 2 ^ b) as [i Hi].
              { exists (2 ^ (b - 1)). rewrite Z.mul_comm.
                rewrite <- Z.pow_succ_r by lia. f_equal. lia. }
              lia. }
          unfold ulp. rewrite Hlog. exact Hdiv.
      - assert (2 ^ 53 < Z.abs c) as Hcbig by lia.
        pose proof (js_exact_divide c Hc Hcbig) as Hdiv.
        apply Z.divide_trans with (ulp c); [|assumption].
        unfold ulp. apply pow2_divide.
        pose proof (log2_large _ Hbig').
        split; [lia|]. apply Z.sub_le_mono_r. apply Z.log2_le_mono. lia. }
    assert (c <= (c + 1) / ulp (c + 1) * ulp (c + 1)) as Hlo.
    { rewrite Hq at 1. apply Z.mul_le_mono_nonneg_r; [lia|].
      apply Z.div_le_lower_bound; lia. }
    destruct (js_round_large (c + 1) Hbig') as [-> | ->]; lia.
Qed.

Lemma js_round_succ c : increments_exact 1 c -> js_round (c + 1) = c + 1.
Proof. intros [Hlo Hhi]. apply js_round_small. lia. Qed.

Lemma increments_exact_S n c :
  increments_exact (S n) c ->
  increments_exact n c /\ increments_exact 1 (c + Z.of_nat n).
Proof. unfold increments_exact. lia. Qed.

End Rounding.

(** ** Usage counts of the expertise records *)

Section Usage.
Context (E : QueryEngine).
Implicit Types (t : gmap string ViewpointExpertise) (e r : ViewpointExpertise).

Lemma ve_id_increment_usage e : ve_id (increment_usage e) = ve_id e.
Proof. done. Qed.

Lemma expertise_criteria_increment_usage domain type e :
  expertise_criteria domain type (increment_usage e)
  = expertise_criteria domain type e.
Proof. done. Qed.

Lemma iter_increment_usage n e :
  ve_id (Nat.iter n increment_usage e) = ve_id e
  /\ (forall domain type,
        expertise_criteria domain type (Nat.iter n increment_usage e)
        = expertise_criteria domain type e).
Proof.
  induction n as [|n (IH1 & IH2)]; simpl; [done|].
  split; [done|]. intros domain type.
  by rewrite expertise_criteria_increment_usage.
Qed.

(** As long as the counts stay within [2^53], [n] increments add [n]. *)
Lemma iter_increment_usage_count n e :
  increments_exact n (ve_usageCount e) ->
  ve_usageCount (Nat.iter n increment_usage e)
  = ve_usageCount e + Z.of_nat n.
Proof.
  induction n as [|n IH]; intros Hn; [simpl; lia|].
  apply increments_exact_S in Hn as [Hn H1].
  rewrite Nat.iter_succ. cbn [increment_usage ve_usageCount].
  rewrite IH by done. rewrite js_round_succ by done. lia.
Qed.

Lemma getViewpointExpertise_keyed domain type m :
  keyed_by_id ve_id (VIEWPOINT_EXPERTISE_NS m) ->
  getViewpointExpertise E domain type m
  = (increment_usage
       <$> memory.query E (VIEWPOINT_EXPERTISE_NS m)
             (expertise_criteria domain type),
     with_expertise
       ((fun e => if expertise_criteria domain type e
                  then increment_usage e else e)
          <$> VIEWPOINT_EXPERTISE_NS m) m).
Proof.
  intros Hkeyed. unfold getViewpointExpertise.
  by rewrite (update_each_query ve_id E increment_usage _ _
                ve_id_increment_usage Hkeyed).
Qed.

Lemma total_usage_fmap (g : ViewpointExpertise -> ViewpointExpertise) m :
  total_usage (with_expertise (g <$> VIEWPOINT_EXPERTISE_NS m) m)
  = foldr Z.add 0
      (ve_usageCount ∘ g ∘ snd <$> map_to_list (VIEWPOINT_EXPERTISE_NS m)).
Proof.
  unfold total_usage. simpl.
  rewrite map_to_list_fmap, <- list_fmap_compose.
  by erewrite list_fmap_ext; [|intros i [k e] _; reflexivity].
Qed.

Lemma sum_bumped (p : ViewpointExpertise -> bool) (n : nat)
    (l : list (string * ViewpointExpertise)) :
  Forall (fun kr => p kr.2 = true -> increments_exact n (ve_usageCount kr.2))
    l ->
  foldr Z.add 0
    (ve_usageCount
     ∘ (fun e => if p e then Nat.iter n increment_usage e else e)
     ∘ snd <$> l)
  = foldr Z.add 0 (ve_usageCount ∘ snd <$> l)
    + Z.of_nat n * Z.of_nat (length (List.filter p (snd <$> l))).
Proof.
  induction l as [|[k e] l IH]; intros Hl; [simpl; lia|].
  apply Forall_cons in Hl as [He Hl]. simpl in He.
  rewrite !fmap_cons. cbn [foldr List.filter]. rewrite IH by done.
  unfold compose at 1 2 4. cbn [snd].
  destruct (p e); cbn [length]; [|lia].
  rewrite iter_increment_usage_count by (by apply He). lia.
Qed.

Lemma with_expertise_twice t t' m :
  with_expertise t (with_expertise t' m) = with_expertise t m.
Proof. done. Qed.

Lemma VIEWPOINT_EXPERTISE_NS_with t m :
  VIEWPOINT_EXPERTISE_NS (with_expertise t m) = t.
Proof. done. Qed.

Lemma keyed_by_id_bumped (p : ViewpointExpertise -> bool) n t :
  keyed_by_id ve_id t ->
  keyed_by_id ve_id
    ((fun e => if p e then Nat.iter n increment_usage e else e) <$> t).
Proof.
  intros Hkeyed. apply map_Forall_fmap. intros k e Hk. simpl.
  destruct (p e); [|by apply Hkeyed].
  destruct (iter_increment_usage n e) as (-> & _). by apply Hkeyed.
Qed.

(** [n] identical calls in a row. *)
Lemma iter_getViewpointExpertise domain type m n :
  keyed_by_id ve_id (VIEWPOINT_EXPERTISE_NS m) ->
  Nat.iter n (fun m => (getViewpointExpertise E domain type m).2) m
  = with_expertise
      ((fun e => if expertise_criteria domain type e
                 then Nat.iter n increment_usage e else e)
         <$> VIEWPOINT_EXPERTISE_NS m) m.
Proof.
  intros Hkeyed. induction n as [|n IH].
  - simpl. rewrite (map_fmap_ext _ id).
    + rewrite map_fmap_id. by destruct m.
    + intros k e _. by destruct (expertise_criteria domain type e).
  - rewrite Nat.iter_succ, IH.
    rewrite getViewpointExpertise_keyed
      by (simpl; by apply keyed_by_id_bumped).
    cbn [snd]. rewrite with_expertise_twice, VIEWPOINT_EXPERTISE_NS_with.
    rewrite <- map_fmap_compose. f_equal.
    apply map_fmap_ext. intros k e _. simpl.
    destruct (expertise_criteria domain type e) eqn:Hp; [|by rewrite Hp].
    destruct (iter_increment_usage n e) as (_ & ->). by rewrite Hp.
Qed.

Lemma query_length_bumped domain type n t :
  length (memory.query E
            ((fun e => if expertise_criteria domain type e
                       then Nat.iter n increment_usage e else e) <$> t)
            (expertise_criteria domain type))
  = length (memory.query E t (expertise_criteria domain type)).
Proof.
  rewrite !query_length.
  rewrite map_to_list_fmap, <- list_fmap_compose.
  induction (map_to_list t) as [|[k e] l IH]; [done|].
  rewrite !fmap_cons. cbn [List.filter]. unfold compose at 1.
  cbn [snd fst prod_map].
  destruct (expertise_criteria domain type e) eqn:Hp.
  - destruct (iter_increment_usage n e) as (_ & ->).
    rewrite Hp. cbn [length]. by rewrite IH.
  - by rewrite Hp.
Qed.

(** The matching records of a table, as a condition on its entries. *)
Lemma matching_counts (p : ViewpointExpertise -> bool) (n : nat) t :
  (forall k e, t !! k = Some e -> p e = true ->
               increments_exact n (ve_usageCount e)) ->
  Forall (fun kr => p kr.2 = true -> increments_exact n (ve_usageCount kr.2))
    (map_to_list t).
Proof.
  intros Hsafe. apply Forall_forall. intros [k e] Hin%elem_of_map_to_list.
  simpl. by apply (Hsafe k).
Qed.
End Usage.

(** C3, as amended.  On a store in which every expertise record sits under
    its own id (the only stores the manager builds), a call
    [getViewpointExpertise domain type] returns exactly the stored records
    that match, each with its [usageCount] incremented, and has persisted
    each of them: after the call the expertise namespace holds every
    matching record incremented and every other record unchanged, and the
    other namespaces are untouched.  The increment changes no other field
    and raises a count by exactly 1 as long as the count is an integer
    from [-2^53] to [2^53 - 1]; it never lowers a count that is a
    JavaScript number.  When the counts of the matching records are in
    that range, the sum of the stored counts grows by the number of
    records returned;
    [n] identical calls in a row return the same number of records each
    time and, when the counts of the matching records stay within [2^53],
    raise each of them by [n] and the sum of the stored counts by [n]
    times that number. *)
Theorem getViewpointExpertise_usage_count
    (E : QueryEngine) (domain : ExpertiseDomain)
    (type : option ExpertiseType) (m : DistributedMemorySystem) :
  keyed_by_id ve_id (VIEWPOINT_EXPERTISE_NS m) ->
  let matches := expertise_criteria domain type in
  let call := getViewpointExpertise E domain type in
  let returned := (call m).1 in
  let m' := (call m).2 in
  let counts_within (n : nat) :=
    forall k e,
      VIEWPOINT_EXPERTISE_NS m !! k = Some e -> matches e = true ->
      increments_exact n (ve_usageCount e) in
  (forall r,
     r ∈ returned
     <-> exists e,
           VIEWPOINT_EXPERTISE_NS m !! ve_id r = Some e
           /\ matches e = true /\ r = increment_usage e)
  /\ (forall r, r ∈ returned -> VIEWPOINT_EXPERTISE_NS m' !! ve_id r = Some r)
  /\ (forall k,
        VIEWPOINT_EXPERTISE_NS m' !! k
        = (fun e => if matches e then increment_usage e else e)
            <$> VIEWPOINT_EXPERTISE_NS m !! k)
  /\ (AR_WIZARD_KNOWLEDGE_NS m' = AR_WIZARD_KNOWLEDGE_NS m
      /\ DATABASE_ANALYSIS_NS m' = DATABASE_ANALYSIS_NS m
      /\ PREDICTIVE_MODELS_NS m' = PREDICTIVE_MODELS_NS m
      /\ SHARED_CONTEXT_NS m' = SHARED_CONTEXT_NS m)
  /\ (forall e,
        same_but_usageCount e (increment_usage e)
        /\ (increments_exact 1 (ve_usageCount e) ->
            ve_usageCount (increment_usage e) = ve_usageCount e + 1)
        /\ (js_exact (ve_usageCount e) ->
            ve_usageCount e <= ve_usageCount (increment_usage e)))
  /\ (counts_within 1%nat ->
      total_usage m' = total_usage m + Z.of_nat (length returned))
  /\ forall n : nat,
       let mn := Nat.iter n (fun m0 => (call m0).2) m in
       length (call mn).1 = length returned
       /\ (counts_within n ->
           total_usage mn
           = total_usage m + Z.of_nat n * Z.of_nat (length returned)
           /\ forall k e,
                VIEWPOINT_EXPERTISE_NS m !! k = Some e -> matches e = true ->
                ve_usageCount <$> VIEWPOINT_EXPERTISE_NS mn !! k
                = Some (ve_usageCount e + Z.of_nat n)).
Proof.
  intros Hkeyed matches call returned m' counts_within.
  assert (forall n : nat,
            let mn := Nat.iter n (fun m0 => (call m0).2) m in
            length (call mn).1 = length returned
            /\ (counts_within n ->
                total_usage mn
                = total_usage m + Z.of_nat n * Z.of_nat (length returned)
                /\ forall k e,
                     VIEWPOINT_EXPERTISE_NS m !! k = Some e ->
                     matches e = true ->
                     ve_usageCount <$> VIEWPOINT_EXPERTISE_NS mn !! k
                     = Some (ve_usageCount e + Z.of_nat n))) as Hiter.
  { intros n mn. subst mn call returned matches counts_within.
    rewrite (iter_getViewpointExpertise E domain type m n Hkeyed).
    rewrite !getViewpointExpertise_keyed
      by (done || (simpl; by apply keyed_by_id_bumped)).
    cbn [fst]. rewrite VIEWPOINT_EXPERTISE_NS_with, !length_fmap.
    split; [apply query_length_bumped|]. intros Hwithin. split.
    - rewrite total_usage_fmap, sum_bumped, query_length; [done|].
      by apply matching_counts.
    - intros k e Hk Hp. rewrite lookup_fmap, Hk. simpl. rewrite Hp.
      rewrite iter_increment_usage_count; [done|]. by eapply Hwithin. }
  subst m' returned call matches.
  rewrite getViewpointExpertise_keyed by done.
  cbn [fst snd]. rewrite VIEWPOINT_EXPERTISE_NS_with.
  split; [|split; [|split; [|split; [|split; [|split]]]]].
  - intros r. rewrite list_elem_of_fmap. split.
    + intros [e [-> [[k Hk] Hp]%elem_of_query]]. exists e.
      pose proof (Hkeyed _ _ Hk) as Hkey. simpl in Hkey.
      rewrite ve_id_increment_usage, Hkey. done.
    + intros (e & He & Hp & ->). exists e. split; [done|].
      apply elem_of_query. eauto.
  - intros r [e [-> [[k Hk] Hp]%elem_of_query]]%list_elem_of_fmap.
    pose proof (Hkeyed _ _ Hk) as Hkey. simpl in Hkey.
    rewrite lookup_fmap, ve_id_increment_usage, Hkey, Hk. simpl.
    by rewrite Hp.
  - intros k. apply lookup_fmap.
  - done.
  - intros e. split; [by repeat split|]. split.
    + intros H1. cbn [increment_usage ve_usageCount]. by apply js_round_succ.
    + intros Hexact. cbn [increment_usage ve_usageCount].
      by apply js_round_succ_ge.
  - intros Hwithin. specialize (Hiter 1%nat). simpl in Hiter.
    destruct Hiter as (_ & Hiter).
    destruct (Hiter Hwithin) as (Htotal & _).
    rewrite getViewpointExpertise_keyed in Htotal by done.
    cbn [fst snd] in Htotal. rewrite Htotal. lia.
  - intros n. specialize (Hiter n).
    rewrite getViewpointExpertise_keyed in Hiter by done. exact Hiter.
Qed.

(** ** The invariant of the manager: records sit under their own id *)

Section WellKeyed.
Context (E : QueryEngine).

Lemma empty_memory_well_keyed : well_keyed empty_memory.
Proof. repeat split; apply map_Forall_empty. Qed.

Lemma delete_if_expired_keyed now (l : list DatabaseAnalysis)
    (t : gmap string DatabaseAnalysis) :
  keyed_by_id da_id t ->
  keyed_by_id da_id (foldl (delete_if_expired now) t l).
Proof.
  revert t. induction l as [|a l IH]; intros t Ht; simpl; [done|].
  apply IH. unfold delete_if_expired, memory.delete.
  destruct (da_validUntil a <=? now); [|done].
  by apply map_Forall_delete.
Qed.

Lemma run_well_keyed c m : well_keyed m -> well_keyed (run E c m).
Proof.
  intros (Hve & Hak & Hda & Hpm).
  destruct c; simpl; try by repeat split.
  - repeat split; try done. by apply map_Forall_insert_2.
  - unfold getViewpointExpertise.
    pose proof (update_each_keyed ve_id (fun _ => increment_usage) 0
                  (memory.query E (VIEWPOINT_EXPERTISE_NS m)
                     (expertise_criteria domain type)) _ Hve) as Hkeyed.
    destruct (update_each _ _ _ _ _) as [xs t]. by repeat split.
  - repeat split; try done. by apply map_Forall_insert_2.
  - unfold getARWizardKnowledge.
    pose proof (update_each_keyed ak_id (fun i => touch (clock i)) 0
                  (memory.query E (AR_WIZARD_KNOWLEDGE_NS m)
                     (fun k => bool_decide (ak_category k = category)))
                  _ Hak) as Hkeyed.
    destruct (update_each _ _ _ _ _) as [xs t]. by repeat split.
  - repeat split; try done. by apply map_Forall_insert_2.
  - repeat split; try done. by apply map_Forall_insert_2.
  - unfold updateModelPerformance, memory.get, memory.store.
    destruct (PREDICTIVE_MODELS_NS m !! modelId) as [model|] eqn:Hmodel;
      [|by repeat split].
    repeat split; try done. apply map_Forall_insert_2; [|done].
    simpl. by apply (Hpm _ _ Hmodel).
  - unfold getSharedContext, memory.get.
    destruct (SHARED_CONTEXT_NS m !! key) as [r|]; [|by repeat split].
    simpl. destruct (ttl r <? now - timestamp r); by repeat split.
  - unfold importKnowledgeBase. simpl.
    repeat split; by apply store_each_keyed.
  - repeat split; try done. by apply delete_if_expired_keyed.
Qed.

(** Every store the manager builds from an empty one is well keyed. *)
Lemma run_all_well_keyed calls m :
  well_keyed m -> well_keyed (run_all E calls m).
Proof.
  unfold run_all. revert m.
  induction calls as [|c calls IH]; intros m Hm; simpl; [done|].
  by apply IH, run_well_keyed.
Qed.

Lemma reachable_well_keyed calls :
  well_keyed (run_all E calls empty_memory).
Proof. apply run_all_well_keyed, empty_memory_well_keyed. Qed.

End WellKeyed.

(** ** What a query returns from a keyed table *)

Section QueryIds.
Context (E : QueryEngine) {A : Type} (id_of : A -> string).
Implicit Types (t : gmap string A) (p : A -> bool).

Lemma NoDup_fmap_filter {B : Type} (f : A -> B) p (l : list A) :
  NoDup (f <$> l) -> NoDup (f <$> List.filter p l).
Proof.
  induction l as [|x l IH]; simpl; [done|].
  rewrite NoDup_cons. intros [Hx Hl].
  destruct (p x); [|by apply IH].
  rewrite fmap_cons, NoDup_cons. split; [|by apply IH].
  intros [y [Hy Hin]]%list_elem_of_fmap. apply Hx.
  apply list_elem_of_fmap. exists y. split; [done|].
  by apply list_elem_of_In, filter_In in Hin as [Hin%list_elem_of_In _].
Qed.

(** The records a query returns from a keyed table have distinct ids. *)
Lemma query_ids_NoDup t p :
  keyed_by_id id_of t -> NoDup (id_of <$> memory.query E t p).
Proof.
  intros Hkeyed. unfold memory.query. apply NoDup_fmap_filter.
  rewrite <- list_fmap_compose.
  rewrite (list_fmap_ext (id_of ∘ snd) fst (enum E A t)).
  - rewrite (enum_perm E A t). apply NoDup_fst_map_to_list.
  - intros i [k r] Hi. simpl.
    apply (Hkeyed k r). apply (elem_of_enum E).
    apply list_elem_of_lookup. eauto.
Qed.

Lemma query_id_lookup t p x :
  keyed_by_id id_of t -> x ∈ memory.query E t p -> t !! id_of x = Some x.
Proof.
  intros Hkeyed [[k Hk] _]%elem_of_query.
  by rewrite (Hkeyed _ _ Hk).
Qed.

(** The loop in general: the [j]-th element gets update number [i + j]. *)
Lemma update_each_imap (update : nat -> A -> A) i (xs : list A) t :
  update_each id_of update i xs t
  = (imap (fun j => update (i + j)%nat) xs,
     store_each id_of (imap (fun j => update (i + j)%nat) xs) t).
Proof.
  revert i t. induction xs as [|x xs IH]; intros i t; [done|].
  assert (imap (fun j => update (S i + j)%nat) xs
          = imap ((fun j => update (i + j)%nat) ∘ S) xs) as Hext.
  { apply imap_ext. intros j y _. simpl. f_equal. lia. }
  cbn [update_each]. rewrite IH, imap_cons, <- Hext, Nat.add_0_r.
  reflexivity.
Qed.
End QueryIds.

(** ** Calls in progress *)

(** A loop that updates records and writes them back, run to its end
    with no other call in between, is the loop [update_each]. *)
Section Loops.
Context {A : Type} (ns : DistributedMemorySystem -> gmap string A)
  (with_ns : gmap string A -> DistributedMemorySystem
             -> DistributedMemorySystem)
  (id_of : A -> string).
Hypothesis with_with :
  forall t t' m, with_ns t (with_ns t' m) = with_ns t m.
Hypothesis ns_with : forall t m, ns (with_ns t m) = t.
Hypothesis with_same : forall m, with_ns (ns m) m = m.

Lemma complete_update_each (update : nat -> A -> A) i xs rest m :
  complete
    (await_each
       (fun j x m0 =>
          with_ns (memory.store (ns m0) (id_of (update j x)) (update j x)) m0)
       i xs rest) m
  = complete rest (with_ns (update_each id_of update i xs (ns m)).2 m).
Proof.
  revert i m. induction xs as [|x xs IH]; intros i m.
  - simpl. by rewrite with_same.
  - cbn [await_each await_write complete update_each]. rewrite IH.
    rewrite ns_with, with_with.
    by destruct (update_each id_of update (S i) xs _).
Qed.

Lemma complete_store_each i xs rest m :
  complete
    (await_each
       (fun _ x m0 => with_ns (memory.store (ns m0) (id_of x) x) m0)
       i xs rest) m
  = complete rest (with_ns (store_each id_of xs (ns m)) m).
Proof.
  rewrite (complete_update_each (fun _ x => x)).
  by rewrite (update_each_const id_of (fun x => x)), list_fmap_id.
Qed.
End Loops.

Section Completion.
Context (E : QueryEngine).

Lemma complete_delete_expired now xs rest m :
  complete (delete_expired now xs rest) m
  = complete rest
      (with_analyses
         (foldl (delete_if_expired now) (DATABASE_ANALYSIS_NS m) xs) m).
Proof.
  revert m. induction xs as [|a xs IH]; intros m.
  - simpl. by destruct m.
  - cbn [delete_expired foldl]. unfold delete_if_expired at 2.
    destruct (da_validUntil a <=? now).
    + cbn [await_write complete]. by rewrite IH.
    + apply IH.
Qed.

Lemma complete_write_back_expertise
    (update : nat -> ViewpointExpertise -> ViewpointExpertise) i xs rest m :
  complete
    (await_each (fun j x => store_expertise (update j x)) i xs rest) m
  = complete rest
      (with_expertise
         (update_each ve_id update i xs (VIEWPOINT_EXPERTISE_NS m)).2 m).
Proof.
  apply (complete_update_each VIEWPOINT_EXPERTISE_NS with_expertise ve_id);
    done || by intros [].
Qed.

Lemma complete_write_back_knowledge
    (update : nat -> ARWizardKnowledge -> ARWizardKnowledge) i xs rest m :
  complete
    (await_each (fun j x => store_knowledge (update j x)) i xs rest) m
  = complete rest
      (with_knowledge
         (update_each ak_id update i xs (AR_WIZARD_KNOWLEDGE_NS m)).2 m).
Proof.
  apply (complete_update_each AR_WIZARD_KNOWLEDGE_NS with_knowledge ak_id);
    done || by intros [].
Qed.

Lemma complete_import snapshot m :
  complete (importKnowledgeBase_thread snapshot) m
  = importKnowledgeBase snapshot m.
Proof.
  unfold importKnowledgeBase_thread, importKnowledgeBase.
  etrans;
    [apply (complete_store_each VIEWPOINT_EXPERTISE_NS with_expertise ve_id);
     done || by intros []|].
  etrans;
    [apply (complete_store_each AR_WIZARD_KNOWLEDGE_NS with_knowledge ak_id);
     done || by intros []|].
  etrans;
    [apply (complete_store_each DATABASE_ANALYSIS_NS with_analyses da_id);
     done || by intros []|].
  etrans;
    [apply (complete_store_each PREDICTIVE_MODELS_NS with_models pm_id);
     done || by intros []|].
  reflexivity.
Qed.

(** A call that runs to its end with no other call in between does what
    the method does as a whole. *)
Lemma complete_thread_of c m : complete (thread_of E c) m = run E c m.
Proof.
  destruct c; try reflexivity.
  - cbn [thread_of run]. unfold getViewpointExpertise_thread,
      write_back_usage, getViewpointExpertise.
    cbn [await_read complete].
    etrans;
      [apply (complete_write_back_expertise (fun _ => increment_usage))|].
    by destruct (update_each _ _ _ _ _).
  - cbn [thread_of run]. unfold getARWizardKnowledge_thread,
      getARWizardKnowledge.
    cbn [await_read complete].
    etrans;
      [apply (complete_write_back_knowledge (fun i => touch (clock i)))|].
    by destruct (update_each _ _ _ _ _).
  - cbn [thread_of run]. unfold updateModelPerformance_thread,
      updateModelPerformance.
    cbn [await_read complete].
    by destruct (memory.get _ _).
  - cbn [thread_of run]. unfold getSharedContext_thread, getSharedContext.
    cbn [await_read complete].
    destruct (memory.get _ _) as [r|]; [|done].
    by destruct (ttl r <? now - timestamp r).
  - apply complete_import.
  - cbn [thread_of run]. unfold performMaintenance_thread,
      cleanupExpiredAnalyses_thread, performMaintenance,
      cleanupExpiredAnalyses, optimizeMemoryUsage.
    cbn [await_read complete]. by rewrite complete_delete_expired.
Qed.
End Completion.

(** ** Overlapping calls keep the records under their ids *)

Section OverlapKeyed.
Context (E : QueryEngine).

Lemma keeps_well_keyed_await_each {A : Type}
    (operation : nat -> A -> DistributedMemorySystem
                 -> DistributedMemorySystem) i xs rest :
  (forall j x m, well_keyed m -> well_keyed (operation j x m)) ->
  keeps_well_keyed rest -> keeps_well_keyed (await_each operation i xs rest).
Proof.
  intros Hop Hrest. revert i.
  induction xs as [|x xs IH]; intros i; [done|].
  cbn [await_each await_write keeps_well_keyed]. split; [apply Hop|].
  intros _ _. apply IH.
Qed.

Lemma keeps_well_keyed_delete_expired now xs rest :
  keeps_well_keyed rest -> keeps_well_keyed (delete_expired now xs rest).
Proof.
  intros Hrest. induction xs as [|a xs IH]; [done|].
  cbn [delete_expired]. destruct (da_validUntil a <=? now); [|done].
  cbn [await_write keeps_well_keyed]. split; [|done].
  intros m (Hve & Hak & Hda & Hpm). repeat split; try done.
  by apply map_Forall_delete.
Qed.

Lemma thread_of_keeps_well_keyed c : keeps_well_keyed (thread_of E c).
Proof.
  destruct c; cbn [thread_of];
    try (cbn [await_write await_read keeps_well_keyed];
         repeat (split; [done|intros _ _]); done);
    try (cbn [await_write keeps_well_keyed]; split; [|done];
         intros m; apply (run_well_keyed E)).
  - unfold getViewpointExpertise_thread, write_back_usage.
    cbn [await_read keeps_well_keyed]. split; [done|]. intros m _.
    apply keeps_well_keyed_await_each; [|done].
    intros _ x m' (Hve & Hak & Hda & Hpm). repeat split; try done.
    by apply map_Forall_insert_2.
  - unfold getARWizardKnowledge_thread.
    cbn [await_read keeps_well_keyed]. split; [done|]. intros m _.
    apply keeps_well_keyed_await_each; [|done].
    intros j x m' (Hve & Hak & Hda & Hpm). repeat split; try done.
    by apply map_Forall_insert_2.
  - unfold updateModelPerformance_thread.
    cbn [await_read keeps_well_keyed]. split; [done|].
    intros m (_ & _ & _ & Hpm0). unfold memory.get.
    destruct (PREDICTIVE_MODELS_NS m !! modelId) as [model|] eqn:Hmodel;
      [|done].
    cbn [await_write keeps_well_keyed]. split; [|done].
    intros m' (Hve & Hak & Hda & Hpm). repeat split; try done.
    apply map_Forall_insert_2; [|done]. simpl. by apply (Hpm0 _ _ Hmodel).
  - unfold getSharedContext_thread.
    cbn [await_read keeps_well_keyed]. split; [done|]. intros m _.
    destruct (memory.get _ _) as [r|]; [|done].
    destruct (ttl r <? now - timestamp r); [|done].
    cbn [await_write keeps_well_keyed]. split; [|done].
    by intros m' (Hve & Hak & Hda & Hpm).
  - unfold importKnowledgeBase_thread.
    repeat (apply keeps_well_keyed_await_each;
            [intros _ x m (Hve & Hak & Hda & Hpm); repeat split; try done;
             by apply map_Forall_insert_2|]).
    done.
  - unfold performMaintenance_thread, cleanupExpiredAnalyses_thread.
    cbn [await_read keeps_well_keyed]. split; [done|]. intros m _.
    apply keeps_well_keyed_delete_expired.
    cbn [await_read keeps_well_keyed]. by split.
Qed.

Lemma step_well_keyed s ev :
  well_keyed (stored s) ->
  Forall (fun task => keeps_well_keyed task.2) (calls s) ->
  well_keyed (stored (step E s ev))
  /\ Forall (fun task => keeps_well_keyed task.2) (calls (step E s ev)).
Proof.
  intros Hkeyed Htasks. destruct ev as [c|i]; cbn [step].
  - split; [done|]. cbn [calls]. apply Forall_app. split; [done|].
    apply Forall_singleton. apply thread_of_keeps_well_keyed.
  - destruct (calls s !! i) as [[c t]|] eqn:Hi; [|done].
    destruct t as [|operation rest]; [done|].
    destruct (Forall_lookup_1 _ _ _ _ Htasks Hi) as [Hop Hrest].
    cbn [stored calls]. split; [by apply Hop|].
    apply Forall_insert; [done|]. by apply Hrest.
Qed.

(** Whatever calls are made and however they overlap, a store that
    starts out empty has every record under its own id. *)
Lemma execute_well_keyed events :
  well_keyed
    (stored (execute E events {| stored := empty_memory; calls := [] |})).
Proof.
  assert (forall s,
            well_keyed (stored s) ->
            Forall (fun task => keeps_well_keyed task.2) (calls s) ->
            well_keyed (stored (execute E events s))) as Hall.
  { induction events as [|ev events IH]; intros s Hkeyed Htasks; [done|].
    cbn [execute foldl].
    destruct (step_well_keyed s ev Hkeyed Htasks) as [Hkeyed' Htasks'].
    by apply IH. }
  apply Hall; [apply empty_memory_well_keyed|constructor].
Qed.
End OverlapKeyed.

(** ** Overlapping calls and the usage count of one record *)

Section Overlap.
Context (E : QueryEngine) (k : string).
Implicit Types (m : DistributedMemorySystem) (t : Thread) (c : Call)
  (s : Execution).

Lemma untouched_operation
    (operation : DistributedMemorySystem -> DistributedMemorySystem) :
  (forall m, VIEWPOINT_EXPERTISE_NS (operation m) = VIEWPOINT_EXPERTISE_NS m) ->
  forall m,
    VIEWPOINT_EXPERTISE_NS (operation m) !! k = VIEWPOINT_EXPERTISE_NS m !! k
    /\ (expertise_in_order m -> expertise_in_order (operation m)).
Proof.
  intros Hsame m. split; [by rewrite Hsame|].
  unfold expertise_in_order, usage_counts_exact. by rewrite Hsame.
Qed.

Lemma store_expertise_in_order x m :
  js_exact (ve_usageCount x) ->
  expertise_in_order m -> expertise_in_order (store_expertise x m).
Proof.
  intros Hx [Hkeyed Hexact]. split.
  - by apply map_Forall_insert_2.
  - by apply map_Forall_insert_2.
Qed.

Lemma store_expertise_other x m :
  ve_id x <> k ->
  VIEWPOINT_EXPERTISE_NS (store_expertise x m) !! k
  = VIEWPOINT_EXPERTISE_NS m !! k.
Proof. intros Hne. simpl. unfold memory.store. by rewrite lookup_insert_ne. Qed.

Lemma leaves_alone_await_each {A : Type}
    (operation : nat -> A -> DistributedMemorySystem
                 -> DistributedMemorySystem) i xs rest :
  Forall
    (fun x =>
       forall j m,
         VIEWPOINT_EXPERTISE_NS (operation j x m) !! k
         = VIEWPOINT_EXPERTISE_NS m !! k
         /\ (expertise_in_order m -> expertise_in_order (operation j x m)))
    xs ->
  leaves_alone k rest -> leaves_alone k (await_each operation i xs rest).
Proof.
  intros Hxs Hrest. revert i.
  induction Hxs as [|x xs Hx _ IH]; intros i; [done|].
  cbn [await_each await_write leaves_alone]. split; [apply Hx|].
  intros _. apply IH.
Qed.

Lemma leaves_alone_untouched {A : Type}
    (operation : nat -> A -> DistributedMemorySystem
                 -> DistributedMemorySystem) i xs rest :
  (forall j x m,
     VIEWPOINT_EXPERTISE_NS (operation j x m) = VIEWPOINT_EXPERTISE_NS m) ->
  leaves_alone k rest -> leaves_alone k (await_each operation i xs rest).
Proof.
  intros Hsame. apply leaves_alone_await_each.
  apply Forall_forall. intros x _ j. by apply untouched_operation.
Qed.

Lemma leaves_alone_delete_expired now xs rest :
  leaves_alone k rest -> leaves_alone k (delete_expired now xs rest).
Proof.
  intros Hrest. induction xs as [|a xs IH]; [done|].
  cbn [delete_expired]. destruct (da_validUntil a <=? now); [|done].
  cbn [await_write leaves_alone]. split; [|done].
  by apply untouched_operation.
Qed.

(** Every call but [getViewpointExpertise] leaves the record alone,
    provided it does not overwrite it. *)
Lemma thread_of_leaves_alone c :
  ~ overwrites_expertise c k -> usage_counts_typed c ->
  (forall domain type, c <> call_getViewpointExpertise domain type) ->
  leaves_alone k (thread_of E c).
Proof.
  intros Hover Htyped Hread.
  destruct c; cbn [thread_of];
    try (cbn [await_write await_read leaves_alone];
         repeat (split; [by apply untouched_operation|intros _]); done).
  - cbn [await_write leaves_alone]. split; [|done]. intros m.
    simpl in Hover. split.
    + simpl. unfold memory.store. by rewrite lookup_insert_ne.
    + intros [Hkeyed Hexact]. split; by apply map_Forall_insert_2.
  - by destruct (Hread domain type).
  - unfold getARWizardKnowledge_thread.
    cbn [await_read leaves_alone]. split; [by apply untouched_operation|].
    intros m. by apply leaves_alone_untouched.
  - unfold updateModelPerformance_thread.
    cbn [await_read leaves_alone]. split; [by apply untouched_operation|].
    intros m. destruct (memory.get _ _); [|done].
    cbn [await_write leaves_alone]. split; [|done].
    by apply untouched_operation.
  - unfold getSharedContext_thread.
    cbn [await_read leaves_alone]. split; [by apply untouched_operation|].
    intros m. destruct (memory.get _ _) as [r|]; [|done].
    destruct (ttl r <? now - timestamp r); [|done].
    cbn [await_write leaves_alone]. split; [|done].
    by apply untouched_operation.
  - unfold importKnowledgeBase_thread. simpl in Hover, Htyped.
    apply leaves_alone_await_each.
    + apply Forall_forall. intros x Hx _ m. split.
      * apply store_expertise_other. intros Hid. apply Hover.
        apply list_elem_of_fmap. by exists x.
      * apply store_expertise_in_order.
        by apply (proj1 (Forall_forall _ _) Htyped).
    + repeat (apply leaves_alone_untouched; [done|]). done.
  - unfold performMaintenance_thread, cleanupExpiredAnalyses_thread.
    cbn [await_read leaves_alone]. split; [by apply untouched_operation|].
    intros m. apply leaves_alone_delete_expired.
    cbn [await_read leaves_alone]. split; [|done].
    by apply untouched_operation.
Qed.

Lemma read_or_other c :
  (exists domain type, c = call_getViewpointExpertise domain type)
  \/ (forall domain type, c <> call_getViewpointExpertise domain type).
Proof. destruct c; try (by right); left; eauto. Qed.

Lemma reading_call c t :
  reading (c, t) = true ->
  exists domain type, c = call_getViewpointExpertise domain type.
Proof. destruct c; try done. eauto. Qed.

Lemma task_in_order_other m c t :
  (forall domain type, c <> call_getViewpointExpertise domain type) ->
  task_in_order E k m (c, t) <-> leaves_alone k t.
Proof.
  intros Hread. unfold task_in_order.
  destruct c; try done. by destruct (Hread domain type).
Qed.

Lemma task_in_order_finished m c : task_in_order E k m (c, finished).
Proof.
  unfold task_in_order. destruct c; try done.
  right. exists 0%nat, []. split; [done|]. split; [constructor|].
  intros x Hx. by apply elem_of_nil in Hx.
Qed.

(** A task keeps its order when the record stored under [k] stays. *)
Lemma task_in_order_same m m' task :
  VIEWPOINT_EXPERTISE_NS m' !! k = VIEWPOINT_EXPERTISE_NS m !! k ->
  task_in_order E k m task -> task_in_order E k m' task.
Proof.
  intros Hk. destruct task as [c t]. unfold task_in_order.
  destruct c; try done. cbn [fst snd].
  intros [->|(i & copies & -> & Hnd & Hup)]; [by left|right].
  exists i, copies. split; [done|]. split; [done|].
  intros x Hx Hid. rewrite Hk. by apply Hup.
Qed.

(** A task that is not in the middle of a read is in order on any store. *)
Lemma task_in_order_idle m m' task :
  reading task = false ->
  task_in_order E k m task -> task_in_order E k m' task.
Proof.
  destruct task as [c t]. intros Hidle Htask.
  destruct t as [|operation rest]; [apply task_in_order_finished|].
  destruct c; try done.
Qed.

Lemma at_most_one_insert (l : list (Call * Thread)) i old new :
  l !! i = Some old ->
  (reading new = true -> reading old = true) ->
  (forall i1 i2 task1 task2,
     l !! i1 = Some task1 -> l !! i2 = Some task2 ->
     reading task1 = true -> reading task2 = true -> i1 = i2) ->
  forall i1 i2 task1 task2,
    <[i := new]> l !! i1 = Some task1 -> <[i := new]> l !! i2 = Some task2 ->
    reading task1 = true -> reading task2 = true -> i1 = i2.
Proof.
  intros Hi Hnew Huniq i1 i2 t1 t2 H1 H2 Hr1 Hr2.
  pose proof (lookup_lt_Some _ _ _ Hi) as Hlt.
  destruct (decide (i1 = i)) as [->|Hne1], (decide (i2 = i)) as [->|Hne2].
  - done.
  - rewrite list_lookup_insert_eq in H1 by done. injection H1 as <-.
    rewrite list_lookup_insert_ne in H2 by done.
    apply (Huniq i i2 old t2); auto.
  - rewrite list_lookup_insert_eq in H2 by done. injection H2 as <-.
    rewrite list_lookup_insert_ne in H1 by done.
    apply (Huniq i1 i t1 old); auto.
  - rewrite list_lookup_insert_ne in H1 by done.
    rewrite list_lookup_insert_ne in H2 by done.
    by apply (Huniq i1 i2 t1 t2).
Qed.

(** One event keeps the execution in order. *)
Lemma step_in_order (low : Z) s ev :
  match ev with
  | start c => ~ overwrites_expertise c k /\ usage_counts_typed c
  | resume _ => True
  end ->
  match ev with
  | start (call_getViewpointExpertise _ _) =>
      forallb (fun task => negb (reading task)) (calls s) = true
  | _ => True
  end ->
  in_order_for E k low s -> in_order_for E k low (step E s ev).
Proof.
  intros Hev Hapart (Horder & Hcount & Htasks & Huniq).
  destruct ev as [c|i]; cbn [step].
  - (* a call is made *)
    destruct Hev as [Hover Htyped].
    split; [done|]. split; [done|]. cbn [stored calls]. split.
    + apply Forall_app. split; [done|]. apply Forall_singleton.
      destruct (read_or_other c) as [(domain & type & ->)|Hother].
      * by left.
      * apply task_in_order_other; [done|].
        by apply thread_of_leaves_alone.
    + assert (forall i task,
                calls s !! i = Some task -> reading task = true ->
                reading (c, thread_of E c) = false) as Hidle.
      { intros i t Hi Hr. destruct c; try done.
        rewrite forallb_forall in Hapart.
        apply list_elem_of_lookup_2, list_elem_of_In, Hapart in Hi.
        by rewrite Hr in Hi. }
      intros i1 i2 t1 t2 H1 H2 Hr1 Hr2.
      apply lookup_app_Some in H1 as [H1|[Hlen1 H1]];
        apply lookup_app_Some in H2 as [H2|[Hlen2 H2]].
      * by apply (Huniq i1 i2 t1 t2).
      * apply list_lookup_singleton_Some in H2 as [_ <-].
        by rewrite (Hidle _ _ H1 Hr1) in Hr2.
      * apply list_lookup_singleton_Some in H1 as [_ <-].
        by rewrite (Hidle _ _ H2 Hr2) in Hr1.
      * apply list_lookup_singleton_Some in H1 as [H1 _].
        apply list_lookup_singleton_Some in H2 as [H2 _]. lia.
  - (* a call goes on *)
    destruct (calls s !! i) as [[c t]|] eqn:Hi; [|done].
    destruct t as [|operation rest]; [done|].
    pose proof (Forall_lookup_1 _ _ _ _ Htasks Hi) as Htask.
    destruct Hcount as (e & He & Hle).
    assert (forall new,
              (reading new = true -> reading (c, await operation rest) = true)
              -> forall i1 i2 task1 task2,
                <[i := new]> (calls s) !! i1 = Some task1 ->
                <[i := new]> (calls s) !! i2 = Some task2 ->
                reading task1 = true -> reading task2 = true -> i1 = i2)
      as Huniq'.
    { intros new Hnew. by apply (at_most_one_insert _ _ _ _ Hi). }
    destruct (read_or_other c) as [(domain & type & ->)|Hother].
    + (* a read *)
      destruct Htask as [Hthread|(i0 & copies & Hthread & Hnd & Hup)];
        cbn [snd] in Hthread.
      * (* its query *)
        unfold getViewpointExpertise_thread, await_read in Hthread.
        injection Hthread as -> ->.
        split; [done|]. split; [by eauto|]. cbn [stored calls].
        split; [|by apply Huniq'].
        apply Forall_insert; [done|]. right.
        eexists 0%nat, _. split; [done|]. destruct Horder as [Hkeyed _].
        split; [by apply query_ids_NoDup|].
        intros x Hx <-. by apply (query_id_lookup E ve_id _ _ _ Hkeyed Hx).
      * (* a copy is written back *)
        destruct copies as [|x copies]; [done|].
        unfold write_back_usage in Hthread.
        cbn [await_each] in Hthread. unfold await_write in Hthread.
        injection Hthread as -> ->.
        apply NoDup_cons in Hnd as [Hx Hnd].
        assert (js_exact (ve_usageCount (increment_usage x))) as Hnew
          by apply js_round_exact.
        split; [by apply store_expertise_in_order|]. cbn [stored calls].
        destruct (decide (ve_id x = k)) as [Hid|Hid].
        -- (* the copy of the record under [k] *)
           assert (VIEWPOINT_EXPERTISE_NS (stored s) !! k = Some x) as Hk
             by (apply Hup; [left|done]).
           assert (e = x) as -> by congruence.
           split.
           { exists (increment_usage x). split.
             - simpl. unfold memory.store. rewrite Hid.
               apply lookup_insert_eq.
             - cbn [increment_usage ve_usageCount].
               pose proof (js_round_succ_ge (ve_usageCount x)
                             (proj2 Horder _ _ Hk)). lia. }
           split; [|by apply Huniq'].
           apply Forall_lookup_2. intros j tj Hj.
           destruct (decide (j = i)) as [->|Hne].
           ++ rewrite list_lookup_insert_eq in Hj
                by (by eapply lookup_lt_Some).
              injection Hj as <-. right. exists (S i0), copies.
              split; [done|]. split; [done|]. intros y Hy Hyk.
              exfalso. apply Hx. apply list_elem_of_fmap. exists y.
              split; [congruence|done].
           ++ rewrite list_lookup_insert_ne in Hj by done.
              apply (task_in_order_idle (stored s)).
              ** destruct (reading tj) eqn:Hr; [|done].
                 destruct Hne. by apply (Huniq j i tj _ Hj Hi Hr).
              ** by apply (Forall_lookup_1 _ _ _ _ Htasks Hj).
        -- (* the copy of another record *)
           pose proof (store_expertise_other (increment_usage x) (stored s)
                         Hid) as Hsame.
           split; [exists e; by rewrite Hsame|].
           split; [|by apply Huniq'].
           apply Forall_insert.
           ++ eapply Forall_impl; [exact Htasks|].
              intros task. by apply task_in_order_same.
           ++ right. exists (S i0), copies.
              split; [done|]. split; [done|]. intros y Hy Hyk.
              rewrite Hsame. apply Hup; [by right|done].
    + (* any other call *)
      apply (task_in_order_other _ _ _ Hother) in Htask.
      destruct Htask as [Hoperation Hrest].
      destruct (Hoperation (stored s)) as [Hsame Horder'].
      split; [by apply Horder'|]. cbn [stored calls].
      split; [exists e; by rewrite Hsame|]. split.
      * apply Forall_insert.
        -- eapply Forall_impl; [exact Htasks|].
           intros task. by apply task_in_order_same.
        -- by apply task_in_order_other.
      * apply Huniq'. by intros (domain & type & ->)%reading_call.
Qed.

Lemma reads_apart_app events events' s :
  reads_apart E (events ++ events') s
  = reads_apart E events s
    && reads_apart E events' (execute E events s).
Proof.
  revert s. induction events as [|ev events IH]; intros s; [done|].
  cbn [app reads_apart execute foldl]. rewrite IH.
  by rewrite andb_assoc.
Qed.

Lemma execute_in_order (low : Z) events s :
  Forall (fun c => ~ overwrites_expertise c k /\ usage_counts_typed c)
    (started events) ->
  reads_apart E events s = true ->
  in_order_for E k low s -> in_order_for E k low (execute E events s).
Proof.
  revert s. induction events as [|ev events IH]; intros s Hcalls Hapart Hs;
    [done|].
  cbn [reads_apart] in Hapart. apply andb_true_iff in Hapart as [Hev Hapart].
  cbn [execute foldl]. apply IH; [|done|].
  - destruct ev; [by apply Forall_cons in Hcalls as [_ ?]|done].
  - apply step_in_order; [| |done].
    + destruct ev as [c|]; [|done]. by apply Forall_cons in Hcalls as [? _].
    + destruct ev as [c|]; [|done]. by destruct c.
Qed.

End Overlap.

(** C6, as amended.  Calls may overlap: each runs up to an [await] and
    resumes later, other calls running in between.  Take any such
    execution that starts with no call in progress from a store in which
    the expertise records sit under their own ids and the usage counts
    are JavaScript numbers, and an expertise id [k] that is stored.
    Provided no [getViewpointExpertise] is made while another one is
    under way, and no call made overwrites [k], that is, no
    [importKnowledgeBase] whose snapshot carries an expertise record with
    id [k] (and no [storeViewpointExpertise] that [generateId] hands [k]
    again), the usage counts of imported records being JavaScript
    numbers, then [k] stays stored and its [usageCount] never goes down:
    it is at every moment of the execution at least what it was at any
    earlier moment. *)
Theorem usage_count_monotone
    (E : QueryEngine) (before after : list Event)
    (m : DistributedMemorySystem) (k : string) (e : ViewpointExpertise) :
  let s0 := {| stored := m; calls := [] |} in
  keyed_by_id ve_id (VIEWPOINT_EXPERTISE_NS m) ->
  usage_counts_exact m ->
  Forall (fun c => ~ overwrites_expertise c k /\ usage_counts_typed c)
    (started (before ++ after)) ->
  reads_apart E (before ++ after) s0 = true ->
  VIEWPOINT_EXPERTISE_NS m !! k = Some e ->
  exists e1 e2,
    VIEWPOINT_EXPERTISE_NS (stored (execute E before s0)) !! k = Some e1
    /\ VIEWPOINT_EXPERTISE_NS (stored (execute E (before ++ after) s0)) !! k
       = Some e2
    /\ ve_usageCount e <= ve_usageCount e1
    /\ ve_usageCount e1 <= ve_usageCount e2.
Proof.
  intros s0 Hkeyed Hexact Hcalls Hapart He.
  unfold started in Hcalls. rewrite omap_app in Hcalls.
  apply Forall_app in Hcalls as [Hcalls1 Hcalls2].
  rewrite reads_apart_app in Hapart.
  apply andb_true_iff in Hapart as [Hapart1 Hapart2].
  assert (in_order_for E k (ve_usageCount e) s0) as Hs0.
  { split; [done|]. split; [exists e; split; [done|lia]|].
    split; [constructor|]. intros i1 i2 t1 t2 H1. by destruct i1. }
  pose proof (execute_in_order E k _ before s0 Hcalls1 Hapart1 Hs0) as Hs1.
  destruct Hs1 as (Horder1 & (e1 & He1 & Hle1) & Htasks1 & Huniq1).
  assert (in_order_for E k (ve_usageCount e1) (execute E before s0)) as Hs1
    by (split; [done|]; split; [exists e1; split; [done|lia]|done]).
  pose proof (execute_in_order E k _ after _ Hcalls2 Hapart2 Hs1) as Hs2.
  destruct Hs2 as (_ & (e2 & He2 & Hle2) & _).
  exists e1, e2. split; [done|]. split; [|done].
  unfold execute. rewrite foldl_app. exact He2.
Qed.


Lemma expertise_store_well_keyed : well_keyed Examples.expertise_store.
Proof.
  unfold well_keyed. simpl.
  split; [|split; [|split]]; try apply map_Forall_empty.
  repeat (apply map_Forall_insert_2; [done|]). apply map_Forall_empty.
Qed.

Lemma expertise_store_exact : usage_counts_exact Examples.expertise_store.
Proof.
  unfold usage_counts_exact. simpl.
  repeat (apply map_Forall_insert_2; [done|]). apply map_Forall_empty.
Qed.

(** The count of [e2] along a read that overlaps with an import of [e1],
    followed by a maintenance run and another read. *)
Lemma usage_count_monotone_witness :
  keyed_by_id ve_id (VIEWPOINT_EXPERTISE_NS Examples.expertise_store)
  /\ usage_counts_exact Examples.expertise_store
  /\ Forall (fun c => ~ overwrites_expertise c "e2" /\ usage_counts_typed c)
       (started (Examples.overlapping_import_before
                 ++ Examples.overlapping_import_after))
  /\ reads_apart canonical_engine
       (Examples.overlapping_import_before
        ++ Examples.overlapping_import_after)
       Examples.expertise_at_rest = true
  /\ VIEWPOINT_EXPERTISE_NS Examples.expertise_store !! "e2"
     = Some (Examples.expertise "e2" 0)
  /\ exists e1 e2,
       VIEWPOINT_EXPERTISE_NS
         (stored (execute canonical_engine
                    Examples.overlapping_import_before
                    Examples.expertise_at_rest)) !! "e2"
       = Some e1
       /\ VIEWPOINT_EXPERTISE_NS
            (stored (execute canonical_engine
                       (Examples.overlapping_import_before
                        ++ Examples.overlapping_import_after)
                       Examples.expertise_at_rest)) !! "e2"
          = Some e2
       /\ ve_usageCount (Examples.expertise "e2" 0) <= ve_usageCount e1
       /\ ve_usageCount e1 <= ve_usageCount e2.
Proof.
  assert (Forall (fun c => ~ overwrites_expertise c "e2"
                           /\ usage_counts_typed c)
            (started (Examples.overlapping_import_before
                      ++ Examples.overlapping_import_after)))
    as Hcalls.
  { repeat constructor; simpl; try tauto.
    intros Hin%list_elem_of_singleton. discriminate Hin. }
  assert (reads_apart canonical_engine
            (Examples.overlapping_import_before
             ++ Examples.overlapping_import_after)
            Examples.expertise_at_rest = true) as Hapart
    by (vm_compute; reflexivity).
  split; [exact (proj1 expertise_store_well_keyed)|].
  split; [exact expertise_store_exact|].
  split; [exact Hcalls|]. split; [exact Hapart|]. split; [reflexivity|].
  exact (usage_count_monotone canonical_engine
           Examples.overlapping_import_before
           Examples.overlapping_import_after Examples.expertise_store "e2"
           (Examples.expertise "e2" 0)
           (proj1 expertise_store_well_keyed) expertise_store_exact
           Hcalls Hapart eq_refl).
Defined.

(** C6 as first stated fails in two ways.  It fails for
    [importKnowledgeBase]: importing a snapshot that carries record [e1]
    with a count of 0 over a stored [e1] with a count of 5 leaves 0
    persisted.  And it fails where two reads overlap, with no import and
    no store at all: the calls made are three [getViewpointExpertise];
    the first takes its copies while [e2] has a count of 0, the two
    others raise the stored count to 2, and the first then writes its
    copy back, incremented to 1. *)
Lemma usage_count_counterexample :
  (well_keyed Examples.expertise_store
   /\ VIEWPOINT_EXPERTISE_NS Examples.expertise_store !! "e1"
      = Some (Examples.expertise "e1" 5)
   /\ VIEWPOINT_EXPERTISE_NS
        (importKnowledgeBase Examples.fresh_snapshot Examples.expertise_store)
      !! "e1" = Some (Examples.expertise "e1" 0)
   /\ ~ usage_preserved canonical_engine
          (call_importKnowledgeBase Examples.fresh_snapshot)
          Examples.expertise_store)
  /\ (started (Examples.overlapping_reads_before
               ++ Examples.overlapping_reads_after)
      = [call_getViewpointExpertise job_billing None;
         call_getViewpointExpertise job_billing None;
         call_getViewpointExpertise job_billing None]
      /\ reads_apart canonical_engine
           (Examples.overlapping_reads_before
            ++ Examples.overlapping_reads_after)
           Examples.expertise_at_rest = false
      /\ VIEWPOINT_EXPERTISE_NS
           (stored (execute canonical_engine
                      Examples.overlapping_reads_before
                      Examples.expertise_at_rest)) !! "e2"
         = Some (Examples.expertise "e2" 2)
      /\ VIEWPOINT_EXPERTISE_NS
           (stored (execute canonical_engine
                      (Examples.overlapping_reads_before
                       ++ Examples.overlapping_reads_after)
                      Examples.expertise_at_rest)) !! "e2"
         = Some (Examples.expertise "e2" 1)).
Proof.
  split.
  - split; [exact expertise_store_well_keyed|].
    split; [reflexivity|]. split; [reflexivity|].
    intros Hpres.
    destruct (Hpres "e1" (Examples.expertise "e1" 5) eq_refl)
      as (e' & He' & Hle).
    change (Some (Examples.expertise "e1" 0) = Some e') in He'.
    injection He' as <-. simpl in Hle. lia.
  - split; [reflexivity|]. split; [vm_compute; reflexivity|].
    split; vm_compute; reflexivity.
Qed.

(** ** The properties at work on sample stores *)

Lemma analysis_store_keyed :
  keyed_by_id da_id (DATABASE_ANALYSIS_NS Examples.analysis_store).
Proof.
  simpl. repeat (apply map_Forall_insert_2; [done|]). apply map_Forall_empty.
Qed.

(** At time 100, with one analysis valid until 50 and one until 200. *)
Lemma analysis_freshness_witness :
  keyed_by_id da_id (DATABASE_ANALYSIS_NS Examples.analysis_store)
  /\ (forall r,
        r ∈ getDatabaseAnalysis canonical_engine kls None 100
              Examples.analysis_store ->
        ~ da_validUntil r <= 100)
  /\ (forall k r,
        DATABASE_ANALYSIS_NS
          (cleanupExpiredAnalyses canonical_engine 100
             Examples.analysis_store) !! k = Some r ->
        ~ da_validUntil r <= 100).
Proof.
  split; [exact analysis_store_keyed|].
  destruct (analysis_freshness canonical_engine 100 Examples.analysis_store)
    as (_ & Hget & _ & Hsweep).
  split; [apply Hget | exact (proj2 (Hsweep analysis_store_keyed))].
Defined.

Lemma expertise_store_keyed :
  keyed_by_id ve_id (VIEWPOINT_EXPERTISE_NS Examples.expertise_store).
Proof. exact (proj1 expertise_store_well_keyed). Qed.

Lemma expertise_store_counts (n : nat) k e :
  (n <= 1000)%nat ->
  VIEWPOINT_EXPERTISE_NS Examples.expertise_store !! k = Some e ->
  increments_exact n (ve_usageCount e).
Proof.
  intros Hn Hk. simpl in Hk.
  apply lookup_insert_Some in Hk as [[_ <-]|[_ Hk]].
  - unfold increments_exact. simpl. lia.
  - apply lookup_insert_Some in Hk as [[_ <-]|[_ Hk]].
    + unfold increments_exact. simpl. lia.
    + by rewrite lookup_empty in Hk.
Qed.

(** Three reads of the job-billing expertise in a row. *)
Lemma getViewpointExpertise_usage_count_witness :
  let call := getViewpointExpertise canonical_engine job_billing None in
  keyed_by_id ve_id (VIEWPOINT_EXPERTISE_NS Examples.expertise_store)
  /\ (forall k e,
        VIEWPOINT_EXPERTISE_NS Examples.expertise_store !! k = Some e ->
        expertise_criteria job_billing None e = true ->
        increments_exact 3 (ve_usageCount e))
  /\ total_usage
       (Nat.iter 3 (fun m0 => (call m0).2) Examples.expertise_store)
     = total_usage Examples.expertise_store
       + Z.of_nat 3 * Z.of_nat (length (call Examples.expertise_store).1).
Proof.
  intros call.
  assert (forall k e,
            VIEWPOINT_EXPERTISE_NS Examples.expertise_store !! k = Some e ->
            expertise_criteria job_billing None e = true ->
            increments_exact 3 (ve_usageCount e)) as Hwithin
    by (intros k e Hk _; apply (expertise_store_counts 3 k); [lia|done]).
  split; [exact expertise_store_keyed|]. split; [exact Hwithin|].
  exact (proj1
           (proj2
              (proj2 (proj2 (proj2 (proj2 (proj2 (proj2
                 (getViewpointExpertise_usage_count canonical_engine
                    job_billing None Examples.expertise_store
                    expertise_store_keyed))))))
                 3%nat)
              Hwithin)).
Defined.

(** C3 as first stated fails once a count has reached [2^53], the first
    integer whose successor a JavaScript number cannot hold: the read
    returns the record with the count it had, the stored count stays,
    and the sum of the stored counts does not grow. *)
Lemma usage_count_saturation_counterexample :
  keyed_by_id ve_id (VIEWPOINT_EXPERTISE_NS Examples.saturated_store)
  /\ VIEWPOINT_EXPERTISE_NS Examples.saturated_store !! "e1"
     = Some (Examples.expertise "e1" 9007199254740992)
  /\ Examples.saturated_read.1 = [Examples.expertise "e1" 9007199254740992]
  /\ VIEWPOINT_EXPERTISE_NS Examples.saturated_read.2 !! "e1"
     = Some (Examples.expertise "e1" 9007199254740992)
  /\ total_usage Examples.saturated_read.2
     = total_usage Examples.saturated_store
  /\ ~ (forall r,
          r ∈ Examples.saturated_read.1 ->
          exists e,
            VIEWPOINT_EXPERTISE_NS Examples.saturated_store !! ve_id r
            = Some e
            /\ ve_usageCount r = ve_usageCount e + 1).
Proof.
  assert (Examples.saturated_read.1
          = [Examples.expertise "e1" 9007199254740992]) as Hreturned
    by (vm_compute; reflexivity).
  split.
  { simpl. apply map_Forall_insert_2; [done|]. apply map_Forall_empty. }
  split; [vm_compute; reflexivity|]. split; [exact Hreturned|].
  split; [vm_compute; reflexivity|]. split; [vm_compute; reflexivity|].
  intros Hplus. rewrite Hreturned in Hplus.
  destruct (Hplus (Examples.expertise "e1" 9007199254740992))
    as (e & He & Hcount); [by left|].
  assert (e = Examples.expertise "e1" 9007199254740992) as ->.
  { vm_compute in He. by injection He as <-. }
  simpl in Hcount. lia.
Qed.

(** Models A (accuracy 0.80) and B (accuracy 0.92): B is the best. *)
Lemma best_model_selection_witness :
  getBestPredictiveModel canonical_engine billing_prediction
    Examples.model_store
  = Some Examples.model_B.
Proof.
  destruct (best_model_selection canonical_engine billing_prediction
              Examples.model_store) as (_ & _ & Hbest).
  apply (Hbest "B"); [reflexivity|reflexivity|].
  intros k' p Hp _ Hne. simpl in Hp.
  apply lookup_insert_Some in Hp as [[_ <-]|[_ Hp]]; [reflexivity|].
  apply lookup_insert_Some in Hp as [[_ <-]|[_ Hp]]; [done|].
  by rewrite lookup_empty in Hp.
Defined.

(** Analyses [a1] (analysed at 0) and [a2] (analysed at 10), both still
    valid at time 20: [a2] is the latest. *)
Lemma latest_analysis_selection_witness :
  getLatestDatabaseAnalysis canonical_engine kls data_quality 20
    Examples.analysis_store
  = Some (Examples.analysis "a2" 10 200).
Proof.
  destruct (latest_analysis_selection canonical_engine kls data_quality 20
              Examples.analysis_store) as (Hlive & _ & _ & Hlatest).
  apply Hlatest.
  - apply Hlive. split; [by exists "a2"|]. by repeat split.
  - intros a [[k Hk] _]%Hlive Hne. simpl in Hk.
    apply lookup_insert_Some in Hk as [[_ <-]|[_ Hk]]; [simpl; lia|].
    apply lookup_insert_Some in Hk as [[_ <-]|[_ Hk]]; [done|].
    by rewrite lookup_empty in Hk.
Defined.

(** Re-validating model A at time 77, and a model id that is not stored. *)
Lemma updateModelPerformance_contract_witness :
  let perf :=
    {| accuracy := 95 # 100; precision := 9 # 10; recall := 9 # 10;
       f1Score := 9 # 10 |} in
  (exists model',
     PREDICTIVE_MODELS_NS
       (updateModelPerformance "A" perf 77 Examples.model_store) !! "A"
     = Some model'
     /\ pm_performance model' = perf
     /\ pm_lastValidated model' = 77
     /\ pm_name model' = pm_name Examples.model_A)
  /\ PREDICTIVE_MODELS_NS
       (updateModelPerformance "A" perf 77 Examples.model_store) !! "B"
     = Some Examples.model_B
  /\ updateModelPerformance "Z" perf 77 Examples.model_store
     = Examples.model_store.
Proof.
  intros perf.
  destruct (updateModelPerformance_contract "A" perf 77 Examples.model_store)
    as (Hfound & _).
  destruct (Hfound Examples.model_A eq_refl)
    as ((model' & Hm' & Hperf & Hval & _ & Hname & _) & Hothers & _).
  split; [by exists model'|].
  split; [by rewrite Hothers|].
  exact (proj2 (updateModelPerformance_contract "Z" perf 77
                  Examples.model_store) eq_refl).
Defined.

(** Importing the snapshot that carries only [e1]: [e1] takes the
    snapshot's value, [e2] keeps its own. *)
Lemma import_is_merge_witness :
  VIEWPOINT_EXPERTISE_NS
    (importKnowledgeBase Examples.fresh_snapshot Examples.expertise_store)
  !! "e1" = Some (Examples.expertise "e1" 0)
  /\ VIEWPOINT_EXPERTISE_NS
       (importKnowledgeBase Examples.fresh_snapshot Examples.expertise_store)
     !! "e2" = Some (Examples.expertise "e2" 0).
Proof.
  destruct (import_is_merge Examples.fresh_snapshot Examples.expertise_store)
    as ((Hframe & _ & Hsnapshot) & _).
  split.
  - apply (Hsnapshot (NoDup_singleton _) (Examples.expertise "e1" 0)).
    by left.
  - rewrite Hframe; [reflexivity|].
    intros Hin. simpl in Hin. apply list_elem_of_singleton in Hin.
    discriminate Hin.
Defined.

(** The same snapshot has no knowledge array and a [null] analyses
    array: the two analyses stay, the expertise array is imported: [e1]
    now holds the snapshot's record and [e2] what it held. *)
Lemma import_partial_snapshot_witness :
  let m' :=
    importKnowledgeBase Examples.fresh_snapshot Examples.mixed_store in
  is_absent (arWizardKnowledge Examples.fresh_snapshot)
  /\ is_absent (databaseAnalyses Examples.fresh_snapshot)
  /\ viewpointExpertise Examples.fresh_snapshot
     = js_array [Examples.expertise "e1" 0]
  /\ AR_WIZARD_KNOWLEDGE_NS m'
     = AR_WIZARD_KNOWLEDGE_NS Examples.mixed_store
  /\ DATABASE_ANALYSIS_NS m' = DATABASE_ANALYSIS_NS Examples.mixed_store
  /\ merge_of ve_id [Examples.expertise "e1" 0]
       (VIEWPOINT_EXPERTISE_NS Examples.mixed_store)
       (VIEWPOINT_EXPERTISE_NS m')
  /\ VIEWPOINT_EXPERTISE_NS m' !! "e1" = Some (Examples.expertise "e1" 0)
  /\ VIEWPOINT_EXPERTISE_NS m' !! "e2" = Some (Examples.expertise "e2" 0).
Proof.
  intros m'.
  destruct (import_partial_snapshot Examples.fresh_snapshot
              Examples.mixed_store)
    as (_ & _ & Hak & Hda & _ & Hve & _).
  assert (is_absent (arWizardKnowledge Examples.fresh_snapshot)) as Habsent1
    by (by left).
  assert (is_absent (databaseAnalyses Examples.fresh_snapshot)) as Habsent2
    by (by right).
  split; [exact Habsent1|]. split; [exact Habsent2|]. split; [reflexivity|].
  split; [exact (Hak Habsent1)|]. split; [exact (Hda Habsent2)|].
  pose proof (Hve [Examples.expertise "e1" 0] eq_refl) as Hmerge.
  split; [exact Hmerge|].
  destruct Hmerge as (Hframe & _ & Hnew). split.
  - apply (Hnew (NoDup_singleton _) (Examples.expertise "e1" 0)). by left.
  - rewrite Hframe; [reflexivity|].
    intros Hin%list_elem_of_singleton. discriminate Hin.
Defined.

(** Sweeping the sample analyses at time 100 once, twice, or four times. *)
Lemma sweep_idempotent_witness :
  let sweep := cleanupExpiredAnalyses canonical_engine 100 in
  sweep (sweep Examples.analysis_store) = sweep Examples.analysis_store
  /\ Nat.iter 3 sweep (sweep Examples.analysis_store)
     = sweep Examples.analysis_store.
Proof.
  intros sweep.
  destruct (sweep_idempotent canonical_engine 100 Examples.analysis_store)
    as (Htwice & Hmany).
  split; [exact Htwice | exact (Hmany 3%nat)].
Defined.

(** * Further properties of the manager *)

(** ** Records sit under their own id, and are never dropped *)

(** X1.  Every record the manager writes into the four primary
    namespaces sits under its own id: after any sequence of public calls
    made on the empty store, or on any store that has that property, each
    stored expertise, knowledge, analysis and model record has an [id]
    equal to the key it is stored under. *)
Theorem manager_keeps_records_under_their_id
    (E : QueryEngine) (calls : list Call) (m : DistributedMemorySystem) :
  well_keyed (run_all E calls empty_memory)
  /\ (well_keyed m ->
      (forall k e,
         VIEWPOINT_EXPERTISE_NS (run_all E calls m) !! k = Some e ->
         ve_id e = k)
      /\ (forall k r,
            AR_WIZARD_KNOWLEDGE_NS (run_all E calls m) !! k = Some r ->
            ak_id r = k)
      /\ (forall k a,
            DATABASE_ANALYSIS_NS (run_all E calls m) !! k = Some a ->
            da_id a = k)
      /\ (forall k p,
            PREDICTIVE_MODELS_NS (run_all E calls m) !! k = Some p ->
            pm_id p = k)).
Proof.
  split; [apply reachable_well_keyed|].
  intros Hm. exact (run_all_well_keyed E calls m Hm).
Qed.

Lemma manager_keeps_records_under_their_id_witness :
  well_keyed Examples.expertise_store
  /\ forall k e,
       VIEWPOINT_EXPERTISE_NS
         (run_all canonical_engine
            [call_getViewpointExpertise job_billing None;
             call_importKnowledgeBase Examples.fresh_snapshot;
             call_storeViewpointExpertise "e3" 7
               {| ei_type := business_rule; ei_domain := job_costing;
                  ei_content := "rule"; ei_confidence := 1 # 2;
                  ei_source := "manual"; ei_validated := false |}]
            Examples.expertise_store) !! k = Some e ->
       ve_id e = k.
Proof.
  split; [exact expertise_store_well_keyed|].
  exact (proj1 (proj2 (manager_keeps_records_under_their_id canonical_engine
                         _ Examples.expertise_store)
                  expertise_store_well_keyed)).
Defined.

Section NeverDeleted.
Context (E : QueryEngine).

Lemma store_each_is_Some {A : Type} (id_of : A -> string) (xs : list A)
    (t : gmap string A) k :
  is_Some (t !! k) -> is_Some (store_each id_of xs t !! k).
Proof.
  unfold store_each, memory.store. revert t.
  induction xs as [|x xs IH]; intros t Hk; simpl; [done|].
  apply IH. rewrite lookup_insert_is_Some.
  destruct (decide (id_of x = k)); [by left|by right].
Qed.

Lemma update_each_is_Some {A : Type} (id_of : A -> string)
    (update : nat -> A -> A) i (xs : list A) (t : gmap string A) k :
  is_Some (t !! k) -> is_Some ((update_each id_of update i xs t).2 !! k).
Proof.
  revert i t. induction xs as [|x xs IH]; intros i t Hk; simpl; [done|].
  destruct (update_each id_of update (S i) xs
              (memory.store t (id_of (update i x)) (update i x)))
    as [rest' t''] eqn:Hrec.
  simpl. change t'' with (rest', t'').2. rewrite <- Hrec.
  apply IH. unfold memory.store. rewrite lookup_insert_is_Some.
  destruct (decide (id_of (update i x) = k)); [by left|by right].
Qed.

Lemma insert_is_Some {A : Type} (t : gmap string A) id x k :
  is_Some (t !! k) -> is_Some (<[id := x]> t !! k).
Proof.
  intros Hk. rewrite lookup_insert_is_Some.
  destruct (decide (id = k)); [by left|by right].
Qed.

Lemma run_keeps_primary_records c m k :
  (holds_expertise m k -> holds_expertise (run E c m) k)
  /\ (holds_knowledge m k -> holds_knowledge (run E c m) k)
  /\ (holds_model m k -> holds_model (run E c m) k).
Proof.
  unfold holds_expertise, holds_knowledge, holds_model.
  destruct c; simpl; try done;
    try (repeat split; try done; by apply insert_is_Some).
  - unfold getViewpointExpertise.
    pose proof (update_each_is_Some ve_id (fun _ => increment_usage) 0
                  (memory.query E (VIEWPOINT_EXPERTISE_NS m)
                     (expertise_criteria domain type))
                  (VIEWPOINT_EXPERTISE_NS m) k) as Hkeep.
    destruct (update_each _ _ _ _ _) as [xs t]. by repeat split.
  - unfold getARWizardKnowledge.
    pose proof (update_each_is_Some ak_id (fun i => touch (clock i)) 0
                  (memory.query E (AR_WIZARD_KNOWLEDGE_NS m)
                     (fun r => bool_decide (ak_category r = category)))
                  (AR_WIZARD_KNOWLEDGE_NS m) k) as Hkeep.
    destruct (update_each _ _ _ _ _) as [xs t]. by repeat split.
  - unfold updateModelPerformance, memory.get, memory.store.
    destruct (PREDICTIVE_MODELS_NS m !! modelId); [|done].
    repeat split; try done. by apply insert_is_Some.
  - unfold getSharedContext, memory.get.
    destruct (SHARED_CONTEXT_NS m !! key) as [r|]; [|done].
    simpl. by destruct (ttl r <? now - timestamp r).
  - unfold importKnowledgeBase. simpl.
    repeat split; by apply store_each_is_Some.
Qed.
End NeverDeleted.

(** X2.  No public call ever removes an expertise record, a knowledge
    record or a predictive model: a key that holds a record in one of these
    three namespaces still holds one after any sequence of calls, on any
    store.  (Only analyses and shared contexts are ever deleted.) *)
Theorem primary_records_never_deleted
    (E : QueryEngine) (calls : list Call) (m : DistributedMemorySystem)
    (k : string) :
  (holds_expertise m k -> holds_expertise (run_all E calls m) k)
  /\ (holds_knowledge m k -> holds_knowledge (run_all E calls m) k)
  /\ (holds_model m k -> holds_model (run_all E calls m) k).
Proof.
  unfold run_all. revert m.
  induction calls as [|c calls IH]; intros m; simpl; [done|].
  destruct (IH (run E c m)) as (IH1 & IH2 & IH3).
  destruct (run_keeps_primary_records E c m k) as (H1 & H2 & H3).
  repeat split; auto.
Qed.

Lemma primary_records_never_deleted_witness :
  holds_expertise Examples.expertise_store "e2"
  /\ holds_expertise
       (run_all canonical_engine
          [call_performMaintenance 100 100;
           call_importKnowledgeBase Examples.fresh_snapshot;
           call_getViewpointExpertise job_billing None]
          Examples.expertise_store) "e2".
Proof.
  assert (holds_expertise Examples.expertise_store "e2") as Hholds
    by (by eexists).
  split; [exact Hholds|].
  exact (proj1 (primary_records_never_deleted canonical_engine _
                  Examples.expertise_store "e2") Hholds).
Defined.

(** ** Export followed by import *)

Section ExportImport.
Context (E : QueryEngine) {A : Type} (id_of : A -> string).
Implicit Types (t u : gmap string A).

(** Writing back everything an unfiltered query of [t] returns, over a
    table [u], gives [t] laid over [u]. *)
Lemma store_each_query_all t u :
  keyed_by_id id_of t ->
  store_each id_of (memory.query E t (fun _ => true)) u = t ∪ u.
Proof.
  intros Hkeyed. apply map_eq. intros k.
  rewrite lookup_store_each, lookup_union.
  destruct (find_last _ _) as [x|] eqn:Hfind.
  - apply find_last_Some in Hfind as [Hin Hid%bool_decide_eq_true].
    apply elem_of_query in Hin as [[k' Hk'] _].
    pose proof (Hkeyed _ _ Hk') as Hkey. simpl in Hkey.
    assert (k' = k) as -> by congruence.
    rewrite Hk'. by destruct (u !! k).
  - destruct (t !! k) as [x|] eqn:Hk.
    + exfalso.
      assert (x ∈ memory.query E t (fun _ => true)) as Hin
        by (apply elem_of_query; eauto).
      apply (find_last_None _ _ x Hfind) in Hin.
      apply bool_decide_eq_false in Hin. by apply Hin, (Hkeyed _ _ Hk).
    + by destruct (u !! k).
Qed.
End ExportImport.

(** X3.  Export and import round-trip on the four primary namespaces.
    For a store [m] in which every record sits under its own id:
    importing the export of [m] into the empty store rebuilds [m] except
    for its shared contexts, which are not exported; importing it back
    into [m] changes nothing; and importing it into any store [m0] lays
    the records of [m] over those of [m0], namespace by namespace. *)
Theorem export_import_round_trip
    (E : QueryEngine) (now : Date) (m m0 : DistributedMemorySystem) :
  well_keyed m ->
  let snapshot := export_data (exportKnowledgeBase E now m) in
  importKnowledgeBase snapshot empty_memory = without_context m
  /\ importKnowledgeBase snapshot m = m
  /\ VIEWPOINT_EXPERTISE_NS (importKnowledgeBase snapshot m0)
     = VIEWPOINT_EXPERTISE_NS m ∪ VIEWPOINT_EXPERTISE_NS m0
  /\ AR_WIZARD_KNOWLEDGE_NS (importKnowledgeBase snapshot m0)
     = AR_WIZARD_KNOWLEDGE_NS m ∪ AR_WIZARD_KNOWLEDGE_NS m0
  /\ DATABASE_ANALYSIS_NS (importKnowledgeBase snapshot m0)
     = DATABASE_ANALYSIS_NS m ∪ DATABASE_ANALYSIS_NS m0
  /\ PREDICTIVE_MODELS_NS (importKnowledgeBase snapshot m0)
     = PREDICTIVE_MODELS_NS m ∪ PREDICTIVE_MODELS_NS m0
  /\ SHARED_CONTEXT_NS (importKnowledgeBase snapshot m0)
     = SHARED_CONTEXT_NS m0.
Proof.
  intros (Hve & Hak & Hda & Hpm) snapshot.
  assert (forall m1,
            importKnowledgeBase snapshot m1
            = {| VIEWPOINT_EXPERTISE_NS :=
                   VIEWPOINT_EXPERTISE_NS m ∪ VIEWPOINT_EXPERTISE_NS m1;
                 AR_WIZARD_KNOWLEDGE_NS :=
                   AR_WIZARD_KNOWLEDGE_NS m ∪ AR_WIZARD_KNOWLEDGE_NS m1;
                 DATABASE_ANALYSIS_NS :=
                   DATABASE_ANALYSIS_NS m ∪ DATABASE_ANALYSIS_NS m1;
                 PREDICTIVE_MODELS_NS :=
                   PREDICTIVE_MODELS_NS m ∪ PREDICTIVE_MODELS_NS m1;
                 SHARED_CONTEXT_NS := SHARED_CONTEXT_NS m1 |}) as Himport.
  { intros m1. subst snapshot.
    unfold importKnowledgeBase, exportKnowledgeBase.
    cbn -[store_each memory.query].
    by rewrite !store_each_query_all. }
  split; [|split].
  - rewrite Himport. unfold without_context, with_context. simpl.
    by rewrite !(right_id_L ∅ (∪)).
  - rewrite Himport. rewrite !(idemp_L (∪)). by destruct m.
  - by rewrite Himport.
Qed.

Lemma export_import_round_trip_witness :
  well_keyed Examples.expertise_store
  /\ importKnowledgeBase
       (export_data
          (exportKnowledgeBase canonical_engine 9 Examples.expertise_store))
       empty_memory
     = without_context Examples.expertise_store.
Proof.
  split; [exact expertise_store_well_keyed|].
  exact (proj1 (export_import_round_trip canonical_engine 9
                  Examples.expertise_store empty_memory
                  expertise_store_well_keyed)).
Defined.

(** ** Reading knowledge by category *)


(** X4.  On a store in which every knowledge record sits under its own
    id, [getARWizardKnowledge category] returns one record for each stored
    record of that category, in the order of the query: the [i]-th
    returned record has [lastUsed] equal to the [i]-th reading of the
    clock and every other field ([createdAt] included) as stored, and it
    is what the store holds under that id afterwards.  Records of other
    categories, absent keys and the other namespaces are untouched. *)
Theorem getARWizardKnowledge_touches_lastUsed
    (E : QueryEngine) (category : KnowledgeCategory) (clock : nat -> Date)
    (m : DistributedMemorySystem) :
  keyed_by_id ak_id (AR_WIZARD_KNOWLEDGE_NS m) ->
  let found :=
    memory.query E (AR_WIZARD_KNOWLEDGE_NS m)
      (fun r => bool_decide (ak_category r = category)) in
  let returned := (getARWizardKnowledge E category clock m).1 in
  let m' := (getARWizardKnowledge E category clock m).2 in
  (forall r,
     r ∈ found
     <-> (exists k, AR_WIZARD_KNOWLEDGE_NS m !! k = Some r)
         /\ ak_category r = category)
  /\ length returned = length found
  /\ (forall i r,
        found !! i = Some r ->
        exists r',
          returned !! i = Some r'
          /\ ak_lastUsed r' = clock i
          /\ same_but_lastUsed r r'
          /\ AR_WIZARD_KNOWLEDGE_NS m' !! ak_id r = Some r')
  /\ (forall k r,
        AR_WIZARD_KNOWLEDGE_NS m !! k = Some r ->
        ak_category r = category ->
        exists i r',
          returned !! i = Some r'
          /\ AR_WIZARD_KNOWLEDGE_NS m' !! k = Some r'
          /\ ak_lastUsed r' = clock i
          /\ same_but_lastUsed r r')
  /\ (forall k r,
        AR_WIZARD_KNOWLEDGE_NS m !! k = Some r ->
        ak_category r <> category ->
        AR_WIZARD_KNOWLEDGE_NS m' !! k = Some r)
  /\ (forall k,
        AR_WIZARD_KNOWLEDGE_NS m !! k = None ->
        AR_WIZARD_KNOWLEDGE_NS m' !! k = None)
  /\ VIEWPOINT_EXPERTISE_NS m' = VIEWPOINT_EXPERTISE_NS m
  /\ DATABASE_ANALYSIS_NS m' = DATABASE_ANALYSIS_NS m
  /\ PREDICTIVE_MODELS_NS m' = PREDICTIVE_MODELS_NS m
  /\ SHARED_CONTEXT_NS m' = SHARED_CONTEXT_NS m.
Proof.
  intros Hkeyed found returned m'.
  subst returned m'. unfold getARWizardKnowledge. fold found.
  rewrite (update_each_imap ak_id). cbn [fst snd Nat.add].
  set (touched := imap (fun i r => touch (clock i) r) found).
  change (imap (fun j => touch (clock j)) found) with touched.
  cbn [AR_WIZARD_KNOWLEDGE_NS VIEWPOINT_EXPERTISE_NS DATABASE_ANALYSIS_NS
       PREDICTIVE_MODELS_NS SHARED_CONTEXT_NS with_knowledge].
  assert (ak_id <$> touched = ak_id <$> found) as Hids.
  { subst touched. rewrite fmap_imap.
    rewrite (imap_ext _ (fun _ => ak_id)); [apply imap_const|done]. }
  assert (NoDup (ak_id <$> touched)) as Hnd
    by (rewrite Hids; by apply query_ids_NoDup).
  destruct (store_each_merge ak_id touched (AR_WIZARD_KNOWLEDGE_NS m))
    as (Hframe & _ & Hnew).
  assert (forall r,
            r ∈ found
            <-> (exists k, AR_WIZARD_KNOWLEDGE_NS m !! k = Some r)
                /\ ak_category r = category) as Hfound.
  { intros r. subst found. rewrite elem_of_query.
    by rewrite bool_decide_eq_true. }
  assert (forall k,
            k ∈ ak_id <$> found ->
            exists r, r ∈ found /\ AR_WIZARD_KNOWLEDGE_NS m !! k = Some r)
    as Hstored.
  { intros k [r [-> Hr]]%list_elem_of_fmap. exists r. split; [done|].
    subst found. by eapply (query_id_lookup E ak_id). }
  assert (forall i r,
            found !! i = Some r ->
            exists r',
              touched !! i = Some r'
              /\ ak_lastUsed r' = clock i
              /\ same_but_lastUsed r r'
              /\ store_each ak_id touched (AR_WIZARD_KNOWLEDGE_NS m)
                 !! ak_id r = Some r') as Hith.
  { intros i r Hi. exists (touch (clock i) r).
    assert (touched !! i = Some (touch (clock i) r)) as Hti
      by (subst touched; by rewrite list_lookup_imap, Hi).
    split; [done|]. split; [done|]. split; [by repeat split|].
    apply (Hnew Hnd (touch (clock i) r)).
    by apply list_elem_of_lookup_2 in Hti. }
  split; [exact Hfound|].
  split; [subst touched; apply length_imap|].
  split; [exact Hith|].
  split; [|split; [|split; [|done]]].
  - intros k r Hk Hcat.
    assert (r ∈ found) as Hr by (apply Hfound; eauto).
    apply list_elem_of_lookup in Hr as [i Hi].
    destruct (Hith i r Hi) as (r' & Hr' & Hused & Hsame & Hk').
    exists i, r'. rewrite (Hkeyed _ _ Hk) in Hk'. done.
  - intros k r Hk Hcat. rewrite Hframe; [done|].
    rewrite Hids. intros (r' & Hr' & Hk')%Hstored.
    apply Hfound in Hr' as [_ Hcat']. congruence.
  - intros k Hk. rewrite Hframe; [done|].
    rewrite Hids. intros (r' & _ & Hk')%Hstored. congruence.
Qed.

Lemma knowledge_store_keyed :
  keyed_by_id ak_id (AR_WIZARD_KNOWLEDGE_NS Samples.knowledge_store).
Proof.
  simpl. repeat (apply map_Forall_insert_2; [done|]). apply map_Forall_empty.
Qed.

(** Reading the test cases at time 50 leaves the billing rule [k2] as it
    was and stamps the test case [k1] with 50, created at 0 as before. *)
Lemma getARWizardKnowledge_touches_lastUsed_witness :
  let m' :=
    (getARWizardKnowledge canonical_engine cat_test_case
       (fun i => 50 + Z.of_nat i) Samples.knowledge_store).2 in
  keyed_by_id ak_id (AR_WIZARD_KNOWLEDGE_NS Samples.knowledge_store)
  /\ AR_WIZARD_KNOWLEDGE_NS m' !! "k2"
     = Some (Samples.knowledge "k2" cat_billing_rule 0)
  /\ exists i r',
       AR_WIZARD_KNOWLEDGE_NS m' !! "k1" = Some r'
       /\ ak_lastUsed r' = 50 + Z.of_nat i
       /\ ak_createdAt r' = 0.
Proof.
  intros m'. split; [exact knowledge_store_keyed|].
  destruct (getARWizardKnowledge_touches_lastUsed canonical_engine
              cat_test_case (fun i => 50 + Z.of_nat i)
              Samples.knowledge_store knowledge_store_keyed)
    as (_ & _ & _ & Hsame & Hother & _).
  split.
  - by apply Hother.
  - destruct (Hsame "k1" (Samples.knowledge "k1" cat_test_case 0)
                eq_refl eq_refl) as (i & r' & _ & Hk & Hused & Hrest).
    exists i, r'. split; [exact Hk|]. split; [exact Hused|].
    exact (proj2 (proj2 (proj2 (proj2 (proj2 (proj2 (proj2 Hrest))))))).
Defined.

(** ** Storing, then reading *)

(** X5.  [storeDatabaseAnalysis] writes the analysis under the generated
    id, stamped with the current time, and touches nothing else; no
    validity check is made.  At any later instant the stored record is
    among the results of [getDatabaseAnalysis] for its database (with or
    without its kind) exactly while [validUntil] lies in the future, so a
    record stored with a [validUntil] that has already passed is kept in
    storage but never returned; and a record visible at some instant is
    visible at every earlier one. *)
Theorem stored_analysis_visible_while_valid
    (E : QueryEngine) (id : string) (now : Date) (analysis : AnalysisInput)
    (m : DistributedMemorySystem) :
  let m1 := (storeDatabaseAnalysis id now analysis m).2 in
  let record := analysis_record id now analysis in
  (storeDatabaseAnalysis id now analysis m).1 = id
  /\ DATABASE_ANALYSIS_NS m1 !! id = Some record
  /\ (forall k, k <> id ->
                DATABASE_ANALYSIS_NS m1 !! k = DATABASE_ANALYSIS_NS m !! k)
  /\ (VIEWPOINT_EXPERTISE_NS m1 = VIEWPOINT_EXPERTISE_NS m
      /\ AR_WIZARD_KNOWLEDGE_NS m1 = AR_WIZARD_KNOWLEDGE_NS m
      /\ PREDICTIVE_MODELS_NS m1 = PREDICTIVE_MODELS_NS m
      /\ SHARED_CONTEXT_NS m1 = SHARED_CONTEXT_NS m)
  /\ (forall now',
        (record ∈ getDatabaseAnalysis E (ai_database analysis)
                    (Some (ai_analysisType analysis)) now' m1
         <-> now' < ai_validUntil analysis)
        /\ (record ∈ getDatabaseAnalysis E (ai_database analysis) None
                       now' m1
            <-> now' < ai_validUntil analysis))
  /\ (forall m0 database analysisType now1 now2 r,
        now1 <= now2 ->
        r ∈ getDatabaseAnalysis E database analysisType now2 m0 ->
        r ∈ getDatabaseAnalysis E database analysisType now1 m0).
Proof.
  intros m1 record. subst m1 record.
  unfold storeDatabaseAnalysis, memory.store.
  cbn [fst snd DATABASE_ANALYSIS_NS with_analyses VIEWPOINT_EXPERTISE_NS
       AR_WIZARD_KNOWLEDGE_NS PREDICTIVE_MODELS_NS SHARED_CONTEXT_NS].
  fold (analysis_record id now analysis).
  split; [done|]. split; [apply lookup_insert_eq|].
  split; [intros k Hk; by apply lookup_insert_ne|].
  split; [done|]. split.
  - intros now'.
    split; rewrite elem_of_getDatabaseAnalysis;
      cbn [DATABASE_ANALYSIS_NS with_analyses]; (split; [tauto|]);
      intros Hlive; (split; [exists id; apply lookup_insert_eq|]);
      (split; [|done]); unfold analysis_criteria; simpl;
      by rewrite !bool_decide_eq_true_2.
  - intros m0 database analysisType now1 now2 r Hle.
    rewrite !elem_of_getDatabaseAnalysis.
    intros (Hk & Hc & Hlive). repeat split; try done. lia.
Qed.

(** An analysis stored at time 100 with a horizon of 90 is never shown;
    one with a horizon of 500 is shown at time 499. *)
Lemma stored_analysis_visible_while_valid_witness :
  ~ analysis_record "a9" 100 (Samples.analysis_input 90)
      ∈ getDatabaseAnalysis canonical_engine gbi None 100
          (storeDatabaseAnalysis "a9" 100 (Samples.analysis_input 90)
             Examples.analysis_store).2
  /\ analysis_record "a9" 100 (Samples.analysis_input 500)
       ∈ getDatabaseAnalysis canonical_engine gbi None 499
           (storeDatabaseAnalysis "a9" 100 (Samples.analysis_input 500)
              Examples.analysis_store).2.
Proof.
  split.
  - destruct (stored_analysis_visible_while_valid canonical_engine "a9" 100
                (Samples.analysis_input 90) Examples.analysis_store)
      as (_ & _ & _ & _ & Hvisible & _).
    intros Hin. apply (proj2 (Hvisible 100)) in Hin. simpl in Hin. lia.
  - destruct (stored_analysis_visible_while_valid canonical_engine "a9" 100
                (Samples.analysis_input 500) Examples.analysis_store)
      as (_ & _ & _ & _ & Hvisible & _).
    apply (proj2 (Hvisible 499)). simpl. lia.
Defined.

(** X6.  [storeViewpointExpertise] writes the record under the generated
    id with a usage count of 0.  On a store in which every expertise
    record sits under its own id, the first read of its domain (with or
    without its type) returns it with a count of 1 and persists that
    count, while a read of another domain leaves the count at 0. *)
Theorem stored_expertise_first_read
    (E : QueryEngine) (id : string) (now : Date) (expertise : ExpertiseInput)
    (m : DistributedMemorySystem) :
  keyed_by_id ve_id (VIEWPOINT_EXPERTISE_NS m) ->
  let m1 := (storeViewpointExpertise id now expertise m).2 in
  let record := expertise_record id now expertise in
  VIEWPOINT_EXPERTISE_NS m1 !! id = Some record
  /\ ve_usageCount record = 0
  /\ (forall type,
        type = None \/ type = Some (ei_type expertise) ->
        let read := getViewpointExpertise E (ei_domain expertise) type m1 in
        increment_usage record ∈ read.1
        /\ VIEWPOINT_EXPERTISE_NS read.2 !! id
           = Some (increment_usage record)
        /\ ve_usageCount (increment_usage record) = 1)
  /\ (forall domain type,
        domain <> ei_domain expertise ->
        VIEWPOINT_EXPERTISE_NS
          (getViewpointExpertise E domain type m1).2 !! id
        = Some record).
Proof.
  intros Hkeyed m1 record.
  assert (VIEWPOINT_EXPERTISE_NS m1 !! id = Some record) as Hstored.
  { subst m1. unfold storeViewpointExpertise, memory.store. simpl.
    apply lookup_insert_eq. }
  assert (keyed_by_id ve_id (VIEWPOINT_EXPERTISE_NS m1)) as Hkeyed1.
  { subst m1. unfold storeViewpointExpertise, memory.store. simpl.
    by apply map_Forall_insert_2. }
  split; [done|]. split; [done|]. split.
  - intros type Htype read. subst read.
    rewrite getViewpointExpertise_keyed by done. cbn [fst snd].
    rewrite VIEWPOINT_EXPERTISE_NS_with.
    assert (expertise_criteria (ei_domain expertise) type record = true)
      as Hmatch.
    { unfold expertise_criteria. simpl.
      rewrite bool_decide_eq_true_2 by done.
      destruct Htype as [-> | ->]; [done|].
      by rewrite bool_decide_eq_true_2. }
    split; [|split; [|done]].
    + apply list_elem_of_fmap_2, elem_of_query. eauto.
    + by rewrite lookup_fmap, Hstored; simpl; rewrite Hmatch.
  - intros domain type Hdomain.
    rewrite getViewpointExpertise_keyed by done. cbn [snd].
    rewrite VIEWPOINT_EXPERTISE_NS_with, lookup_fmap, Hstored. simpl.
    unfold expertise_criteria. simpl.
    by rewrite bool_decide_eq_false_2 by done.
Qed.

Lemma stored_expertise_first_read_witness :
  keyed_by_id ve_id (VIEWPOINT_EXPERTISE_NS Examples.expertise_store)
  /\ VIEWPOINT_EXPERTISE_NS
       (getViewpointExpertise canonical_engine wip_analysis None
          (storeViewpointExpertise "e7" 3 Samples.expertise_input
             Examples.expertise_store).2).2 !! "e7"
     = Some (increment_usage (expertise_record "e7" 3 Samples.expertise_input)).
Proof.
  split; [exact expertise_store_keyed|].
  destruct (stored_expertise_first_read canonical_engine "e7" 3
              Samples.expertise_input Examples.expertise_store
              expertise_store_keyed) as (_ & _ & Hread & _).
  exact (proj1 (proj2 (Hread None (or_introl eq_refl)))).
Defined.

(** ** Predictive models *)

Section Models.
Context (E : QueryEngine).

Lemma elem_of_getPredictiveModel type name m (p : PredictiveModel) :
  p ∈ getPredictiveModel E type name m
  <-> (exists k, PREDICTIVE_MODELS_NS m !! k = Some p)
      /\ pm_type p = type
      /\ match name with
         | Some n => n = EmptyString \/ pm_name p = n
         | None => True
         end.
Proof.
  unfold getPredictiveModel. rewrite elem_of_query.
  unfold model_criteria. rewrite andb_true_iff, bool_decide_eq_true.
  destruct name as [n|]; [|tauto].
  case_bool_decide as Hn; [tauto|].
  rewrite bool_decide_eq_true. tauto.
Qed.

(** What [getBestPredictiveModel] returns, when it returns a model. *)
Lemma getBestPredictiveModel_Some type m best :
  getBestPredictiveModel E type m = Some best ->
  best ∈ getPredictiveModel E type None m
  /\ forall p,
       p ∈ getPredictiveModel E type None m ->
       (accuracy (pm_performance p) <= accuracy (pm_performance best))%Q.
Proof.
  unfold getBestPredictiveModel.
  destruct (length _ =? 0)%nat; [done|]. intros Hhead.
  by apply (head_sort_max _ (fun p => accuracy (pm_performance p))
              accuracy_compare_key) in Hhead.
Qed.

Lemma getBestPredictiveModel_is_Some type m p :
  p ∈ getPredictiveModel E type None m ->
  is_Some (getBestPredictiveModel E type m).
Proof.
  intros Hp. unfold getBestPredictiveModel.
  destruct (length _ =? 0)%nat eqn:Hlen.
  - apply length_eqb_0 in Hlen. rewrite Hlen in Hp.
    by apply elem_of_nil in Hp.
  - apply head_sort_is_Some. intros Hnil. rewrite Hnil in Hp.
    by apply elem_of_nil in Hp.
Qed.
End Models.

(** X7.  [getPredictiveModel type name] returns exactly the stored models
    of that type, restricted to those called [name] when a non-empty name
    is given; an empty name is ignored, so it returns the same array as
    no name at all. *)
Theorem getPredictiveModel_filter
    (E : QueryEngine) (type : ModelType) (m : DistributedMemorySystem) :
  (forall name p,
     p ∈ getPredictiveModel E type name m
     <-> (exists k, PREDICTIVE_MODELS_NS m !! k = Some p)
         /\ pm_type p = type
         /\ match name with
            | Some n => n = EmptyString \/ pm_name p = n
            | None => True
            end)
  /\ getPredictiveModel E type (Some EmptyString) m
     = getPredictiveModel E type None m.
Proof.
  split; [intros; apply elem_of_getPredictiveModel|].
  unfold getPredictiveModel, memory.query.
  apply filter_ext. intros p. unfold model_criteria.
  by rewrite (bool_decide_eq_true_2 (EmptyString = EmptyString) eq_refl).
Qed.

(** X8.  After [updateModelPerformance] gives a stored model an accuracy
    strictly above that of every other stored model of its type,
    [getBestPredictiveModel] for that type returns that model, with the
    new performance and [lastValidated] set to the time of the update. *)
Theorem revalidated_model_becomes_best
    (E : QueryEngine) (modelId : string) (perf : ModelPerformance)
    (now : Date) (m : DistributedMemorySystem) (model : PredictiveModel) :
  PREDICTIVE_MODELS_NS m !! modelId = Some model ->
  (forall k p,
     k <> modelId -> PREDICTIVE_MODELS_NS m !! k = Some p ->
     pm_type p = pm_type model ->
     (accuracy (pm_performance p) < accuracy perf)%Q) ->
  getBestPredictiveModel E (pm_type model)
    (updateModelPerformance modelId perf now m)
  = Some (revalidate perf now model).
Proof.
  intros Hmodel Hothers.
  set (m' := updateModelPerformance modelId perf now m).
  assert (forall k,
            PREDICTIVE_MODELS_NS m' !! k
            = if decide (modelId = k) then Some (revalidate perf now model)
              else PREDICTIVE_MODELS_NS m !! k) as Hlookup.
  { intros k. subst m'. unfold updateModelPerformance, memory.get.
    rewrite Hmodel. unfold memory.store. simpl. apply lookup_insert. }
  assert (revalidate perf now model
            ∈ getPredictiveModel E (pm_type model) None m') as Hin.
  { apply elem_of_getPredictiveModel. split; [|done].
    exists modelId. by rewrite Hlookup, decide_True. }
  destruct (getBestPredictiveModel_is_Some E _ _ _ Hin) as [best Hbest].
  rewrite Hbest. f_equal.
  apply getBestPredictiveModel_Some in Hbest as [Hb Hmax].
  apply elem_of_getPredictiveModel in Hb as ([k Hk] & Hty & _).
  rewrite Hlookup in Hk. case_decide as Hkey; [congruence|].
  exfalso. specialize (Hmax _ Hin). simpl in Hmax.
  assert (k <> modelId) as Hne by congruence.
  exact (Qlt_not_le _ _ (Hothers k best Hne Hk Hty) Hmax).
Qed.

(** Model A (accuracy 0.80) is re-validated at 0.97 and overtakes B. *)
Lemma revalidated_model_becomes_best_witness :
  getBestPredictiveModel canonical_engine billing_prediction
    (updateModelPerformance "A" Samples.better_performance 60
       Examples.model_store)
  = Some (revalidate Samples.better_performance 60 Examples.model_A).
Proof.
  apply (revalidated_model_becomes_best canonical_engine "A"
           Samples.better_performance 60 Examples.model_store
           Examples.model_A); [reflexivity|].
  intros k p Hne Hp _. simpl in Hp.
  apply lookup_insert_Some in Hp as [[Hk _]|[_ Hp]]; [congruence|].
  apply lookup_insert_Some in Hp as [[_ <-]|[_ Hp]]; [reflexivity|].
  by rewrite lookup_empty in Hp.
Defined.

(** ** Shared contexts over time *)

Section ContextReads.
Implicit Types (m : DistributedMemorySystem) (times : list Date).

Lemma getSharedContext_each_cons key now times m :
  getSharedContext_each key (now :: times) m
  = foldl (fun acc n => getSharedContext key n acc.2)
      (getSharedContext key now m) times.
Proof. done. Qed.

Lemma reads_of_absent_key key times res m :
  SHARED_CONTEXT_NS m !! key = None ->
  foldl (fun acc n => getSharedContext key n acc.2) (res, m) times
  = (match times with [] => res | _ => None end, m).
Proof.
  intros Hkey. revert res.
  induction times as [|n times IH]; intros res; [done|].
  cbn [foldl snd]. rewrite (getSharedContext_absent _ _ _ Hkey), IH.
  by destruct times.
Qed.

Lemma reads_of_present_key key times res m r :
  SHARED_CONTEXT_NS m !! key = Some r ->
  foldl (fun acc n => getSharedContext key n acc.2) (res, m) times
  = if forallb (fun n => n - timestamp r <=? ttl r) times
    then (match times with [] => res | _ => Some (data r) end, m)
    else (None, with_context (delete key (SHARED_CONTEXT_NS m)) m).
Proof.
  intros Hkey. revert res.
  induction times as [|n times IH]; intros res; [done|].
  cbn [foldl snd forallb]. rewrite (getSharedContext_present _ _ _ _ Hkey).
  destruct (Z.leb_spec (n - timestamp r) (ttl r)) as [Hle|Hgt].
  - rewrite decide_False by lia. rewrite IH. cbn [andb].
    destruct (forallb (fun n0 => n0 - timestamp r <=? ttl r) times);
      [|done].
    by destruct times.
  - rewrite decide_True by lia. cbn [andb].
    rewrite reads_of_absent_key by (simpl; apply lookup_delete_eq).
    by destruct times.
Qed.
End ContextReads.

(** X9.  A read of a shared context never extends its life and is
    final once it comes too late.  After [storeSharedContext] at time
    [now], a series of reads of the key at arbitrary instants ends with the
    stored data exactly when every read of the series, the last one
    included, came no later than [ttl] after [now]; then the store is as
    it was after the write.  Otherwise the last read returns nothing and
    the entry is gone, even if the clock of the last read is early
    enough. *)
Theorem shared_context_read_sequence
    (key : string) (context : JsAny) (ttl0 : option Z) (now : Date)
    (times : list Date) (last : Date) (m : DistributedMemorySystem) :
  let m1 := storeSharedContext key context ttl0 now m in
  let reads := getSharedContext_each key (times ++ [last]) m1 in
  (Forall (fun n => n - now <= ttl_or_default ttl0) (times ++ [last]) ->
   reads = (Some context, m1))
  /\ (~ Forall (fun n => n - now <= ttl_or_default ttl0) (times ++ [last]) ->
      reads.1 = None /\ SHARED_CONTEXT_NS reads.2 !! key = None).
Proof.
  intros m1 reads.
  assert (SHARED_CONTEXT_NS m1 !! key
          = Some {| data := context; timestamp := now;
                    ttl := ttl_or_default ttl0 |}) as Hput.
  { subst m1. unfold storeSharedContext, memory.store. simpl.
    apply lookup_insert_eq. }
  subst reads. unfold getSharedContext_each.
  rewrite (reads_of_present_key _ _ _ _ _ Hput). cbn [data timestamp ttl].
  destruct (forallb _ _) eqn:Hall.
  - split.
    + intros _. by destruct times.
    + intros Hnot. exfalso. apply Hnot, Forall_forall. intros n Hn.
      rewrite forallb_forall in Hall. apply Z.leb_le, Hall.
      by apply list_elem_of_In.
  - split.
    + intros Hvalid. exfalso.
      assert (forallb (fun n => n - now <=? ttl_or_default ttl0)
                (times ++ [last]) = true) as Htrue; [|congruence].
      apply forallb_forall. intros n Hn. apply Z.leb_le.
      rewrite Forall_forall in Hvalid. by apply Hvalid, list_elem_of_In.
    + intros _. simpl. split; [done|]. apply lookup_delete_eq.
Qed.

(** With a ttl of 1000 written at time 0: reads at 10, 500, 1000 all
    succeed; a read at 1001 followed by one at 20 finds nothing. *)
Lemma shared_context_read_sequence_witness :
  getSharedContext_each "k" [10; 500; 1000]
    (storeSharedContext "k" "blob" (Some 1000) 0 empty_memory)
  = (Some "blob", storeSharedContext "k" "blob" (Some 1000) 0 empty_memory)
  /\ (getSharedContext_each "k" [1001; 20]
        (storeSharedContext "k" "blob" (Some 1000) 0 empty_memory)).1
     = None.
Proof.
  split.
  - apply (proj1 (shared_context_read_sequence "k" "blob" (Some 1000) 0
                    [10; 500] 1000 empty_memory)).
    repeat constructor; simpl; lia.
  - apply (proj2 (shared_context_read_sequence "k" "blob" (Some 1000) 0
                    [1001] 20 empty_memory)).
    intros Hall. apply Forall_cons in Hall as [Hlate _].
    simpl in Hlate. lia.
Defined.

(** X10.  Shared-context calls are local to their key: writing or
    reading (and, on expiry, deleting) the context of one key changes
    neither the entry of any other key nor any other namespace; a second
    write on the same key replaces the first, data and time stamp
    alike. *)
Theorem shared_context_calls_are_local
    (key other : string) (context context' : JsAny) (ttl0 ttl1 : option Z)
    (now now' : Date) (m : DistributedMemorySystem) :
  other <> key ->
  let written := storeSharedContext key context ttl0 now m in
  let read := (getSharedContext key now m).2 in
  (SHARED_CONTEXT_NS written !! other = SHARED_CONTEXT_NS m !! other
   /\ without_context written = without_context m)
  /\ (SHARED_CONTEXT_NS read !! other = SHARED_CONTEXT_NS m !! other
      /\ without_context read = without_context m)
  /\ storeSharedContext key context' ttl1 now' written
     = storeSharedContext key context' ttl1 now' m.
Proof.
  intros Hother written read. subst written read.
  unfold storeSharedContext, memory.store. simpl.
  split; [|split].
  - split; [by apply lookup_insert_ne|done].
  - unfold getSharedContext, memory.get, memory.delete.
    destruct (SHARED_CONTEXT_NS m !! key) as [r|]; [|done].
    simpl. destruct (ttl r <? now - timestamp r); [|done].
    split; [by apply lookup_delete_ne|done].
  - unfold with_context. simpl. f_equal. apply insert_insert_eq.
Qed.

Lemma shared_context_calls_are_local_witness :
  "b" <> "a"
  /\ SHARED_CONTEXT_NS
       (getSharedContext "a" 5000
          (storeSharedContext "a" "one" (Some 10) 0
             (storeSharedContext "b" "two" None 0 empty_memory))).2 !! "b"
     = SHARED_CONTEXT_NS
         (storeSharedContext "a" "one" (Some 10) 0
            (storeSharedContext "b" "two" None 0 empty_memory)) !! "b".
Proof.
  assert ("b" <> "a") as Hne by discriminate.
  split; [exact Hne|].
  exact (proj1 (proj1 (proj2
           (shared_context_calls_are_local "a" "b" "one" "one" None None
              5000 0
              (storeSharedContext "a" "one" (Some 10) 0
                 (storeSharedContext "b" "two" None 0 empty_memory))
              Hne)))).
Defined.

(** ** Maintenance seen from the readers *)

Section Maintenance.
Context (E : QueryEngine).

Lemma performMaintenance_keyed now now' m :
  keyed_by_id da_id (DATABASE_ANALYSIS_NS m) ->
  performMaintenance E now now' m
  = with_analyses
      (filter (fun kr => now < da_validUntil kr.2) (DATABASE_ANALYSIS_NS m))
      m.
Proof.
  intros Hkeyed. unfold performMaintenance, optimizeMemoryUsage.
  cbv zeta.
  transitivity
    (with_analyses (DATABASE_ANALYSIS_NS (cleanupExpiredAnalyses E now m)) m);
    [done|].
  by rewrite cleanupExpiredAnalyses_keyed.
Qed.

Lemma keyed_by_id_filter {A : Type} (id_of : A -> string)
    (P : string * A -> Prop) `{!forall kr, Decision (P kr)}
    (t : gmap string A) :
  keyed_by_id id_of t -> keyed_by_id id_of (filter P t).
Proof.
  intros Hkeyed k r [Hk _]%map_lookup_filter_Some. by apply Hkeyed.
Qed.

Lemma getLatestDatabaseAnalysis_None database analysisType now m :
  getLatestDatabaseAnalysis E database analysisType now m = None
  <-> getDatabaseAnalysis E database (Some analysisType) now m = [].
Proof.
  unfold getLatestDatabaseAnalysis.
  destruct (length _ =? 0)%nat eqn:Hlen.
  - apply length_eqb_0 in Hlen. done.
  - split.
    + intros Hhead. exfalso.
      destruct (head_sort_is_Some
                  (fun a b : DatabaseAnalysis =>
                     inject_Z (da_analyzedAt b - da_analyzedAt a))
                  (getDatabaseAnalysis E database (Some analysisType) now m))
        as [h Hh]; [|congruence].
      intros Hnil. apply length_eqb_0 in Hnil. congruence.
    + intros Hnil. apply length_eqb_0 in Hnil. congruence.
Qed.

Lemma list_nil_iff_no_elem {A : Type} (l : list A) :
  l = [] <-> forall x, x ∉ l.
Proof.
  split; [intros -> x; apply not_elem_of_nil|].
  destruct l as [|x l]; [done|]. intros Hno.
  destruct (Hno x). by left.
Qed.
End Maintenance.

(** X11.  [performMaintenance] only sweeps the analysis namespace: on
    every store the expertise, knowledge, model and shared-context
    namespaces come out unchanged (no knowledge is archived, however old,
    and expired shared contexts stay until they are read).  On a store in
    which every analysis sits under its own id it removes every analysis
    that has expired and keeps every analysis that is still valid, and a
    maintenance run at a later time subsumes an earlier one: running both
    leaves the store the later run alone leaves. *)
Theorem performMaintenance_composition
    (E : QueryEngine) (now1 now2 archive1 archive2 : Date)
    (m : DistributedMemorySystem) :
  let m1 := performMaintenance E now1 archive1 m in
  (VIEWPOINT_EXPERTISE_NS m1 = VIEWPOINT_EXPERTISE_NS m
   /\ AR_WIZARD_KNOWLEDGE_NS m1 = AR_WIZARD_KNOWLEDGE_NS m
   /\ PREDICTIVE_MODELS_NS m1 = PREDICTIVE_MODELS_NS m
   /\ SHARED_CONTEXT_NS m1 = SHARED_CONTEXT_NS m)
  /\ (keyed_by_id da_id (DATABASE_ANALYSIS_NS m) ->
      (forall k a,
         DATABASE_ANALYSIS_NS m !! k = Some a -> now1 < da_validUntil a ->
         DATABASE_ANALYSIS_NS m1 !! k = Some a)
      /\ (forall k a,
            DATABASE_ANALYSIS_NS m !! k = Some a -> da_validUntil a <= now1 ->
            DATABASE_ANALYSIS_NS m1 !! k = None)
      /\ (forall k,
            DATABASE_ANALYSIS_NS m !! k = None ->
            DATABASE_ANALYSIS_NS m1 !! k = None)
      /\ (now1 <= now2 ->
          performMaintenance E now2 archive2 m1
          = performMaintenance E now2 archive2 m)).
Proof.
  intros m1. split; [done|]. intros Hkeyed. subst m1.
  rewrite !(performMaintenance_keyed E _ _ m Hkeyed).
  split; [|split; [|split]].
  - intros k a Hk Hlive. simpl. by apply map_lookup_filter_Some.
  - intros k a Hk Hdead. simpl. apply map_lookup_filter_None.
    right. intros a' Hk'. simpl. assert (a' = a) as -> by congruence. lia.
  - intros k Hk. simpl. apply map_lookup_filter_None. by left.
  - intros Hle. rewrite performMaintenance_keyed
      by (simpl; by apply keyed_by_id_filter).
    unfold with_analyses. simpl. f_equal.
    apply map_eq. intros k. rewrite !map_lookup_filter.
    destruct (DATABASE_ANALYSIS_NS m !! k) as [a|]; [|done]. simpl.
    destruct (decide (now1 < da_validUntil a)) as [Hlive|Hdead].
    + by rewrite option_guard_True.
    + rewrite option_guard_False by done. simpl.
      by rewrite option_guard_False by (simpl; lia).
Qed.

(** A run at time 60 sweeps analysis [a1], valid until 50, and keeps
    [a2], valid until 200; a run at time 250 after it sweeps [a2] as
    well, and leaves what a run at 250 alone leaves. *)
Lemma performMaintenance_composition_witness :
  let m1 := performMaintenance canonical_engine 60 60 Examples.analysis_store in
  keyed_by_id da_id (DATABASE_ANALYSIS_NS Examples.analysis_store)
  /\ 60 <= 250
  /\ DATABASE_ANALYSIS_NS Examples.analysis_store !! "a1"
     = Some (Examples.analysis "a1" 0 50)
  /\ DATABASE_ANALYSIS_NS m1 !! "a1" = None
  /\ DATABASE_ANALYSIS_NS m1 !! "a2" = Some (Examples.analysis "a2" 10 200)
  /\ performMaintenance canonical_engine 250 250 m1
     = performMaintenance canonical_engine 250 250 Examples.analysis_store.
Proof.
  intros m1.
  assert (60 <= 250) as Hle by lia.
  destruct (performMaintenance_composition canonical_engine 60 250 60 250
              Examples.analysis_store) as (_ & Hkeyed).
  destruct (Hkeyed analysis_store_keyed) as (Hlive & Hdead & _ & Hlater).
  split; [exact analysis_store_keyed|]. split; [exact Hle|].
  split; [reflexivity|].
  split; [apply (Hdead "a1" (Examples.analysis "a1" 0 50) eq_refl); simpl; lia|].
  split; [apply (Hlive "a2" (Examples.analysis "a2" 10 200) eq_refl);
          simpl; lia|].
  exact (Hlater Hle).
Defined.

(** X12.  A sweep is invisible to the readers.  On a store in which
    every analysis sits under its own id, [getDatabaseAnalysis] at time
    [now] returns the same records whether or not
    [cleanupExpiredAnalyses] ran at some earlier or equal time, and
    [getLatestDatabaseAnalysis] finds nothing after the sweep exactly
    when it found nothing before. *)
Theorem sweep_invisible_to_readers
    (E : QueryEngine) (swept now : Date) (m : DistributedMemorySystem) :
  keyed_by_id da_id (DATABASE_ANALYSIS_NS m) ->
  swept <= now ->
  (forall database analysisType r,
     r ∈ getDatabaseAnalysis E database analysisType now
           (cleanupExpiredAnalyses E swept m)
     <-> r ∈ getDatabaseAnalysis E database analysisType now m)
  /\ (forall database analysisType,
        getLatestDatabaseAnalysis E database analysisType now
          (cleanupExpiredAnalyses E swept m) = None
        <-> getLatestDatabaseAnalysis E database analysisType now m = None).
Proof.
  intros Hkeyed Hle.
  assert (forall database analysisType r,
            r ∈ getDatabaseAnalysis E database analysisType now
                  (cleanupExpiredAnalyses E swept m)
            <-> r ∈ getDatabaseAnalysis E database analysisType now m)
    as Hsame.
  { intros database analysisType r.
    rewrite !elem_of_getDatabaseAnalysis.
    rewrite cleanupExpiredAnalyses_keyed by done.
    split.
    - intros ([k [Hk _]%map_lookup_filter_Some] & Hc & Hlive). eauto.
    - intros ([k Hk] & Hc & Hlive). split; [|done].
      exists k. apply map_lookup_filter_Some. split; [done|]. simpl. lia. }
  split; [exact Hsame|].
  intros database analysisType.
  rewrite !getLatestDatabaseAnalysis_None, !list_nil_iff_no_elem.
  split; intros Hno r Hr; apply (Hno r); by apply Hsame.
Qed.

Lemma sweep_invisible_to_readers_witness :
  keyed_by_id da_id (DATABASE_ANALYSIS_NS Examples.analysis_store)
  /\ 60 <= 100
  /\ forall r,
       r ∈ getDatabaseAnalysis canonical_engine kls None 100
             (cleanupExpiredAnalyses canonical_engine 60
                Examples.analysis_store)
       <-> r ∈ getDatabaseAnalysis canonical_engine kls None 100
                 Examples.analysis_store.
Proof.
  assert (60 <= 100) as Hle by lia.
  split; [exact analysis_store_keyed|]. split; [exact Hle|].
  exact (proj1 (sweep_invisible_to_readers canonical_engine 60 100
                  Examples.analysis_store analysis_store_keyed Hle)
           kls None).
Defined.

(** X13.  A read that matches nothing is a no-op.  When no stored
    expertise record matches the domain and type asked for,
    [getViewpointExpertise] returns the empty array and leaves the whole
    store as it was; likewise [getARWizardKnowledge] for a category of
    which nothing is stored.  This holds on every store. *)
Theorem reads_without_match_change_nothing
    (E : QueryEngine) (m : DistributedMemorySystem) :
  (forall domain type,
     (forall k e,
        VIEWPOINT_EXPERTISE_NS m !! k = Some e ->
        expertise_criteria domain type e = false) ->
     getViewpointExpertise E domain type m = ([], m))
  /\ (forall category clock,
        (forall k r,
           AR_WIZARD_KNOWLEDGE_NS m !! k = Some r ->
           ak_category r <> category) ->
        getARWizardKnowledge E category clock m = ([], m)).
Proof.
  split.
  - intros domain type Hnone. unfold getViewpointExpertise.
    rewrite (proj2 (query_nil E _ _) Hnone). simpl. by destruct m.
  - intros category clock Hnone. unfold getARWizardKnowledge.
    rewrite (proj2 (query_nil E (AR_WIZARD_KNOWLEDGE_NS m)
                      (fun r => bool_decide (ak_category r = category)))).
    + simpl. by destruct m.
    + intros k r Hr. apply bool_decide_eq_false. by apply (Hnone k r).
Qed.

Lemma reads_without_match_change_nothing_witness :
  getViewpointExpertise canonical_engine change_orders None
    Examples.expertise_store
  = ([], Examples.expertise_store).
Proof.
  apply (proj1 (reads_without_match_change_nothing canonical_engine
                  Examples.expertise_store)).
  intros k e He. simpl in He.
  apply lookup_insert_Some in He as [[_ <-]|[_ He]]; [done|].
  apply lookup_insert_Some in He as [[_ <-]|[_ He]]; [done|].
  by rewrite lookup_empty in He.
Defined.

(** * The integration framework *)

(** ** The connection maps *)

Section JsMapFacts.
Context {V : Type}.
Implicit Types (entries : list (string * V)) (k : string) (v : V).

Lemma JsMap_get_set_eq k v entries :
  JsMap.get k (JsMap.set k v entries) = Some v.
Proof.
  induction entries as [|[k' v'] rest IH]; simpl.
  - by rewrite String.eqb_refl.
  - destruct (String.eqb_spec k' k) as [->|Hne]; simpl.
    + by rewrite String.eqb_refl.
    + by rewrite (proj2 (String.eqb_neq k' k) Hne).
Qed.

Lemma JsMap_get_set_ne k k' v entries :
  k <> k' -> JsMap.get k' (JsMap.set k v entries) = JsMap.get k' entries.
Proof.
  intros Hne. induction entries as [|[k0 v0] rest IH]; simpl.
  - by rewrite (proj2 (String.eqb_neq k k') Hne).
  - destruct (String.eqb_spec k0 k) as [->|Hk0]; simpl.
    + by rewrite (proj2 (String.eqb_neq k k') Hne).
    + by rewrite IH.
Qed.

Lemma JsMap_get_Some k entries :
  is_Some (JsMap.get k entries) <-> k ∈ entries.*1.
Proof.
  induction entries as [|[k' v'] rest IH]; simpl.
  - split; [by intros [? ?]|by intros ?%elem_of_nil].
  - rewrite elem_of_cons.
    destruct (String.eqb_spec k' k) as [->|Hne].
    + split; [by left|by eexists].
    + rewrite IH. split; [by right|]. by intros [?|?]; [congruence|].
Qed.

(** The keys after a [set]: unchanged when the key was there, extended
    at the end otherwise. *)
Lemma JsMap_set_keys k v entries :
  (JsMap.set k v entries).*1
  = if decide (k ∈ entries.*1) then entries.*1 else entries.*1 ++ [k].
Proof.
  induction entries as [|[k' v'] rest IH].
  - case_decide as Hin; [by apply elem_of_nil in Hin|done].
  - cbn [JsMap.set]. rewrite (fmap_cons fst (k', v') rest). cbn [fst].
    destruct (String.eqb_spec k' k) as [->|Hne].
    + rewrite decide_True by left. by rewrite fmap_cons.
    + rewrite fmap_cons, IH. cbn [fst].
      destruct (decide (k ∈ rest.*1)) as [Hin|Hnin].
      * rewrite decide_True; [done|]. by right.
      * rewrite decide_False; [done|].
        rewrite elem_of_cons. by intros [?|?]; [congruence|].
Qed.

Lemma JsMap_set_keys_NoDup k v entries :
  NoDup entries.*1 -> NoDup (JsMap.set k v entries).*1.
Proof.
  intros Hnd. rewrite JsMap_set_keys. case_decide as Hk; [done|].
  apply NoDup_app. split; [done|]. split; [|apply NoDup_singleton].
  intros x Hx ->%list_elem_of_singleton. done.
Qed.
End JsMapFacts.

Lemma JsMap_get_set_is_Some {V : Type} (k k' : string) (v : V)
    (entries : list (string * V)) :
  is_Some (JsMap.get k' (JsMap.set k v entries))
  <-> k' = k \/ is_Some (JsMap.get k' entries).
Proof.
  destruct (decide (k = k')) as [->|Hne].
  - rewrite JsMap_get_set_eq. split; [by left|by eexists].
  - rewrite JsMap_get_set_ne by done. split; [by right|].
    by intros [?|?]; [congruence|].
Qed.

Lemma JsMap_set_Forall {V : Type} (P : V -> Prop) (k : string) (v : V)
    (entries : list (string * V)) :
  P v -> Forall (fun kv => P kv.2) entries ->
  Forall (fun kv => P kv.2) (JsMap.set k v entries).
Proof.
  intros Hv. induction 1 as [|[k' v'] rest Hv' Hrest IH]; simpl.
  - by repeat constructor.
  - destruct (String.eqb k' k); constructor; done.
Qed.

Section Connections.
Implicit Types (fw : Integration.Framework) (clock : nat -> Date).

Lemma connectToDatabases_get configs i clock fw name :
  is_Some (JsMap.get name
             (Integration.databaseConnections
                (Integration.connectToDatabases configs i clock fw)))
  <-> name ∈ Integration.vdc_name <$> configs
      \/ is_Some (JsMap.get name (Integration.databaseConnections fw)).
Proof.
  revert i fw. induction configs as [|c rest IH]; intros i fw; simpl.
  - split; [by right|]. by intros [?%elem_of_nil|?].
  - rewrite IH. simpl. rewrite JsMap_get_set_is_Some, elem_of_cons. tauto.
Qed.

Lemma connectToDatabases_keys_NoDup configs i clock fw :
  NoDup (Integration.databaseConnections fw).*1 ->
  NoDup (Integration.databaseConnections
           (Integration.connectToDatabases configs i clock fw)).*1.
Proof.
  revert i fw. induction configs as [|c rest IH]; intros i fw Hnd; [done|].
  simpl. apply IH. simpl. by apply JsMap_set_keys_NoDup.
Qed.

Lemma connectToDatabases_keys configs i clock fw :
  NoDup ((Integration.databaseConnections fw).*1
         ++ (Integration.vdc_name <$> configs)) ->
  (Integration.databaseConnections
     (Integration.connectToDatabases configs i clock fw)).*1
  = (Integration.databaseConnections fw).*1
    ++ (Integration.vdc_name <$> configs).
Proof.
  revert i fw. induction configs as [|c rest IH]; intros i fw Hnd.
  - simpl. by rewrite app_nil_r.
  - cbn [Integration.connectToDatabases]. rewrite fmap_cons in *.
    assert (Integration.vdc_name c
              ∉ (Integration.databaseConnections fw).*1) as Hfresh.
    { apply NoDup_app in Hnd as (_ & Hdisj & _). intros Hin.
      apply (Hdisj _ Hin). by left. }
    rewrite IH; simpl; rewrite JsMap_set_keys, decide_False by done.
    + by rewrite <- app_assoc.
    + by rewrite <- app_assoc.
Qed.

Lemma connectToDatabases_connected configs i clock fw :
  Forall (fun kv => Integration.dc_connected kv.2 = true)
    (Integration.databaseConnections fw) ->
  Forall (fun kv => Integration.dc_connected kv.2 = true)
    (Integration.databaseConnections
       (Integration.connectToDatabases configs i clock fw)).
Proof.
  revert i fw. induction configs as [|c rest IH]; intros i fw Hall; [done|].
  simpl. apply IH. simpl.
  by apply (JsMap_set_Forall (fun conn => Integration.dc_connected conn = true)).
Qed.

Lemma connectToDatabases_clients configs i clock fw :
  Integration.expertSystemClients
    (Integration.connectToDatabases configs i clock fw)
  = Integration.expertSystemClients fw.
Proof.
  revert i fw. induction configs as [|c rest IH]; intros i fw; [done|].
  simpl. by rewrite IH.
Qed.

Lemma status_database_names fw :
  Integration.ds_name
    <$> Integration.databases (Integration.getConnectionStatus fw)
  = (Integration.databaseConnections fw).*1.
Proof.
  unfold Integration.getConnectionStatus. simpl.
  rewrite <- list_fmap_compose. apply list_fmap_ext. by intros i [k v] _.
Qed.
End Connections.

(** X14.  A query is served by connection name.  After the configured
    databases have been connected one after the other,
    [executeViewpointQuery database] succeeds (with an empty row set)
    exactly when [database] is the [name] of one of the configurations or
    of a connection made earlier; the database [type] plays no role.
    Otherwise the call does not throw: it returns [success: false] with
    the error [Database connection not found: <database>].  Either way
    the result names the database as its source and reports the
    difference of the two clock readings. *)
Theorem query_succeeds_iff_connected
    (configs : list Integration.ViewpointDatabaseConfig) (i : nat)
    (clock : nat -> Date) (fw : Integration.Framework)
    (database query : string) (startTime endTime : Date) :
  let fw' := Integration.connectToDatabases configs i clock fw in
  let result :=
    Integration.executeViewpointQuery database query startTime endTime fw' in
  (Integration.success result = true
   <-> database ∈ Integration.vdc_name <$> configs
       \/ is_Some (JsMap.get database (Integration.databaseConnections fw)))
  /\ (Integration.success result = true ->
      Integration.result_data result
      = Some (Integration.query_result [] 0 [])
      /\ Integration.error result = None)
  /\ (Integration.success result = false ->
      Integration.result_data result = None
      /\ Integration.error result
         = Some ("Database connection not found: " ++ database)%string)
  /\ Integration.source result = database
  /\ Integration.executionTime result = endTime - startTime.
Proof.
  intros fw' result. subst result.
  rewrite <- (connectToDatabases_get configs i clock fw database).
  fold fw'. unfold Integration.executeViewpointQuery.
  destruct (JsMap.get database (Integration.databaseConnections fw'))
    as [conn|]; simpl.
  - split; [split; [by eexists|done]|]. by repeat split.
  - split; [split; [done|by intros [? ?]]|]. by repeat split.
Qed.

(** With the two sample databases connected, a query by name succeeds
    and a query by type tag does not. *)
Lemma query_succeeds_iff_connected_witness :
  Integration.success
    (Integration.executeViewpointQuery "Viewpoint_GBI" "SELECT 1" 5 9
       (Integration.connectToDatabases
          [Configs.kls_config; Configs.gbi_config] 0 Configs.wall_clock
          Integration.new_framework))
  = true
  /\ Integration.error
       (Integration.executeViewpointQuery "gbi" "SELECT 1" 5 9
          (Integration.connectToDatabases
             [Configs.kls_config; Configs.gbi_config] 0 Configs.wall_clock
             Integration.new_framework))
     = Some "Database connection not found: gbi".
Proof.
  split.
  - apply (proj1 (query_succeeds_iff_connected
                    [Configs.kls_config; Configs.gbi_config] 0
                    Configs.wall_clock Integration.new_framework
                    "Viewpoint_GBI" "SELECT 1" 5 9)).
    left. right. by left.
  - apply (proj1 (proj2 (proj2 (query_succeeds_iff_connected
                    [Configs.kls_config; Configs.gbi_config] 0
                    Configs.wall_clock Integration.new_framework
                    "gbi" "SELECT 1" 5 9)))).
    reflexivity.
Defined.

(** X15.  The connection status lists every connected database once.
    For a framework that connected the configured databases from scratch,
    [getConnectionStatus] reports each configured name exactly once,
    however often it was configured, and no other name; every entry is
    reported as connected; and when the configured names are distinct
    they are listed in the order of the configuration. *)
Theorem connection_status_lists_each_name_once
    (configs : list Integration.ViewpointDatabaseConfig) (i : nat)
    (clock : nat -> Date) :
  let fw :=
    Integration.connectToDatabases configs i clock
      Integration.new_framework in
  let listed := Integration.databases (Integration.getConnectionStatus fw) in
  NoDup (Integration.ds_name <$> listed)
  /\ (forall name,
        name ∈ Integration.ds_name <$> listed
        <-> name ∈ Integration.vdc_name <$> configs)
  /\ Forall (fun d => Integration.ds_connected d = true) listed
  /\ (NoDup (Integration.vdc_name <$> configs) ->
      Integration.ds_name <$> listed = Integration.vdc_name <$> configs).
Proof.
  intros fw listed. subst listed. rewrite status_database_names.
  split; [|split; [|split]].
  - apply connectToDatabases_keys_NoDup. simpl. apply NoDup_nil_2.
  - intros name. rewrite <- JsMap_get_Some. subst fw.
    rewrite connectToDatabases_get. simpl.
    split; [|by left]. by intros [?|[? ?]].
  - unfold Integration.getConnectionStatus. simpl.
    apply Forall_fmap.
    eapply Forall_impl;
      [apply connectToDatabases_connected; by constructor|].
    by intros [k v].
  - intros Hnd. subst fw. by rewrite connectToDatabases_keys.
Qed.

Lemma connection_status_lists_each_name_once_witness :
  NoDup (Integration.vdc_name <$> [Configs.kls_config; Configs.gbi_config])
  /\ Integration.ds_name
       <$> Integration.databases
             (Integration.getConnectionStatus
                (Integration.connectToDatabases
                   [Configs.kls_config; Configs.gbi_config] 0
                   Configs.wall_clock Integration.new_framework))
     = ["Viewpoint_KLS"; "Viewpoint_GBI"].
Proof.
  assert (NoDup (Integration.vdc_name
                   <$> [Configs.kls_config; Configs.gbi_config])) as Hnd.
  { simpl. apply NoDup_cons. split; [|apply NoDup_singleton].
    intros Hin%list_elem_of_singleton. discriminate Hin. }
  split; [exact Hnd|].
  exact (proj2 (proj2 (proj2 (connection_status_lists_each_name_once
                  [Configs.kls_config; Configs.gbi_config] 0
                  Configs.wall_clock))) Hnd).
Defined.

(** ** Expert systems *)

Section Experts.
Implicit Types (fw : Integration.Framework) (clock : nat -> Date).

Lemma find_last_cons {A : Type} (p : A -> bool) (x : A) (l : list A) :
  find_last p (x :: l)
  = match find_last p l with
    | Some y => Some y
    | None => if p x then Some x else None
    end.
Proof.
  unfold find_last. simpl. induction (rev l) as [|y r IH]; simpl; [done|].
  by destruct (p y).
Qed.

Lemma capabilities_after_connect config now fw name :
  Integration.getExpertSystemCapabilities name
    (Integration.connectToExpertSystem config now fw)
  = if String.eqb (Integration.esc_name config) name
    then Integration.returned (Integration.esc_capabilities config)
    else Integration.getExpertSystemCapabilities name fw.
Proof.
  unfold Integration.getExpertSystemCapabilities,
    Integration.connectToExpertSystem. simpl.
  destruct (String.eqb_spec (Integration.esc_name config) name) as [<-|Hne].
  - by rewrite JsMap_get_set_eq.
  - by rewrite JsMap_get_set_ne.
Qed.

Lemma capabilities_after_connectToExpertSystems configs i clock fw name :
  Integration.getExpertSystemCapabilities name
    (Integration.connectToExpertSystems configs i clock fw)
  = match find_last
            (fun c => String.eqb (Integration.esc_name c) name) configs with
    | Some c => Integration.returned (Integration.esc_capabilities c)
    | None => Integration.getExpertSystemCapabilities name fw
    end.
Proof.
  revert i fw. induction configs as [|c rest IH]; intros i fw; [done|].
  cbn [Integration.connectToExpertSystems].
  rewrite IH, find_last_cons, capabilities_after_connect.
  destruct (find_last _ rest); [done|].
  by destruct (String.eqb (Integration.esc_name c) name).
Qed.
End Experts.

(** X16.  Connecting an expert system and asking for its capabilities
    round-trips: after the configured expert systems have been connected
    one after the other, [getExpertSystemCapabilities name] returns the
    capabilities of the last configuration of that name, and behaves as
    before for a name no configuration carries; on a name that was never
    connected it throws [Expert system not connected: <name>].
    [queryExpertSystem] succeeds for exactly the names for which
    capabilities are returned. *)
Theorem expert_capabilities_round_trip
    (configs : list Integration.ExpertSystemConfig) (i : nat)
    (clock : nat -> Date) (fw : Integration.Framework) (name : string) :
  let fw' := Integration.connectToExpertSystems configs i clock fw in
  Integration.getExpertSystemCapabilities name fw'
  = match find_last
            (fun c => String.eqb (Integration.esc_name c) name) configs with
    | Some c => Integration.returned (Integration.esc_capabilities c)
    | None => Integration.getExpertSystemCapabilities name fw
    end
  /\ (forall config now,
        Integration.getExpertSystemCapabilities
          (Integration.esc_name config)
          (Integration.connectToExpertSystem config now fw)
        = Integration.returned (Integration.esc_capabilities config))
  /\ Integration.getExpertSystemCapabilities name Integration.new_framework
     = Integration.thrown ("Expert system not connected: " ++ name)%string
  /\ (forall query startTime endTime,
        Integration.success
          (Integration.queryExpertSystem name query startTime endTime fw')
        = true
        <-> exists capabilities,
              Integration.getExpertSystemCapabilities name fw'
              = Integration.returned capabilities).
Proof.
  intros fw'. split; [apply capabilities_after_connectToExpertSystems|].
  split; [|split; [done|]].
  - intros config now. rewrite capabilities_after_connect.
    by rewrite String.eqb_refl.
  - intros query startTime endTime.
    unfold Integration.queryExpertSystem,
      Integration.getExpertSystemCapabilities.
    destruct (JsMap.get name (Integration.expertSystemClients fw'))
      as [client|]; simpl.
    + split; [by eexists|done].
    + split; [done|by intros [? ?]].
Qed.

Lemma expert_capabilities_round_trip_witness :
  Integration.getExpertSystemCapabilities "Viewpoint SQL Expert"
    (Integration.connectToExpertSystems [Configs.sql_expert] 0
       Configs.wall_clock Integration.new_framework)
  = Integration.returned ["sql-generation"; "schema-analysis"].
Proof.
  exact (proj1 (expert_capabilities_round_trip [Configs.sql_expert] 0
                  Configs.wall_clock Integration.new_framework
                  "Viewpoint SQL Expert")).
Defined.

(** ** Predictive bills and schema analyses *)

Section Bills.
Context (toISOString : Date -> string) (invalid_time_message : string).
Context (E : QueryEngine).

Lemma confidence_of_bounds (m : DistributedMemorySystem) (p : PredictiveModel) :
  p ∈ getPredictiveModel E billing_prediction None m ->
  (accuracy (pm_performance p)
   <= Integration.confidence_of
        (getBestPredictiveModel E billing_prediction m))%Q.
Proof.
  intros Hp.
  destruct (getBestPredictiveModel_is_Some E _ _ _ Hp) as [best Hbest].
  rewrite Hbest. apply getBestPredictiveModel_Some in Hbest as [_ Hmax].
  specialize (Hmax p Hp). unfold Integration.confidence_of.
  destruct (Qeq_bool (accuracy (pm_performance best)) 0) eqn:Hzero; [|done].
  apply Qeq_bool_iff in Hzero.
  eapply Qle_trans; [exact Hmax|]. rewrite Hzero. done.
Qed.
End Bills.

(** X17.  [generatePredictiveBill] does not depend on any connection:
    for a valid billing period it returns the same successful result
    whatever the framework has connected (none of its three queries is
    checked), a bill with no line items and a total of 0.  The confidence
    of the bill is 0.85 when no billing-prediction model is stored, and is
    never below the accuracy of any stored billing-prediction model.  For
    an invalid billing period the call does not throw: it reports failure
    with the message of the range error. *)
Theorem predicted_bill_confidence
    (toISOString : Date -> string) (invalid_time_message : string)
    (E : QueryEngine) (jobId contractId : string) (period : Date)
    (clock : nat -> Date) (fw : Integration.Framework)
    (m : DistributedMemorySystem) :
  let result :=
    Integration.generatePredictiveBill toISOString invalid_time_message E
      jobId contractId (Integration.valid_date period) clock fw m in
  result
  = Integration.generatePredictiveBill toISOString invalid_time_message E
      jobId contractId (Integration.valid_date period) clock
      Integration.new_framework m
  /\ Integration.success result = true
  /\ (exists bill,
        Integration.result_data result
        = Some (Integration.bill_prediction bill)
        /\ Integration.pb_lineItems bill = []
        /\ Integration.pb_totalAmount bill = 0%Q
        /\ ((forall k p,
               PREDICTIVE_MODELS_NS m !! k = Some p ->
               pm_type p <> billing_prediction) ->
            Integration.pb_confidence bill = (85 # 100)%Q)
        /\ (forall k p,
              PREDICTIVE_MODELS_NS m !! k = Some p ->
              pm_type p = billing_prediction ->
              (accuracy (pm_performance p)
               <= Integration.pb_confidence bill)%Q))
  /\ (let failed :=
        Integration.generatePredictiveBill toISOString invalid_time_message
          E jobId contractId Integration.invalid_date clock fw m in
      Integration.success failed = false
      /\ Integration.error failed = Some invalid_time_message).
Proof.
  intros result. subst result. unfold Integration.generatePredictiveBill.
  split; [done|]. split; [done|]. split; [|done].
  eexists. split; [reflexivity|]. cbn [Integration.pb_lineItems
    Integration.pb_totalAmount Integration.pb_confidence].
  split; [done|]. split; [done|]. split.
  - intros Hnone.
    assert (getBestPredictiveModel E billing_prediction m = None) as ->;
      [|done].
    destruct (getBestPredictiveModel E billing_prediction m) as [best|]
      eqn:Hbest; [|done].
    apply getBestPredictiveModel_Some in Hbest as [Hb _].
    apply elem_of_getPredictiveModel in Hb as ([k Hk] & Hty & _).
    by destruct (Hnone k best Hk).
  - intros k p Hp Hty. apply confidence_of_bounds.
    apply elem_of_getPredictiveModel. eauto.
Qed.

(** With models A (0.80) and B (0.92) stored and nothing connected, the
    bill is produced all the same. *)
Lemma predicted_bill_confidence_witness :
  Integration.success
    (Integration.generatePredictiveBill (fun _ => "2026-01-01") "Invalid"
       canonical_engine "J1" "C1" (Integration.valid_date 0)
       Configs.wall_clock Integration.new_framework Examples.model_store)
  = true.
Proof.
  exact (proj1 (proj2 (predicted_bill_confidence (fun _ => "2026-01-01")
                         "Invalid" canonical_engine "J1" "C1" 0
                         Configs.wall_clock Integration.new_framework
                         Examples.model_store))).
Defined.

Section SchemaAnalysis.
Context (E : QueryEngine).

End SchemaAnalysis.



(** * The platform *)

Section PlatformFacts.
Implicit Types (p : Platform.ARWizardPlatform).

Lemma with_status_same p : Platform.with_status (Platform.status p) p = p.
Proof. by destruct p. Qed.

Lemma serve_not_running r p :
  Platform.status p <> Platform.st_running ->
  Platform.status p <> Platform.st_paused ->
  Platform.serve r p = p.
Proof.
  intros Hrun Hpause.
  destruct r; simpl;
    unfold Platform.pause, Platform.resume,
      Platform.developARWizardComponent, Platform.testARWizardComponent,
      Platform.deployARWizardComponent;
    by rewrite bool_decide_eq_true_2.
Qed.

Lemma filter_disconnected_nil (l : list Platform.IntegrationEntry) :
  List.filter (fun e => negb (Platform.ie_connected e)) l = []
  <-> Forall (fun e => Platform.ie_connected e = true) l.
Proof.
  induction l as [|e l IH]; simpl; [by split; [constructor|]|].
  rewrite Forall_cons. destruct (Platform.ie_connected e); simpl.
  - rewrite IH. tauto.
  - split; [done|]. by intros [? _].
Qed.

Lemma length_pos_iff {A : Type} (l : list A) :
  (0 <? length l)%nat = true <-> l <> [].
Proof. rewrite Nat.ltb_lt. destruct l; simpl; split; (done || lia). Qed.
End PlatformFacts.

(** X19.  Workflows need a running platform, and only [initialize] can
    make it run again.  In every status other than running, each of the
    three workflow calls throws [Platform is not running] and changes
    nothing.  On a platform that is stopped, failed or still initialising,
    pause and resume are ignored as well: any sequence of pause, resume
    and workflow requests leaves the platform exactly as it was. *)
Theorem workflows_need_a_running_platform
    (p : Platform.ARWizardPlatform) :
  Platform.status p <> Platform.st_running ->
  (forall description workflow,
     Platform.developARWizardComponent description workflow p
     = (p, Integration.thrown "Platform is not running"))
  /\ (forall description databases workflow,
        Platform.testARWizardComponent description databases workflow p
        = (p, Integration.thrown "Platform is not running"))
  /\ (forall description env workflow,
        Platform.deployARWizardComponent description env workflow p
        = (p, Integration.thrown "Platform is not running"))
  /\ Platform.isRunning p = false
  /\ (Platform.status p <> Platform.st_paused ->
      forall requests, Platform.serve_all requests p = p).
Proof.
  intros Hrun.
  unfold Platform.developARWizardComponent, Platform.testARWizardComponent,
    Platform.deployARWizardComponent, Platform.isRunning.
  rewrite bool_decide_eq_true_2 by done.
  rewrite bool_decide_eq_false_2 by done.
  repeat split.
  intros Hpause requests. unfold Platform.serve_all.
  induction requests as [|r requests IH]; simpl; [done|].
  by rewrite serve_not_running.
Qed.

Lemma workflows_need_a_running_platform_witness :
  Platform.status (Platform.new_platform Configs.platform_config empty_memory)
  <> Platform.st_running
  /\ Platform.developARWizardComponent "billing screen"
       (Integration.returned "obj-1")
       (Platform.new_platform Configs.platform_config empty_memory)
     = (Platform.new_platform Configs.platform_config empty_memory,
        Integration.thrown "Platform is not running").
Proof.
  assert (Platform.status
            (Platform.new_platform Configs.platform_config empty_memory)
          <> Platform.st_running) as Hstatus by discriminate.
  split; [exact Hstatus|].
  exact (proj1 (workflows_need_a_running_platform _ Hstatus)
           "billing screen" (Integration.returned "obj-1")).
Defined.

(** X20.  Pause and resume.  When the coordinator calls succeed, pausing
    a running platform and resuming it gives back the same platform, with
    the two events [platform:paused] and [platform:resumed] added to the
    log; in between it is not running.  The status is changed before the
    coordinator is called: if the coordinator's [pause] throws, the error
    propagates, no event is emitted and the platform is left paused. *)
Theorem pause_resume_round_trip (p : Platform.ARWizardPlatform) :
  Platform.status p = Platform.st_running ->
  let halted := (Platform.pause (Integration.returned tt) p).1 in
  Platform.status halted = Platform.st_paused
  /\ Platform.isRunning halted = false
  /\ Platform.emitted halted
     = Platform.emitted p ++ [Platform.platform_paused]
  /\ (Platform.resume (Integration.returned tt) halted).1
     = Platform.emit Platform.platform_resumed
         (Platform.emit Platform.platform_paused p)
  /\ Platform.status (Platform.resume (Integration.returned tt) halted).1
     = Platform.st_running
  /\ (forall message,
        Platform.pause (Integration.thrown message) p
        = (Platform.with_status Platform.st_paused p,
           Integration.thrown message))
  /\ (Platform.pause (Integration.returned tt) halted).1 = halted.
Proof.
  intros Hrun halted. subst halted.
  unfold Platform.pause, Platform.resume.
  rewrite (bool_decide_eq_false_2 (Platform.status p <> Platform.st_running))
    by (intros Hne; by apply Hne).
  cbn [fst snd Platform.status Platform.emit Platform.with_status
       Platform.emitted].
  rewrite (bool_decide_eq_false_2
             (Platform.st_paused <> Platform.st_paused))
    by (intros Hne; by apply Hne).
  rewrite (bool_decide_eq_true_2
             (Platform.st_paused <> Platform.st_running)) by done.
  cbn [fst snd Platform.status Platform.emit Platform.with_status
       Platform.emitted Platform.isRunning].
  split; [done|]. split; [done|]. split; [done|].
  split; [|by repeat split].
  destruct p; simpl in *. by subst.
Qed.

Lemma pause_resume_round_trip_witness :
  let p :=
    Platform.with_status Platform.st_running
      (Platform.new_platform Configs.platform_config empty_memory) in
  Platform.status p = Platform.st_running
  /\ (Platform.resume (Integration.returned tt)
        (Platform.pause (Integration.returned tt) p).1).1
     = Platform.emit Platform.platform_resumed
         (Platform.emit Platform.platform_paused p).
Proof.
  intros p. split; [reflexivity|].
  exact (proj1 (proj2 (proj2 (proj2
           (pause_resume_round_trip p eq_refl))))).
Defined.

(** X21.  [identifyCriticalIssues] reports nothing exactly when every
    listed database and expert system is connected and the swarm status is
    neither [failed] nor [error]; it never reports more than three issues,
    and the swarm issue, when present, comes last. *)
Theorem critical_issues_characterised (st : Platform.PlatformStatus) :
  (Platform.identifyCriticalIssues st = []
   <-> Forall (fun db => Platform.ie_connected db = true)
         (Platform.ps_databases st)
       /\ Forall (fun es => Platform.ie_connected es = true)
            (Platform.ps_expertSystems st)
       /\ Platform.ps_swarm_status st <> "failed"
       /\ Platform.ps_swarm_status st <> "error")
  /\ (length (Platform.identifyCriticalIssues st) <= 3)%nat
  /\ (Platform.ps_swarm_status st = "failed"
      \/ Platform.ps_swarm_status st = "error"
      <-> last (Platform.identifyCriticalIssues st)
          = Some "Swarm coordinator in error state").
Proof.
  unfold Platform.identifyCriticalIssues.
  rewrite <- !filter_disconnected_nil.
  destruct (0 <? length (List.filter _ (Platform.ps_databases st)))%nat
    eqn:Hdb;
    destruct (0 <? length (List.filter _ (Platform.ps_expertSystems st)))%nat
      eqn:Hes;
    case_bool_decide as Hswarm;
    try apply length_pos_iff in Hdb; try apply length_pos_iff in Hes;
    try (apply Nat.ltb_ge in Hdb; apply Nat.le_0_r, length_zero_iff_nil in Hdb);
    try (apply Nat.ltb_ge in Hes; apply Nat.le_0_r, length_zero_iff_nil in Hes);
    simpl; (split; [|split; [lia|]]);
    try (split; [done|tauto]);
    try (split; [tauto|done]);
    try (split; [done|]; intros (? & ? & ? & ?); tauto);
    try (split; [intros _|done]; tauto);
    try (split; [tauto|discriminate]).
Qed.

(** X22.  [shutdown] marks the platform stopped and disarms both timers
    before anything can fail.  When the coordinator's [shutdown] returns,
    every connection is dropped: the connection status lists no database
    and no expert system, a query on any database reports that the
    connection is not found, a query to any expert system reports that it
    is not connected and asking for its capabilities throws; the store
    gets one maintenance run and [platform:shutdown] is emitted.  When it
    throws, the error propagates and nothing else happens: connections
    and store stay as they were and no event is emitted, yet the platform
    is stopped.  Either way later pause, resume and workflow requests are
    ignored or rejected. *)
Theorem shutdown_stops_the_platform
    (E : QueryEngine) (now now' : Date) (p : Platform.ARWizardPlatform)
    (swarmShutdown : Integration.Outcome unit) :
  let after := (Platform.shutdown E swarmShutdown now now' p).1 in
  (Platform.status after = Platform.st_stopped
   /\ Platform.healthCheckTimer after = None
   /\ Platform.metricsTimer after = None
   /\ Platform.startTime after = Platform.startTime p
   /\ forall requests, Platform.serve_all requests after = after)
  /\ (swarmShutdown = Integration.returned tt ->
      Integration.getConnectionStatus (Platform.integrationFramework after)
      = {| Integration.databases := []; Integration.expertSystems := [] |}
      /\ (forall database query startTime endTime,
            let result :=
              Integration.executeViewpointQuery database query startTime
                endTime (Platform.integrationFramework after) in
            Integration.success result = false
            /\ Integration.error result
               = Some ("Database connection not found: " ++ database)%string)
      /\ (forall systemName query startTime endTime,
            let result :=
              Integration.queryExpertSystem systemName query startTime
                endTime (Platform.integrationFramework after) in
            Integration.success result = false
            /\ Integration.error result
               = Some ("Expert system not connected: " ++ systemName)%string)
      /\ (forall systemName,
            Integration.getExpertSystemCapabilities systemName
              (Platform.integrationFramework after)
            = Integration.thrown
                ("Expert system not connected: " ++ systemName)%string)
      /\ Platform.distributedMemory after
         = performMaintenance E now now' (Platform.distributedMemory p)
      /\ Platform.emitted after
         = Platform.emitted p ++ [Platform.platform_shutdown]
      /\ (Platform.shutdown E swarmShutdown now now' p).2
         = Integration.returned tt)
  /\ (forall message,
        swarmShutdown = Integration.thrown message ->
        Platform.integrationFramework after = Platform.integrationFramework p
        /\ Platform.distributedMemory after = Platform.distributedMemory p
        /\ Platform.emitted after = Platform.emitted p
        /\ (Platform.shutdown E swarmShutdown now now' p).2
           = Integration.thrown message).
Proof.
  intros after.
  assert (Platform.status after = Platform.st_stopped) as Hstatus.
  { subst after. unfold Platform.shutdown. by destruct swarmShutdown. }
  split; [|split].
  - split; [done|].
    split; [subst after; unfold Platform.shutdown; by destruct swarmShutdown|].
    split; [subst after; unfold Platform.shutdown; by destruct swarmShutdown|].
    split; [subst after; unfold Platform.shutdown; by destruct swarmShutdown|].
    intros requests. unfold Platform.serve_all.
    induction requests as [|r requests IH]; simpl; [done|].
    rewrite serve_not_running; [done| |]; rewrite Hstatus; discriminate.
  - intros ->. subst after. by repeat split.
  - intros message ->. subst after. by repeat split.
Qed.

(** Before the shutdown the SQL expert answers with its capabilities and
    the status lists two databases; after it the expert is gone, the
    status is empty and the store has been swept. *)
Lemma shutdown_stops_the_platform_witness :
  let p := Configs.connected_platform in
  let after :=
    (Platform.shutdown canonical_engine (Integration.returned tt) 100 100
       p).1 in
  Integration.returned tt = Integration.returned tt
  /\ Integration.getExpertSystemCapabilities "Viewpoint SQL Expert"
       (Platform.integrationFramework p)
     = Integration.returned ["sql-generation"; "schema-analysis"]
  /\ length (Integration.databases
               (Integration.getConnectionStatus
                  (Platform.integrationFramework p))) = 2%nat
  /\ Integration.getExpertSystemCapabilities "Viewpoint SQL Expert"
       (Platform.integrationFramework after)
     = Integration.thrown "Expert system not connected: Viewpoint SQL Expert"
  /\ Integration.getConnectionStatus (Platform.integrationFramework after)
     = {| Integration.databases := []; Integration.expertSystems := [] |}
  /\ Platform.distributedMemory after
     = performMaintenance canonical_engine 100 100 Examples.analysis_store.
Proof.
  intros p after.
  destruct (proj1 (proj2
              (shutdown_stops_the_platform canonical_engine 100 100 p
                 (Integration.returned tt))) eq_refl)
    as (Hstatus & _ & _ & Hcapabilities & Hmemory & _).
  split; [reflexivity|]. split; [reflexivity|]. split; [reflexivity|].
  split; [exact (Hcapabilities "Viewpoint SQL Expert")|].
  split; [exact Hstatus|]. exact Hmemory.
Defined.

(** X23.  [initialize].  When the memory system and the swarm both
    initialise, the platform ends up running, started at [now], with the
    store the memory system produced, with every configured database
    answering queries by its name, with both timers armed when monitoring
    is enabled (and left as they were when it is not), and with
    [platform:initialized] emitted last.
    When either step throws, the platform ends up in status error with
    [platform:error] emitted and the error propagated; if it is the swarm
    that fails, the configured databases have already been connected and
    stay connected.  In all cases the start time is set, so the uptime
    read at a time [t] is [t - now]. *)
Theorem initialize_outcomes
    (now : Date) (clock : nat -> Date) (p : Platform.ARWizardPlatform)
    (initialized : DistributedMemorySystem) :
  let configured c :=
    c ∈ Platform.config_databases (Platform.config p) in
  (let after :=
     (Platform.initialize (Integration.returned initialized)
        (Integration.returned tt) now clock p).1 in
   Platform.status after = Platform.st_running
   /\ Platform.isRunning after = true
   /\ Platform.distributedMemory after = initialized
   /\ (forall c query startTime endTime,
         configured c ->
         Integration.success
           (Integration.executeViewpointQuery (Integration.vdc_name c) query
              startTime endTime (Platform.integrationFramework after))
         = true)
   /\ (if Platform.enabled (Platform.monitoring (Platform.config p))
       then
         Platform.healthCheckTimer after
         = Some (Platform.healthCheckInterval
                   (Platform.monitoring (Platform.config p)))
         /\ Platform.metricsTimer after
            = Some (Platform.metricsInterval
                      (Platform.monitoring (Platform.config p)))
       else
         Platform.healthCheckTimer after = Platform.healthCheckTimer p
         /\ Platform.metricsTimer after = Platform.metricsTimer p)
   /\ last (Platform.emitted after) = Some Platform.platform_initialized)
  /\ (forall message,
        let after :=
          (Platform.initialize (Integration.thrown message)
             (Integration.returned tt) now clock p).1 in
        Platform.status after = Platform.st_error
        /\ last (Platform.emitted after)
           = Some (Platform.platform_error message)
        /\ Platform.integrationFramework after
           = Platform.integrationFramework p)
  /\ (forall message,
        let after :=
          (Platform.initialize (Integration.returned initialized)
             (Integration.thrown message) now clock p).1 in
        Platform.status after = Platform.st_error
        /\ last (Platform.emitted after)
           = Some (Platform.platform_error message)
        /\ forall c query startTime endTime,
             configured c ->
             Integration.success
               (Integration.executeViewpointQuery (Integration.vdc_name c)
                  query startTime endTime
                  (Platform.integrationFramework after))
             = true)
  /\ (forall memoryInitialize swarmInitialize t,
        Platform.getUptime t
          (Platform.initialize memoryInitialize swarmInitialize now clock
             p).1
        = t - now).
Proof.
  intros configured.
  assert (forall c query startTime endTime,
            configured c ->
            Integration.success
              (Integration.executeViewpointQuery (Integration.vdc_name c)
                 query startTime endTime
                 (Integration.connectToExpertSystems
                    (Platform.config_expertSystems (Platform.config p))
                    (length (Platform.config_databases (Platform.config p)))
                    clock
                    (Integration.connectToDatabases
                       (Platform.config_databases (Platform.config p))
                       0 clock (Platform.integrationFramework p))))
            = true) as Hconnected.
  { intros c query startTime endTime Hc.
    unfold Integration.executeViewpointQuery.
    assert (forall configs i fw,
              Integration.databaseConnections
                (Integration.connectToExpertSystems configs i clock fw)
              = Integration.databaseConnections fw) as Hdbs.
    { induction configs as [|e rest IH]; intros i fw; [done|].
      simpl. by rewrite IH. }
    rewrite Hdbs.
    destruct (proj2 (connectToDatabases_get
                       (Platform.config_databases (Platform.config p)) 0
                       clock (Platform.integrationFramework p)
                       (Integration.vdc_name c))) as [conn Hconn].
    { left. by apply list_elem_of_fmap_2. }
    by rewrite Hconn. }
  split; [|split; [|split]].
  - unfold Platform.initialize, Platform.startMonitoring.
    cbn [fst Platform.config Platform.with_memory Platform.with_framework
         Platform.with_startTime Platform.with_status
         Platform.integrationFramework Platform.distributedMemory].
    destruct (Platform.enabled (Platform.monitoring (Platform.config p)))
      eqn:Hmon.
    + split; [done|]. split; [done|]. split; [done|].
      split; [exact Hconnected|]. split; [done|].
      simpl. by rewrite last_snoc.
    + split; [done|]. split; [done|]. split; [done|].
      split; [exact Hconnected|]. split; [done|].
      simpl. by rewrite last_snoc.
  - intros message after. subst after. simpl.
    split; [done|]. split; [by rewrite last_snoc|done].
  - intros message after. subst after.
    unfold Platform.initialize.
    cbn [fst Platform.config Platform.with_memory Platform.with_framework
         Platform.with_startTime Platform.with_status Platform.emit
         Platform.integrationFramework Platform.distributedMemory
         Platform.status Platform.emitted].
    split; [done|]. split; [by rewrite last_snoc|]. exact Hconnected.
  - intros memoryInitialize swarmInitialize t.
    unfold Platform.initialize, Platform.getUptime, Platform.startMonitoring.
    destruct memoryInitialize; [|done].
    destruct swarmInitialize; [|done].
    cbn [Platform.config Platform.with_memory Platform.with_framework
         Platform.with_startTime Platform.with_status].
    by destruct (Platform.enabled (Platform.monitoring (Platform.config p))).
Qed.

(** With both steps succeeding, the sample platform answers queries on
    [Viewpoint_KLS]. *)
Lemma initialize_outcomes_witness :
  Configs.kls_config
    ∈ Platform.config_databases
        (Platform.config
           (Platform.new_platform Configs.platform_config empty_memory))
  /\ Integration.success
       (Integration.executeViewpointQuery "Viewpoint_KLS" "SELECT 1" 0 1
          (Platform.integrationFramework
             (Platform.initialize (Integration.returned empty_memory)
                (Integration.returned tt) 1000 Configs.wall_clock
                (Platform.new_platform Configs.platform_config
                   empty_memory)).1))
     = true.
Proof.
  assert (Configs.kls_config
            ∈ Platform.config_databases
                (Platform.config
                   (Platform.new_platform Configs.platform_config
                      empty_memory))) as Hin by left.
  split; [exact Hin|].
  destruct (initialize_outcomes 1000 Configs.wall_clock
              (Platform.new_platform Configs.platform_config empty_memory)
              empty_memory) as ((_ & _ & _ & Hquery & _) & _).
  exact (Hquery Configs.kls_config "SELECT 1" 0 1 Hin).
Defined.

(** * The configuration of the swarm coordinator *)

Section CoordinatorConfig.
Implicit Types (config settings : gmap string Coordinator.JsValue).

Lemma property_absent config key :
  config !! key = None -> Coordinator.property key config = Coordinator.JUndefined.
Proof. unfold Coordinator.property. by intros ->. Qed.

Lemma property_insert config key v :
  Coordinator.property key (<[key := v]> config) = v.
Proof. unfold Coordinator.property. by rewrite lookup_insert_eq. Qed.
End CoordinatorConfig.

(** X24.  The constructor lets the caller override everything.  The
    configuration it assembles is the caller's configuration laid over
    the built-in one: every property the caller gives, [name], [mode] and
    [memory] included, is kept as given, and every other property takes
    its built-in value.  In particular a [memory] object given by the
    caller is taken as it is, without the default namespace, partitions
    and flags: the merge of the defaults with [config.memory] only ever
    survives when the caller gives no [memory] at all. *)
Theorem constructor_config_overrides
    (config : gmap string Coordinator.JsValue) :
  Coordinator.defaultARWizardConfig config
  = config ∪ Coordinator.builtin_config
  /\ (forall key v,
        config !! key = Some v ->
        Coordinator.defaultARWizardConfig config !! key = Some v)
  /\ (forall key,
        config !! key = None ->
        Coordinator.defaultARWizardConfig config !! key
        = Coordinator.builtin_config !! key)
  /\ Coordinator.builtin_config !! "memory"
     = Some (Coordinator.JObject Coordinator.default_memory)
  /\ Coordinator.getARWizardConfig (Coordinator.defaultARWizardConfig config)
     = Coordinator.defaultARWizardConfig config.
Proof.
  assert (Coordinator.defaultARWizardConfig config
          = config ∪ Coordinator.builtin_config) as Hunion.
  { apply map_eq. intros key.
    unfold Coordinator.builtin_config, Coordinator.defaultARWizardConfig,
      Coordinator.spread.
    rewrite !(lookup_union config). destruct (config !! key) as [v|] eqn:Hkey.
    - match goal with
      | |- Some ?x ∪ ?a = Some ?x ∪ ?b => by destruct a, b
      end.
    - rewrite !(left_id_L ∅ (∪)), !(left_id None _).
      destruct (decide ("memory" = key)) as [<-|Hne].
      + rewrite !lookup_insert_eq.
        rewrite (property_absent config "memory" Hkey).
        rewrite (property_absent ∅ "memory" (lookup_empty _)). done.
      + rewrite !(lookup_insert_ne _ "memory") by done.
        repeat (rewrite !(lookup_insert (M := gmap string)); case_decide;
                [done|]).
        by rewrite lookup_union, Hkey, !lookup_empty. }
  split; [exact Hunion|]. split; [|split; [|split]].
  - intros key v Hkey. rewrite Hunion. by apply lookup_union_Some_l.
  - intros key Hkey. rewrite Hunion. by apply lookup_union_r.
  - reflexivity.
  - unfold Coordinator.getARWizardConfig, Coordinator.spread.
    apply (right_id_L ∅ (∪)).
Qed.

(** A caller that gives a memory object with a namespace only gets that
    object back, with no partitions. *)
Lemma constructor_config_overrides_witness :
  Configs.custom_swarm_config !! "memory"
  = Some (Coordinator.JObject
            (<["namespace" := Coordinator.JString "custom"]> ∅))
  /\ Coordinator.defaultARWizardConfig Configs.custom_swarm_config !! "memory"
     = Some (Coordinator.JObject
               (<["namespace" := Coordinator.JString "custom"]> ∅)).
Proof.
  assert (Configs.custom_swarm_config !! "memory"
          = Some (Coordinator.JObject
                    (<["namespace" := Coordinator.JString "custom"]> ∅)))
    as Hgiven by reflexivity.
  split; [exact Hgiven|].
  exact (proj1 (proj2 (constructor_config_overrides
                         Configs.custom_swarm_config)) _ _ Hgiven).
Defined.

(** X25.  [updateARWizardSettings] merges: the settings object after the
    call holds every property of the update and, for the rest, the
    properties it held before; no other property of the configuration
    changes.  Two updates in a row amount to one update with the second
    laid over the first, and an empty update leaves a settings object as
    it is. *)
Theorem updateARWizardSettings_merges
    (settings later : gmap string Coordinator.JsValue)
    (arWizardConfig : gmap string Coordinator.JsValue) :
  let updated := Coordinator.updateARWizardSettings settings arWizardConfig in
  let before :=
    Coordinator.properties_of
      (Coordinator.property "arWizardSettings" arWizardConfig) in
  Coordinator.property "arWizardSettings" updated
  = Coordinator.JObject (settings ∪ before)
  /\ (forall key v,
        settings !! key = Some v ->
        Coordinator.properties_of
          (Coordinator.property "arWizardSettings" updated) !! key = Some v)
  /\ (forall key,
        settings !! key = None ->
        Coordinator.properties_of
          (Coordinator.property "arWizardSettings" updated) !! key
        = before !! key)
  /\ (forall key,
        key <> "arWizardSettings" ->
        updated !! key = arWizardConfig !! key)
  /\ Coordinator.updateARWizardSettings later updated
     = Coordinator.updateARWizardSettings (later ∪ settings) arWizardConfig
  /\ (forall current,
        arWizardConfig !! "arWizardSettings"
        = Some (Coordinator.JObject current) ->
        Coordinator.updateARWizardSettings ∅ arWizardConfig = arWizardConfig).
Proof.
  intros updated before. subst updated before.
  unfold Coordinator.updateARWizardSettings, Coordinator.spread.
  rewrite !property_insert, !(right_id_L ∅ (∪)).
  cbn [Coordinator.properties_of].
  split; [done|]. split; [|split; [|split; [|split]]].
  - intros key v Hkey. by apply lookup_union_Some_l.
  - intros key Hkey. by apply lookup_union_r.
  - intros key Hkey. by apply lookup_insert_ne.
  - by rewrite insert_insert_eq, (assoc_L (∪)).
  - intros current Hcurrent. unfold Coordinator.property.
    rewrite Hcurrent. cbn [Coordinator.properties_of].
    rewrite (left_id_L ∅ (∪)). by apply insert_id.
Qed.

Lemma updateARWizardSettings_merges_witness :
  Coordinator.properties_of
    (Coordinator.property "arWizardSettings"
       (Coordinator.updateARWizardSettings
          (<["maxBillComplexity" := Coordinator.JNumber 250]> ∅)
          Coordinator.builtin_config))
  !! "predictionAccuracyTarget"
  = Some (Coordinator.JNumber (95 # 100)).
Proof.
  destruct (updateARWizardSettings_merges
              (<["maxBillComplexity" := Coordinator.JNumber 250]> ∅) ∅
              Coordinator.builtin_config) as (_ & _ & Hkept & _).
  rewrite Hkept; reflexivity.
Defined.
